(** * eRPC: the per-endpoint RPC engine ([Rpc<TTr>])

    A shallow embedding of [src/rpc.h], [src/rpc_impl/rpc_sm_api.cc] and
    [src/rpc_impl/rpc_sm_helpers.cc], and the properties of the engine's
    buffer allocation, session management and event loop.

    Conventions of the embedding.
    - [size_t] values are integers in [Z]; the wrap-around of 64-bit
      arithmetic is written out with [wrap64].
    - A nullable pointer is an [option]: [None] is [nullptr].
    - [Session] objects live in a store ([session_heap]) indexed by address;
      [session_vec], [mgmt_retry_queue] and [datapath_tx_work_queue] hold
      addresses, so that a mutation through one pointer is seen through all.
    - [assert]s are the release build's: they document preconditions and
      are not executed.  Debug printing ([erpc_dprintf]) and the conditional
      locks ([*_lock_cond], no-ops unless [multi_threaded]) have no effect
      on the modelled state and are left out.
    - An exception thrown by the code, or the dereference of a pointer that
      does not point to an object, is an [Err] outcome. *)

From stdpp Require Import base numbers option list gmap strings relations.

#[local] Open Scope Z_scope.

(** * Outcomes *)

Inductive error : Set :=
| RuntimeError   (* std::runtime_error *)
| OutOfRange     (* std::out_of_range, from std::vector::at *)
| BadPointer.    (* dereference of a dangling pointer: undefined behaviour *)

Inductive result (A : Type) : Type :=
| Ok (a : A)
| Err (e : error).
Arguments Ok {A} a.
Arguments Err {A} e.

#[global] Instance result_ret : MRet result := fun _ a => Ok a.
#[global] Instance result_bind : MBind result := fun _ _ f m =>
  match m with
  | Ok a => f a
  | Err e => Err e
  end.

(** Dereference of an object pointer in a store. *)
Definition deref {A} (heap : gmap nat A) (p : nat) : result A :=
  match heap !! p with
  | Some x => Ok x
  | None => Err BadPointer
  end.

(** * Machine arithmetic *)

Definition wrap64 (z : Z) : Z := z mod 2 ^ 64.
Definition wrap16 (z : Z) : Z := z mod 2 ^ 16.

(** * Compile-time constants

    The constants come from headers that are not part of the excerpt
    ([common.h], [util/huge_alloc.h], the transport); they are parameters of
    the development. *)

Class Constants := {
  kMaxDataPerPkt : Z;          (* TTr::kMaxDataPerPkt *)
  kMaxClassSize : Z;           (* HugeAlloc::kMaxClassSize *)
  kSessionReqWindow : nat;     (* Session::kSessionReqWindow *)
  kMaxSessionsPerThread : Z;
  kMaxPhyPorts : Z;
  kMaxHostnameLen : Z;
  kPktHdrMagic : Z;
}.

(** Modelled from the spec: [sizeof(pkthdr_t)] ([pkthdr.h], absent); the
    packet header has 16 bytes. *)
Definition sizeof_pkthdr_t : Z := 16.

(** Modelled from the spec: [kMsgSizeBits] ([pkthdr.h], absent); the message
    size field of the header has 24 bits. *)
Definition kMsgSizeBits : Z := 24.

(** Modelled from the spec: [kPktNumBits] ([pkthdr.h], absent); the packet
    number field of the header has 13 bits. *)
Definition kPktNumBits : Z := 13.

(** Modelled from the spec: [kSecretBits] ([common.h], absent); the session
    secret has 48 bits. *)
Definition kSecretBits : Z := 48.

Section Sizes.
Context {consts : Constants}.

(** [Rpc::kMaxMsgSize], in [size_t] arithmetic. *)
Definition kMaxMsgSize : Z :=
  wrap64 (kMaxClassSize
          - wrap64 ((kMaxClassSize / kMaxDataPerPkt) * sizeof_pkthdr_t)).

(** What the compiler checks of the constants: they are [size_t] values,
    the divisor is not zero, and the two [static_assert]s of [rpc.h]
    hold. *)
Class ConstantsOK : Prop := {
  kMaxDataPerPkt_range : 0 < kMaxDataPerPkt < 2 ^ 64;
  kMaxClassSize_range : 0 <= kMaxClassSize < 2 ^ 64;
  static_assert_msg_size : 2 ^ kMsgSizeBits >= kMaxMsgSize;
  static_assert_pkt_num :
    wrap64 (2 ^ kPktNumBits * kMaxDataPerPkt) >= kMaxMsgSize;
}.

(** The packet count that [alloc_msg_buffer] and [resize_msg_buffer] both
    compute for a data size, division avoided for small sizes: a name for
    the expression, to state lemmas about it. *)
Definition num_pkts_for (data_size : Z) : Z :=
  if data_size <=? kMaxDataPerPkt then 1
  else wrap64 (data_size + (kMaxDataPerPkt - 1)) / kMaxDataPerPkt.

(** The spec's packet count: the ceiling of the quotient, and one packet
    for a size that fits a packet. *)
Definition ceil_div (n d : Z) : Z :=
  if decide (n mod d = 0) then n / d else n / d + 1.

Definition packets_for (size : Z) : Z :=
  if decide (size <= kMaxDataPerPkt) then 1 else ceil_div size kMaxDataPerPkt.
End Sizes.

(** * Buffers *)

(** [Buffer] ([util/buffer.h], absent): the engine reads only its [buf]
    member, a nullable byte pointer. *)
Record Buffer := mkBuffer { Buffer_buf : option Z }.

#[global] Instance Buffer_eq_dec : EqDecision Buffer.
Proof. solve_decision. Defined.

(** Modelled from the spec: [MsgBuffer] ([msg_buffer.h], absent).  "A payload
    region logically preceded by one packet header per packet.  Attributes:
    base pointer; payload size; maximum payload size (fixed at allocation);
    packet count; origin tag (preallocated-static or dynamic-from-allocator);
    magic sentinel."  The origin tag is [buffer]: a buffer that came from the
    allocator keeps the allocator's [Buffer], and [is_dynamic] tests its
    [buf] (the comments of [bury_sslot_rx_msgbuf]).  [magic] is the magic
    field of the zeroth packet header, which lives at [buffer.buf]. *)
Record MsgBuffer := mkMsgBuffer {
  buffer : Buffer;
  max_data_size : Z;
  data_size : Z;
  max_num_pkts : Z;
  num_pkts : Z;
  buf : option Z;
  magic : Z;
}.

#[global] Instance MsgBuffer_eq_dec : EqDecision MsgBuffer.
Proof. solve_decision. Defined.

(** [MsgBuffer::is_dynamic]: a [MsgBuffer] "used dynamic allocation if its
    [buffer.buf] is non-NULL; its [buf] can be non-NULL even when dynamic
    allocation is not used" (comment of [bury_sslot_rx_msgbuf]). *)
Definition is_dynamic (m : MsgBuffer) : bool :=
  bool_decide (Buffer_buf (buffer m) <> None).

(** The default-constructed [MsgBuffer] with [buf] set to [nullptr]: the
    invalid handle.  C++ leaves its other members indeterminate; they are
    zero here. *)
Definition MsgBuffer_invalid : MsgBuffer :=
  mkMsgBuffer (mkBuffer None) 0 0 0 0 None 0.

Definition set_buf (m : MsgBuffer) (p : option Z) : MsgBuffer :=
  mkMsgBuffer (buffer m) (max_data_size m) (data_size m) (max_num_pkts m)
              (num_pkts m) p (magic m).

Definition set_buffer_buf (m : MsgBuffer) (p : option Z) : MsgBuffer :=
  mkMsgBuffer (mkBuffer p) (max_data_size m) (data_size m) (max_num_pkts m)
              (num_pkts m) (buf m) (magic m).

(** Modelled from the spec: [MsgBuffer::resize] "lowers [size] and recomputes
    packet count without touching memory". *)
Definition MsgBuffer_resize (m : MsgBuffer) (new_data_size new_num_pkts : Z)
  : MsgBuffer :=
  mkMsgBuffer (buffer m) (max_data_size m) new_data_size (max_num_pkts m)
              new_num_pkts (buf m) (magic m).

(** The payload byte at offset [i], in a memory [mem]. *)
Definition payload_byte (mem : gmap Z Z) (m : MsgBuffer) (i : Z) : option Z :=
  match buf m with
  | Some base => mem !! (base + i)
  | None => None
  end.

(** * The hugepage allocator

    [HugeAlloc] ([util/huge_alloc.h]) is an external collaborator: the engine
    uses [alloc], which returns a [Buffer] whose [buf] is null when memory
    ran out and throws when the size is too large or the reservation fails
    catastrophically, and [free_buf]. *)
Class HugeAlloc (H : Type) := {
  alloc : H -> Z -> result (Buffer * H);
  free_buf : H -> Buffer -> H;
}.

Section MsgBufferAlloc.
Context {consts : Constants} {H : Type} {huge_allocator : HugeAlloc H}.

(** Modelled from the spec: the constructor [MsgBuffer(buffer,
    max_data_size, max_num_pkts)]: "a valid dynamic buffer with
    [size = max_size], [packet_count = p], magic set"; the payload starts
    after the zeroth header. *)
Definition MsgBuffer_new (b : Buffer) (max_data_size max_num_pkts : Z)
  : MsgBuffer :=
  mkMsgBuffer b max_data_size max_data_size max_num_pkts max_num_pkts
              ((fun p => p + sizeof_pkthdr_t) <$> Buffer_buf b)
              kPktHdrMagic.

(** Modelled from the spec: [MsgBuffer::check_magic], the "magic sentinel
    for debug-mode validation": the zeroth header holds the magic. *)
Definition check_magic (m : MsgBuffer) : bool :=
  bool_decide (magic m = kPktHdrMagic).

(** [Rpc::alloc_msg_buffer] *)
Definition alloc_msg_buffer (huge_alloc : H) (max_data_size : Z)
  : result (MsgBuffer * H) :=
  let max_num_pkts :=
    if max_data_size <=? kMaxDataPerPkt then 1
    else wrap64 (max_data_size + (kMaxDataPerPkt - 1)) / kMaxDataPerPkt in
  '(buffer, huge_alloc) ←
    alloc huge_alloc
          (wrap64 (max_data_size + wrap64 (max_num_pkts * sizeof_pkthdr_t)));
  match Buffer_buf buffer with
  | None => Ok (MsgBuffer_invalid, huge_alloc)
  | Some _ => Ok (MsgBuffer_new buffer max_data_size max_num_pkts, huge_alloc)
  end.

(** [Rpc::resize_msg_buffer]; its assertions: [msg_buffer] is valid and
    [new_data_size < msg_buffer->max_data_size]. *)
Definition resize_msg_buffer (msg_buffer : MsgBuffer) (new_data_size : Z)
  : MsgBuffer :=
  let new_num_pkts :=
    if new_data_size <=? kMaxDataPerPkt then 1
    else wrap64 (new_data_size + (kMaxDataPerPkt - 1)) / kMaxDataPerPkt in
  MsgBuffer_resize msg_buffer new_data_size new_num_pkts.

(** [Rpc::free_msg_buffer]; its assertion: [msg_buffer] is dynamic and
    its magic is right. *)
Definition free_msg_buffer (huge_alloc : H) (msg_buffer : MsgBuffer) : H :=
  free_buf huge_alloc (buffer msg_buffer).
End MsgBufferAlloc.


(** * Sessions *)

(** Opaque transport-specific addressing blob. *)
Definition RoutingInfo := list Z.

(** One side of a session.  The members are those [create_session] fills
    in. *)
Module SessionEndpoint.
Record t := mk {
  transport_type : Z;
  hostname : string;
  phy_port : Z;         (* uint8_t *)
  app_tid : Z;          (* uint8_t; [rpc_id] in rpc_sm_helpers.cc *)
  session_num : Z;      (* uint16_t *)
  secret : Z;
  routing_info : RoutingInfo;
}.

(** The members of an endpoint that has not been filled in yet. *)
Definition empty : t := mk 0 EmptyString 0 0 0 0 [].
End SessionEndpoint.

Inductive SessionState :=
| kConnectInProgress
| kConnected
| kDisconnectInProgress
| kDisconnected.

Inductive Role := kServer | kClient.

#[global] Instance SessionState_eq_dec : EqDecision SessionState.
Proof. solve_decision. Defined.
#[global] Instance Role_eq_dec : EqDecision Role.
Proof. solve_decision. Defined.

(** A session slot.  [session] is the back-pointer to the owning session and
    [tx_msgbuf] a nullable pointer to a [MsgBuffer] owned elsewhere;
    [rx_msgbuf] and [pre_resp_msgbuf] are [MsgBuffer]s held by value. *)
Module SSlot.
Record t := mk {
  session : nat;
  index : Z;
  tx_msgbuf : option Z;
  rx_msgbuf : MsgBuffer;
  pre_resp_msgbuf : MsgBuffer;
}.

Definition set_rx_msgbuf (s : t) (m : MsgBuffer) : t :=
  mk (session s) (index s) (tx_msgbuf s) m (pre_resp_msgbuf s).

Definition set_pre_resp_msgbuf (s : t) (m : MsgBuffer) : t :=
  mk (session s) (index s) (tx_msgbuf s) (rx_msgbuf s) m.
End SSlot.

Module Session.
Record t := mk {
  role : Role;
  state : SessionState;
  client : SessionEndpoint.t;
  server : SessionEndpoint.t;
  local_session_num : Z;                 (* uint16_t *)
  sslot_arr : list SSlot.t;              (* sslot_arr[kSessionReqWindow] *)
  sslot_free_vec : list Z;
  in_datapath_tx_work_queue : bool;
}.

Definition is_client (s : t) : bool := bool_decide (role s = kClient).

Definition set_state (s : t) (st : SessionState) : t :=
  mk (role s) st (client s) (server s) (local_session_num s) (sslot_arr s)
     (sslot_free_vec s) (in_datapath_tx_work_queue s).

Definition set_endpoints (s : t) (c sv : SessionEndpoint.t) : t :=
  mk (role s) (state s) c sv (local_session_num s) (sslot_arr s)
     (sslot_free_vec s) (in_datapath_tx_work_queue s).

Definition set_local_session_num (s : t) (n : Z) : t :=
  mk (role s) (state s) (client s) (server s) n (sslot_arr s)
     (sslot_free_vec s) (in_datapath_tx_work_queue s).

Definition set_sslot_arr (s : t) (arr : list SSlot.t) : t :=
  mk (role s) (state s) (client s) (server s) (local_session_num s) arr
     (sslot_free_vec s) (in_datapath_tx_work_queue s).

Definition set_sslot_free_vec (s : t) (v : list Z) : t :=
  mk (role s) (state s) (client s) (server s) (local_session_num s)
     (sslot_arr s) v (in_datapath_tx_work_queue s).

Definition set_in_datapath_tx_work_queue (s : t) (b : bool) : t :=
  mk (role s) (state s) (client s) (server s) (local_session_num s)
     (sslot_arr s) (sslot_free_vec s) b.
End Session.

(** Modelled from the spec: the constructor [Session(role, state)]
    ([session.h], absent).  It takes the role and state it is given; the slot
    array has [kSessionReqWindow] slots "indexed by [slot_index]", each with
    its back-reference, no TX buffer and an invalid RX buffer; every slot is
    on the free-slot stack; the session is in no queue. *)
Definition Session_new `{Constants} (this : nat) (role : Role)
    (state : SessionState) : Session.t :=
  Session.mk role state SessionEndpoint.empty SessionEndpoint.empty 0
    ((fun i : nat =>
        SSlot.mk this (Z.of_nat i) None MsgBuffer_invalid MsgBuffer_invalid)
       <$> seq 0 kSessionReqWindow)
    (Z.of_nat <$> seq 0 kSessionReqWindow)
    false.

(** * Session-management packets *)

Inductive SessionMgmtPktType :=
| kConnectReq
| kConnectResp
| kDisconnectReq
| kDisconnectResp
| kFaultDropTxRemote.

#[global] Instance SessionMgmtPktType_eq_dec : EqDecision SessionMgmtPktType.
Proof. solve_decision. Defined.

(** Modelled from the spec: [SessionMgmtPkt] (declared in an absent header).
    "Each carries both endpoint descriptors (client, server) including the
    shared secret; responses carry an error-kind enum."  The error kind is
    the integer value of the enum; zero is what [new SessionMgmtPkt()]
    leaves. *)
Module SessionMgmtPkt.
Record t := mk {
  pkt_type : SessionMgmtPktType;
  err_type : Z;
  client : SessionEndpoint.t;
  server : SessionEndpoint.t;
}.

(** Modelled from the spec: [is_req], true of the two request messages. *)
Definition is_req (p : t) : bool :=
  match pkt_type p with
  | kConnectReq | kDisconnectReq => true
  | _ => false
  end.
End SessionMgmtPkt.

(** Modelled from the spec: [session_mgmt_pkt_type_req_to_resp] (absent):
    the response type that corresponds to a request type.  It is called
    under the assertion that the packet is a request; any other type has no
    response type. *)
Definition session_mgmt_pkt_type_req_to_resp (ty : SessionMgmtPktType)
  : result SessionMgmtPktType :=
  match ty with
  | kConnectReq => Ok kConnectResp
  | kDisconnectReq => Ok kDisconnectResp
  | _ => Err RuntimeError
  end.

(** [Nexus<TTr>::SmWorkItem(rpc_id, sm_pkt, epeer)]: the packet is held by
    value, [epeer] is a nullable pointer. *)
Module SmWorkItem.
Record t := mk {
  rpc_id : Z;
  sm_pkt : SessionMgmtPkt.t;
  epeer : option Z;
}.
End SmWorkItem.

(** * The transport and the random source *)

(** The operations of [TTr] the session API uses. *)
Class Transport (T : Type) := {
  transport_type : T -> Z;
  fill_local_routing_info : T -> RoutingInfo;
}.

(** [SlowRand::next_u64] *)
Class SlowRand (R : Type) := {
  next_u64 : R -> Z * R;
}.

(** * The engine state *)

Section Engine.
Context {consts : Constants}.
Context {T H R : Type}.
Context {transport_ops : Transport T} {huge_allocator : HugeAlloc H}
        {slow_rand_ops : SlowRand R}.

(** The members of [Rpc] that the modelled functions read or write.
    [session_heap] holds the [Session] objects made by [new Session], and
    [session_brk] is the next address [new] hands out: addresses are not
    reused.  [sm_rx_list] and [sm_tx_list] are the two mailboxes of
    [nexus_hook] ([sm_rx_list] is [sm_pkt_list] in rpc.h). *)
Record Rpc := mkRpc {
  nexus_hostname : string;               (* nexus->hostname *)
  app_tid : Z;                           (* [rpc_id] in rpc_sm_helpers.cc *)
  phy_port : Z;
  creator_os_tid : Z;
  transport : T;
  huge_alloc : H;
  slow_rand : R;
  session_heap : gmap nat Session.t;
  session_brk : nat;
  session_vec : list (option nat);
  mgmt_retry_queue : list nat;
  datapath_tx_work_queue : list nat;
  sm_rx_list : list SmWorkItem.t;
  sm_tx_list : list SmWorkItem.t;
  ev_loop_calls : Z;                     (* dpath_stats.ev_loop_calls *)
}.

Definition set_huge_alloc (rpc : Rpc) (h : H) : Rpc :=
  mkRpc (nexus_hostname rpc) (app_tid rpc) (phy_port rpc) (creator_os_tid rpc)
        (transport rpc) h (slow_rand rpc) (session_heap rpc)
        (session_brk rpc) (session_vec rpc) (mgmt_retry_queue rpc)
        (datapath_tx_work_queue rpc) (sm_rx_list rpc) (sm_tx_list rpc)
        (ev_loop_calls rpc).

Definition set_slow_rand (rpc : Rpc) (r : R) : Rpc :=
  mkRpc (nexus_hostname rpc) (app_tid rpc) (phy_port rpc) (creator_os_tid rpc)
        (transport rpc) (huge_alloc rpc) r (session_heap rpc)
        (session_brk rpc) (session_vec rpc) (mgmt_retry_queue rpc)
        (datapath_tx_work_queue rpc) (sm_rx_list rpc) (sm_tx_list rpc)
        (ev_loop_calls rpc).

Definition set_session_heap (rpc : Rpc) (heap : gmap nat Session.t) : Rpc :=
  mkRpc (nexus_hostname rpc) (app_tid rpc) (phy_port rpc) (creator_os_tid rpc)
        (transport rpc) (huge_alloc rpc) (slow_rand rpc) heap
        (session_brk rpc) (session_vec rpc) (mgmt_retry_queue rpc)
        (datapath_tx_work_queue rpc) (sm_rx_list rpc) (sm_tx_list rpc)
        (ev_loop_calls rpc).

Definition set_session_brk (rpc : Rpc) (brk : nat) : Rpc :=
  mkRpc (nexus_hostname rpc) (app_tid rpc) (phy_port rpc) (creator_os_tid rpc)
        (transport rpc) (huge_alloc rpc) (slow_rand rpc) (session_heap rpc)
        brk (session_vec rpc) (mgmt_retry_queue rpc)
        (datapath_tx_work_queue rpc) (sm_rx_list rpc) (sm_tx_list rpc)
        (ev_loop_calls rpc).

Definition set_session_vec (rpc : Rpc) (v : list (option nat)) : Rpc :=
  mkRpc (nexus_hostname rpc) (app_tid rpc) (phy_port rpc) (creator_os_tid rpc)
        (transport rpc) (huge_alloc rpc) (slow_rand rpc) (session_heap rpc)
        (session_brk rpc) v (mgmt_retry_queue rpc)
        (datapath_tx_work_queue rpc) (sm_rx_list rpc) (sm_tx_list rpc)
        (ev_loop_calls rpc).

Definition set_mgmt_retry_queue (rpc : Rpc) (q : list nat) : Rpc :=
  mkRpc (nexus_hostname rpc) (app_tid rpc) (phy_port rpc) (creator_os_tid rpc)
        (transport rpc) (huge_alloc rpc) (slow_rand rpc) (session_heap rpc)
        (session_brk rpc) (session_vec rpc) q
        (datapath_tx_work_queue rpc) (sm_rx_list rpc) (sm_tx_list rpc)
        (ev_loop_calls rpc).

Definition set_datapath_tx_work_queue (rpc : Rpc) (q : list nat) : Rpc :=
  mkRpc (nexus_hostname rpc) (app_tid rpc) (phy_port rpc) (creator_os_tid rpc)
        (transport rpc) (huge_alloc rpc) (slow_rand rpc) (session_heap rpc)
        (session_brk rpc) (session_vec rpc) (mgmt_retry_queue rpc)
        q (sm_rx_list rpc) (sm_tx_list rpc) (ev_loop_calls rpc).

Definition set_sm_tx_list (rpc : Rpc) (l : list SmWorkItem.t) : Rpc :=
  mkRpc (nexus_hostname rpc) (app_tid rpc) (phy_port rpc) (creator_os_tid rpc)
        (transport rpc) (huge_alloc rpc) (slow_rand rpc) (session_heap rpc)
        (session_brk rpc) (session_vec rpc) (mgmt_retry_queue rpc)
        (datapath_tx_work_queue rpc) (sm_rx_list rpc) l (ev_loop_calls rpc).

Definition set_ev_loop_calls (rpc : Rpc) (n : Z) : Rpc :=
  mkRpc (nexus_hostname rpc) (app_tid rpc) (phy_port rpc) (creator_os_tid rpc)
        (transport rpc) (huge_alloc rpc) (slow_rand rpc) (session_heap rpc)
        (session_brk rpc) (session_vec rpc) (mgmt_retry_queue rpc)
        (datapath_tx_work_queue rpc) (sm_rx_list rpc) (sm_tx_list rpc) n.

(** Modelled from the spec: the constructor of [Rpc] (rpc.cc, absent).  It
    keeps its arguments; the vectors declared in rpc.h are
    default-constructed, so that the engine starts with no session and with
    empty queues. *)
Definition Rpc_new (hostname : string) (app_tid phy_port creator_os_tid : Z)
    (transport : T) (huge_alloc : H) (slow_rand : R) : Rpc :=
  mkRpc hostname app_tid phy_port creator_os_tid transport huge_alloc
        slow_rand ∅ 0%nat [] [] [] [] [] 0.

(** [Rpc::in_creator]; [gettid] is the OS thread id of the calling thread. *)
Definition in_creator (rpc : Rpc) (gettid : Z) : bool :=
  bool_decide (gettid = creator_os_tid rpc).

(** ** Session-management helpers *)

(** Modelled from the spec: [mgmt_retry_queue_add] (rpc_sm_retry.cc, absent):
    "the session joins the management-retry queue", an ordered collection of
    the sessions with a management request in flight.  Its assertion, per
    the comment at its call in [destroy_session]: the session is not in the
    queue already.  The timestamp it records is real time and is not
    modelled. *)
Definition mgmt_retry_queue_add (rpc : Rpc) (session : nat) : Rpc :=
  set_mgmt_retry_queue rpc (mgmt_retry_queue rpc ++ [session]).

(** [Rpc::enqueue_sm_req] *)
Definition enqueue_sm_req (rpc : Rpc) (session : nat)
    (pkt_type : SessionMgmtPktType) : result Rpc :=
  s ← deref (session_heap rpc) session;
  let sm_pkt :=
    SessionMgmtPkt.mk pkt_type 0 (Session.client s) (Session.server s) in
  Ok (set_sm_tx_list rpc
        (sm_tx_list rpc ++ [SmWorkItem.mk (app_tid rpc) sm_pkt None])).

(** [Rpc::enqueue_sm_resp]; [req_wi] and its packet are asserted non-null,
    and the packet is asserted to be a request. *)
Definition enqueue_sm_resp (rpc : Rpc) (req_wi : SmWorkItem.t) (err_type : Z)
  : result Rpc :=
  let sm_pkt := SmWorkItem.sm_pkt req_wi in
  pkt_type ←
    session_mgmt_pkt_type_req_to_resp (SessionMgmtPkt.pkt_type sm_pkt);
  let sm_pkt :=
    SessionMgmtPkt.mk pkt_type err_type
      (SessionMgmtPkt.client sm_pkt) (SessionMgmtPkt.server sm_pkt) in
  let wi := SmWorkItem.mk (app_tid rpc) sm_pkt (SmWorkItem.epeer req_wi) in
  Ok (set_sm_tx_list rpc (sm_tx_list rpc ++ [wi])).

(** Modelled from the spec: [send_connect_req_one] and
    [send_disconnect_req_one] (rpc_sm_retry.cc, absent): the request
    "enqueues a [ConnectReq] via the management mailbox", respectively
    "sends a [DisconnectReq]"; the mailbox is filled by [enqueue_sm_req]. *)
Definition send_connect_req_one (rpc : Rpc) (session : nat) : result Rpc :=
  enqueue_sm_req rpc session kConnectReq.

Definition send_disconnect_req_one (rpc : Rpc) (session : nat) : result Rpc :=
  enqueue_sm_req rpc session kDisconnectReq.

(** ** [create_session] *)

(** The loop of [create_session] over [session_vec]: whether a session to
    the remote Rpc [(rem_hostname, rem_app_tid)] exists already. *)
Fixpoint session_exists (heap : gmap nat Session.t) (vec : list (option nat))
    (rem_hostname : string) (rem_app_tid : Z) : result bool :=
  match vec with
  | [] => Ok false
  | None :: vec => session_exists heap vec rem_hostname rem_app_tid
  | Some p :: vec =>
      existing_session ← deref heap p;
      let server := Session.server existing_session in
      if bool_decide (SessionEndpoint.hostname server = rem_hostname)
         && bool_decide (SessionEndpoint.app_tid server = rem_app_tid)
      then Ok true
      else session_exists heap vec rem_hostname rem_app_tid
  end.

(** The roll-back of a failed preallocation: the buffers of the slots filled
    so far are freed, in slot order. *)
Definition free_prealloc (huge_alloc : H) (filled : list SSlot.t) : H :=
  foldl (fun h sslot_j => free_msg_buffer h (SSlot.pre_resp_msgbuf sslot_j))
        huge_alloc filled.

(** The loop of [create_session] that fills the preallocated response
    buffers: [filled] are slots [0 .. i-1], [todo] slots [i ..].  The boolean
    is false when an allocation ran out of memory. *)
Fixpoint fill_prealloc (huge_alloc : H) (filled todo : list SSlot.t)
  : result (bool * list SSlot.t * H) :=
  match todo with
  | [] => Ok (true, filled, huge_alloc)
  | sslot_i :: todo =>
      '(resp_msgbuf_i, huge_alloc) ←
        alloc_msg_buffer huge_alloc kMaxDataPerPkt;
      let sslot_i := SSlot.set_pre_resp_msgbuf sslot_i resp_msgbuf_i in
      match buf resp_msgbuf_i with
      | None =>
          Ok (false, filled ++ sslot_i :: todo, free_prealloc huge_alloc filled)
      | Some _ => fill_prealloc huge_alloc (filled ++ [sslot_i]) todo
      end
  end.

(** [Rpc::create_session]; [rem_hostname] is a nullable C string. *)
Definition create_session (rpc : Rpc) (gettid : Z)
    (rem_hostname : option string) (rem_app_tid rem_phy_port : Z)
  : result (option nat * Rpc) :=
  if negb (in_creator rpc gettid) then Ok (None, rpc) else
  if bool_decide (rem_phy_port >= kMaxPhyPorts) then Ok (None, rpc) else
  match rem_hostname with
  | None => Ok (None, rpc)
  | Some rem_hostname =>
  if bool_decide (Z.of_nat (String.length rem_hostname) > kMaxHostnameLen)
  then Ok (None, rpc) else
  if bool_decide (rem_hostname = nexus_hostname rpc)
     && bool_decide (rem_app_tid = app_tid rpc)
  then Ok (None, rpc) else
  dup ← session_exists (session_heap rpc) (session_vec rpc)
                       rem_hostname rem_app_tid;
  if (dup : bool) then Ok (None, rpc) else
  if bool_decide (Z.of_nat (length (session_vec rpc)) >= kMaxSessionsPerThread)
  then Ok (None, rpc) else
  (* new Session(Session::Role::kClient, SessionState::kConnectInProgress) *)
  let session := session_brk rpc in
  let s := Session_new session kClient kConnectInProgress in
  let rpc := set_session_brk rpc (S session) in
  let rpc := set_session_heap rpc (<[session := s]> (session_heap rpc)) in
  '(ok, sslot_arr, huge_alloc) ←
    fill_prealloc (huge_alloc rpc) [] (Session.sslot_arr s);
  let s := Session.set_sslot_arr s sslot_arr in
  let rpc := set_huge_alloc rpc huge_alloc in
  let rpc := set_session_heap rpc (<[session := s]> (session_heap rpc)) in
  if negb ok then Ok (None, rpc) (* the session object is not freed *) else
  let '(rnd, slow_rand) := next_u64 (slow_rand rpc) in
  let rpc := set_slow_rand rpc slow_rand in
  let client_endpoint :=
    SessionEndpoint.mk
      (transport_type (transport rpc))
      (nexus_hostname rpc)
      (phy_port rpc)
      (app_tid rpc)
      (wrap16 (Z.of_nat (length (session_vec rpc))))
      (Z.land rnd (wrap64 (wrap64 (Z.shiftl 1 kSecretBits) - 1)))
      (fill_local_routing_info (transport rpc)) in
  let server_endpoint :=
    SessionEndpoint.mk
      (transport_type (transport rpc))
      rem_hostname
      rem_phy_port
      rem_app_tid
      (SessionEndpoint.session_num (Session.server s))
      (SessionEndpoint.secret client_endpoint)
      (SessionEndpoint.routing_info (Session.server s)) in
  let s := Session.set_endpoints s client_endpoint server_endpoint in
  let s :=
    Session.set_local_session_num s
      (SessionEndpoint.session_num client_endpoint) in
  let rpc := set_session_heap rpc (<[session := s]> (session_heap rpc)) in
  let rpc := set_session_vec rpc (session_vec rpc ++ [Some session]) in
  let rpc := mgmt_retry_queue_add rpc session in
  rpc ← send_connect_req_one rpc session;
  Ok (Some session, rpc)
  end.

(** ** [destroy_session] *)

(** [Rpc::destroy_session].  The [exit(-1)] after the [switch] is not
    reachable: the four cases are all the states. *)
Definition destroy_session (rpc : Rpc) (gettid : Z) (session : option nat)
  : result (bool * Rpc) :=
  if negb (in_creator rpc gettid) then Ok (false, rpc) else
  match session with
  | None => Ok (false, rpc)
  | Some session =>
      s ← deref (session_heap rpc) session;
      if negb (Session.is_client s) then Ok (false, rpc) else
      match Session.state s with
      | kConnectInProgress => Ok (false, rpc)
      | kConnected =>
          let s := Session.set_state s kDisconnectInProgress in
          let rpc :=
            set_session_heap rpc (<[session := s]> (session_heap rpc)) in
          let rpc := mgmt_retry_queue_add rpc session in
          rpc ← send_disconnect_req_one rpc session;
          Ok (true, rpc)
      | kDisconnectInProgress => Ok (false, rpc)
      | kDisconnected => Ok (false, rpc)
      end
  end.

(** ** [bury_session_st] *)

(** [Rpc::bury_session_st] ([bury_session] in rpc.h).  [session_vec.at]
    throws when the index is out of range; [delete session] takes the object
    out of the store. *)
Definition bury_session_st (rpc : Rpc) (session : nat) : result Rpc :=
  s ← deref (session_heap rpc) session;
  let huge_alloc :=
    foldl (fun h sslot => free_msg_buffer h (SSlot.pre_resp_msgbuf sslot))
          (huge_alloc rpc) (Session.sslot_arr s) in
  let rpc := set_huge_alloc rpc huge_alloc in
  let n := Z.to_nat (Session.local_session_num s) in
  if decide (n < length (session_vec rpc))%nat then
    let rpc := set_session_vec rpc (<[n := None]> (session_vec rpc)) in
    Ok (set_session_heap rpc (delete session (session_heap rpc)))
  else Err OutOfRange.

(** ** Datapath helpers *)

(** [Rpc::upsert_datapath_tx_work_queue] *)
Definition upsert_datapath_tx_work_queue (rpc : Rpc) (session : nat)
  : result Rpc :=
  s ← deref (session_heap rpc) session;
  if negb (Session.in_datapath_tx_work_queue s) then
    let s := Session.set_in_datapath_tx_work_queue s true in
    let rpc := set_session_heap rpc (<[session := s]> (session_heap rpc)) in
    Ok (set_datapath_tx_work_queue rpc
          (datapath_tx_work_queue rpc ++ [session]))
  else Ok rpc.

(** [Rpc::bury_sslot_rx_msgbuf], on the slot it is given. *)
Definition bury_sslot_rx_msgbuf (huge_alloc : H) (sslot : SSlot.t)
  : SSlot.t * H :=
  let rx_msgbuf := SSlot.rx_msgbuf sslot in
  let '(rx_msgbuf, huge_alloc) :=
    if is_dynamic rx_msgbuf
    then (set_buffer_buf rx_msgbuf None, free_msg_buffer huge_alloc rx_msgbuf)
    else (rx_msgbuf, huge_alloc) in
  (SSlot.set_rx_msgbuf sslot (set_buf rx_msgbuf None), huge_alloc).

(** [Rpc::release_respone].  A [RespHandle*] is an [SSlot*]: the address of
    a session and an index into its slot array.  Its assertions: the slot's
    [tx_msgbuf] is null, and the slot's session is a client session. *)
Definition release_respone (rpc : Rpc) (resp_handle : nat * nat)
  : result Rpc :=
  let '(owner, i) := resp_handle in
  o ← deref (session_heap rpc) owner;
  match Session.sslot_arr o !! i with
  | None => Err BadPointer
  | Some sslot =>
      let '(sslot, huge_alloc) := bury_sslot_rx_msgbuf (huge_alloc rpc) sslot in
      let o := Session.set_sslot_arr o (<[i := sslot]> (Session.sslot_arr o)) in
      let rpc := set_huge_alloc rpc huge_alloc in
      let rpc := set_session_heap rpc (<[owner := o]> (session_heap rpc)) in
      let session := SSlot.session sslot in
      s ← deref (session_heap rpc) session;
      let s :=
        Session.set_sslot_free_vec s
          (Session.sslot_free_vec s ++ [SSlot.index sslot]) in
      Ok (set_session_heap rpc (<[session := s]> (session_heap rpc)))
  end.

(** ** The event loop *)

(** The four stages of an event-loop iteration.  Their code is not part of
    the excerpt (rpc.cc, rpc_sm_retry.cc, rpc_rx.cc, rpc_tx.cc): each is an
    arbitrary transformer of the engine state, and a call of one is recorded
    in the order it is made. *)
Inductive EvLoopCall :=
| HandleSessionManagement
| MgmtRetry
| ProcessCompletions
| ProcessDatapathTxWorkQueue.

#[global] Instance EvLoopCall_eq_dec : EqDecision EvLoopCall.
Proof. solve_decision. Defined.

Section EventLoop.
Context (handle_session_management mgmt_retry process_completions
         process_datapath_tx_work_queue : Rpc -> Rpc).
(** [dpath_stat_inc] is a macro of an absent header. *)
Context (dpath_stat_inc : Z -> Z).

Definition stage (c : EvLoopCall) : Rpc -> Rpc :=
  match c with
  | HandleSessionManagement => handle_session_management
  | MgmtRetry => mgmt_retry
  | ProcessCompletions => process_completions
  | ProcessDatapathTxWorkQueue => process_datapath_tx_work_queue
  end.

Definition call (c : EvLoopCall) (st : Rpc * list EvLoopCall)
  : Rpc * list EvLoopCall :=
  (stage c st.1, st.2 ++ [c]).

(** [Rpc::run_event_loop_one]: the state it leaves and the calls it made. *)
Definition run_event_loop_one (rpc : Rpc) : Rpc * list EvLoopCall :=
  let rpc := set_ev_loop_calls rpc (dpath_stat_inc (ev_loop_calls rpc)) in
  let st := (rpc, []) in
  let st :=
    if bool_decide (0 < length (sm_rx_list st.1))%nat
    then call HandleSessionManagement st else st in
  let st :=
    if bool_decide (0 < length (mgmt_retry_queue st.1))%nat
    then call MgmtRetry st else st in
  let st := call ProcessCompletions st in
  call ProcessDatapathTxWorkQueue st.
End EventLoop.

(** ** Reachable engine states *)

(** One call of an operation of the engine whose code is modelled here.
    [bury_session_st] and [upsert_datapath_tx_work_queue] are private and are
    called by the handlers and the enqueue paths; a step allows them on any
    session. *)
Inductive engine_step (rpc rpc' : Rpc) : Prop :=
| step_create_session gettid rem_hostname rem_app_tid rem_phy_port ret :
    create_session rpc gettid rem_hostname rem_app_tid rem_phy_port
      = Ok (ret, rpc') ->
    engine_step rpc rpc'
| step_destroy_session gettid session ret :
    destroy_session rpc gettid session = Ok (ret, rpc') ->
    engine_step rpc rpc'
| step_bury_session_st session :
    bury_session_st rpc session = Ok rpc' ->
    engine_step rpc rpc'
| step_upsert_datapath_tx_work_queue session :
    upsert_datapath_tx_work_queue rpc session = Ok rpc' ->
    engine_step rpc rpc'
| step_release_respone resp_handle :
    release_respone rpc resp_handle = Ok rpc' ->
    engine_step rpc rpc'
| step_enqueue_sm_resp req_wi err_type :
    enqueue_sm_resp rpc req_wi err_type = Ok rpc' ->
    engine_step rpc rpc'
| step_alloc_msg_buffer max_data_size m h :
    alloc_msg_buffer (huge_alloc rpc) max_data_size = Ok (m, h) ->
    rpc' = set_huge_alloc rpc h ->
    engine_step rpc rpc'
| step_free_msg_buffer m :
    rpc' = set_huge_alloc rpc (free_msg_buffer (huge_alloc rpc) m) ->
    engine_step rpc rpc'.

(** The states the engine reaches from its construction. *)
Definition reachable (rpc : Rpc) : Prop :=
  exists hostname app_tid phy_port creator_os_tid transport huge_alloc
         slow_rand,
    rtc engine_step
        (Rpc_new hostname app_tid phy_port creator_os_tid transport huge_alloc
                 slow_rand)
        rpc.

(** The TX work queue holds no session twice, and holds a session exactly
    when the session's flag is set. *)
Definition tx_queue_inv (rpc : Rpc) : Prop :=
  NoDup (datapath_tx_work_queue rpc) /\
  forall p s,
    session_heap rpc !! p = Some s ->
    (p ∈ datapath_tx_work_queue rpc
     <-> Session.in_datapath_tx_work_queue s = true).

(** Every address in use was handed out by [new]. *)
Definition store_inv (rpc : Rpc) : Prop :=
  (forall p, is_Some (session_heap rpc !! p) -> (p < session_brk rpc)%nat) /\
  (forall p, p ∈ datapath_tx_work_queue rpc -> (p < session_brk rpc)%nat).

(** Every session of [session_vec] is an object of the store. *)
Definition session_vec_live (rpc : Rpc) : Prop :=
  forall i p, session_vec rpc !! i = Some (Some p) ->
              is_Some (session_heap rpc !! p).

(** ** The addresses [new] returns

    [create_session] takes the address of its [new Session] from
    [session_brk], and in [engine_step] that address is never one handed
    out before.  The C++ allocator promises less: after the [delete] of
    [bury_session_st], a later [new] may return the address of the deleted
    session.  In [engine_step_at] the allocator chooses, before each
    operation, the address [addr] that a [new Session] of the operation
    returns, among the addresses [new_ok] allows in the state. *)


(** The same, less the addresses that the TX work queue still holds. *)
Definition new_unqueued (rpc : Rpc) (addr : nat) : Prop :=
  session_heap rpc !! addr = None /\ addr ∉ datapath_tx_work_queue rpc.

(** Modelled from the spec: what [process_datapath_tx_work_queue]
    (rpc_tx.cc, absent) does to the queue: "A session is removed from the
    queue when every slot has [tx_msgbuf == nullptr]"; the flag follows the
    queue, "a session is in the TX work queue iff [in_tx_queue] is true". *)
Definition tx_work_queue_remove (rpc : Rpc) (session : nat) : result Rpc :=
  s ← deref (session_heap rpc) session;
  if forallb (fun sslot => bool_decide (SSlot.tx_msgbuf sslot = None))
             (Session.sslot_arr s)
  then
    let s := Session.set_in_datapath_tx_work_queue s false in
    let rpc := set_session_heap rpc (<[session := s]> (session_heap rpc)) in
    Ok (set_datapath_tx_work_queue rpc
          (filter (fun q => q <> session) (datapath_tx_work_queue rpc)))
  else Ok rpc.

(** One operation of the engine, at the address the allocator chose, or the
    removal of a queued session by the TX engine. *)
Inductive engine_step_at (new_ok : Rpc -> nat -> Prop) (rpc rpc' : Rpc)
  : Prop :=
| step_at_engine addr :
    new_ok rpc addr ->
    engine_step (set_session_brk rpc addr) rpc' ->
    engine_step_at new_ok rpc rpc'
| step_at_tx_work_queue_remove session :
    session ∈ datapath_tx_work_queue rpc ->
    tx_work_queue_remove rpc session = Ok rpc' ->
    engine_step_at new_ok rpc rpc'.

(** The states the engine reaches from its construction when [new] returns
    the addresses [new_ok] allows. *)
Definition reachable_at (new_ok : Rpc -> nat -> Prop) (rpc : Rpc) : Prop :=
  exists hostname app_tid phy_port creator_os_tid transport huge_alloc
         slow_rand,
    rtc (engine_step_at new_ok)
        (Rpc_new hostname app_tid phy_port creator_os_tid transport huge_alloc
                 slow_rand)
        rpc.

(** The conditions [create_session] rejects before it allocates. *)
Definition duplicate_session (rpc : Rpc) (rem_hostname : string)
    (rem_app_tid : Z) : Prop :=
  exists i p s,
    session_vec rpc !! i = Some (Some p) /\
    session_heap rpc !! p = Some s /\
    SessionEndpoint.hostname (Session.server s) = rem_hostname /\
    SessionEndpoint.app_tid (Session.server s) = rem_app_tid.

Definition create_session_rejects (rpc : Rpc) (gettid : Z)
    (rem_hostname : option string) (rem_app_tid rem_phy_port : Z) : Prop :=
  gettid <> creator_os_tid rpc \/
  rem_phy_port >= kMaxPhyPorts \/
  rem_hostname = None \/
  (exists h, rem_hostname = Some h /\
             (Z.of_nat (String.length h) > kMaxHostnameLen \/
              (h = nexus_hostname rpc /\ rem_app_tid = app_tid rpc) \/
              duplicate_session rpc h rem_app_tid)) \/
  Z.of_nat (length (session_vec rpc)) >= kMaxSessionsPerThread.

(** [n] allocations of single-packet buffers in a row, all of which succeed:
    the buffers and the allocator they leave. *)
Inductive prealloc_run : H -> list MsgBuffer -> H -> Prop :=
| prealloc_run_nil h : prealloc_run h [] h
| prealloc_run_cons h m h1 ms h2 :
    alloc_msg_buffer h kMaxDataPerPkt = Ok (m, h1) ->
    buf m <> None ->
    prealloc_run h1 ms h2 ->
    prealloc_run h (m :: ms) h2.

(** The state a successful [destroy_session] leaves: the session is in
    [kDisconnectInProgress], it is at the back of the retry queue, and a
    disconnect request for it is at the back of the outgoing mailbox. *)
Definition disconnecting (rpc : Rpc) (p : nat) (s : Session.t) : Rpc :=
  let s' := Session.set_state s kDisconnectInProgress in
  let wi :=
    SmWorkItem.mk (app_tid rpc)
      (SessionMgmtPkt.mk kDisconnectReq 0 (Session.client s) (Session.server s))
      None in
  set_sm_tx_list
    (set_mgmt_retry_queue
       (set_session_heap rpc (<[p := s']> (session_heap rpc)))
       (mgmt_retry_queue rpc ++ [p]))
    (sm_tx_list rpc ++ [wi]).

(** The session a successful [create_session] makes, with session number
    [num] and the slots [sslot_arr], and the state of the engine after it:
    the session is at the back of [session_vec] and of the retry queue, and
    a connect request for it is at the back of the outgoing mailbox. *)
Definition new_client_session (rpc : Rpc) (rem_hostname : string)
    (rem_app_tid rem_phy_port : Z) (num : Z) (sslot_arr : list SSlot.t)
  : Session.t :=
  let secret := Z.land (next_u64 (slow_rand rpc)).1 (2 ^ 48 - 1) in
  Session.mk kClient kConnectInProgress
    (SessionEndpoint.mk (transport_type (transport rpc)) (nexus_hostname rpc)
       (phy_port rpc) (app_tid rpc) num secret
       (fill_local_routing_info (transport rpc)))
    (SessionEndpoint.mk (transport_type (transport rpc)) rem_hostname
       rem_phy_port rem_app_tid 0 secret [])
    num sslot_arr (Z.of_nat <$> seq 0 kSessionReqWindow) false.

Definition session_created (rpc : Rpc) (s : Session.t) (huge_alloc : H)
  : Rpc :=
  let p := session_brk rpc in
  let wi :=
    SmWorkItem.mk (app_tid rpc)
      (SessionMgmtPkt.mk kConnectReq 0 (Session.client s) (Session.server s))
      None in
  mkRpc (nexus_hostname rpc) (app_tid rpc) (phy_port rpc) (creator_os_tid rpc)
        (transport rpc) huge_alloc (next_u64 (slow_rand rpc)).2
        (<[p := s]> (session_heap rpc)) (S p)
        (session_vec rpc ++ [Some p]) (mgmt_retry_queue rpc ++ [p])
        (datapath_tx_work_queue rpc) (sm_rx_list rpc) (sm_tx_list rpc ++ [wi])
        (ev_loop_calls rpc).

(** The state of the engine after a [create_session] that ran out of
    memory: the session object stays in the store, linked nowhere. *)
Definition session_abandoned (rpc : Rpc) (sslot_arr : list SSlot.t)
    (huge_alloc : H) : Rpc :=
  let p := session_brk rpc in
  let s :=
    Session.set_sslot_arr (Session_new p kClient kConnectInProgress)
                          sslot_arr in
  mkRpc (nexus_hostname rpc) (app_tid rpc) (phy_port rpc) (creator_os_tid rpc)
        (transport rpc) huge_alloc (slow_rand rpc)
        (<[p := s]> (session_heap rpc)) (S p)
        (session_vec rpc) (mgmt_retry_queue rpc)
        (datapath_tx_work_queue rpc) (sm_rx_list rpc) (sm_tx_list rpc)
        (ev_loop_calls rpc).

End Engine.

Arguments Rpc : clear implicits.
Arguments mkRpc {T H R}.

(** * A concrete configuration

    An instance of the parameters, on which the engine can be run: the
    constants of a small deployment, and stand-ins for the allocator, the
    transport and the random source. *)
Module Demo.

Definition consts : Constants := {|
  kMaxDataPerPkt := 1024;
  kMaxClassSize := 8388608;
  kSessionReqWindow := 8;
  kMaxSessionsPerThread := 4096;
  kMaxPhyPorts := 4;
  kMaxHostnameLen := 128;
  kPktHdrMagic := 11;
|}.

(** A bump allocator over [avail] bytes, which records the buffers given
    back to it. *)
Record Arena := mkArena {
  brk : Z;
  avail : Z;
  freed : list Buffer;
}.

Definition arena_alloc : HugeAlloc Arena := {|
  alloc h size :=
    if size <=? avail h
    then Ok (mkBuffer (Some (brk h)),
             mkArena (brk h + size) (avail h - size) (freed h))
    else Ok (mkBuffer None, h);
  free_buf h b := mkArena (brk h) (avail h) (freed h ++ [b]);
|}.

Definition unit_transport : Transport unit := {|
  transport_type _ := 0;
  fill_local_routing_info _ := [7; 7];
|}.

Definition counter_rand : SlowRand Z := {|
  next_u64 r := (wrap64 (r * 6364136223846793005 + 1442695040888963407), r + 1);
|}.

Definition rpc0 (avail : Z) : Rpc unit Arena Z :=
  Rpc_new "host-a" 1 0 100 tt (mkArena 4096 avail []) 5.

Definition create (rpc : Rpc unit Arena Z) (gettid : Z)
    (rem_hostname : option string) (rem_app_tid rem_phy_port : Z) :=
  @create_session consts unit Arena Z unit_transport arena_alloc counter_rand
                  rpc gettid rem_hostname rem_app_tid rem_phy_port.

(** A session put into a state, as a session-management handler would. *)
Definition with_state (rpc : Rpc unit Arena Z) (p : nat) (st : SessionState)
  : Rpc unit Arena Z :=
  set_session_heap rpc
    (alter (fun s => Session.set_state s st) p (session_heap rpc)).

(** The engine after a first session to ["host-b"] was created. *)
Definition rpc1 : Rpc unit Arena Z :=
  match create (rpc0 100000) 100 (Some "host-b") 7 0 with
  | Ok (_, rpc) => rpc
  | Err _ => rpc0 100000
  end.

(** The engine after a [create_session] that ran out of memory at the
    third response buffer. *)
Definition rpc_oom : Rpc unit Arena Z :=
  match create (rpc0 3000) 100 (Some "host-b") 7 0 with
  | Ok (_, rpc) => rpc
  | Err _ => rpc0 3000
  end.

(** The same engine once the connect handshake has completed: the session
    is connected and has left the retry queue. *)
Definition rpc_connected : Rpc unit Arena Z :=
  set_mgmt_retry_queue (with_state rpc1 0 kConnected) [].

Definition session0 : Session.t :=
  default (@Session_new consts 0 kClient kConnectInProgress)
          (session_heap rpc1 !! 0%nat).

(** A two-packet response reassembled in a dynamic buffer, and the engine
    that holds it in slot 3 of the session. *)
Definition large_resp : MsgBuffer :=
  @MsgBuffer_new consts (mkBuffer (Some 200000)) 2048 2.

Definition with_rx_msgbuf (rpc : Rpc unit Arena Z) (p i : nat) (m : MsgBuffer)
  : Rpc unit Arena Z :=
  set_session_heap rpc
    (alter (fun s =>
              Session.set_sslot_arr s
                (alter (fun sslot => SSlot.set_rx_msgbuf sslot m) i
                       (Session.sslot_arr s)))
           p (session_heap rpc)).

Definition rpc_resp : Rpc unit Arena Z :=
  with_rx_msgbuf rpc_connected 0 3 large_resp.

Definition session_resp : Session.t :=
  default session0 (session_heap rpc_resp !! 0%nat).

Definition sslot_resp : SSlot.t :=
  default (SSlot.mk 0 0 None MsgBuffer_invalid MsgBuffer_invalid)
          (Session.sslot_arr session_resp !! 3%nat).








(** The preallocated response buffer of slot 3 of the session, and the
    engine whose slot 3 holds, as the response received, a [MsgBuffer] that
    is a copy of it. *)
Definition prealloc3 : MsgBuffer :=
  default MsgBuffer_invalid
    (SSlot.pre_resp_msgbuf <$> Session.sslot_arr session0 !! 3%nat).

Definition rpc_alias : Rpc unit Arena Z :=
  with_rx_msgbuf rpc_connected 0 3 prealloc3.

Definition session_alias : Session.t :=
  default session0 (session_heap rpc_alias !! 0%nat).

Definition sslot_alias : SSlot.t :=
  default (SSlot.mk 0 0 None MsgBuffer_invalid MsgBuffer_invalid)
          (Session.sslot_arr session_alias !! 3%nat).

Definition rpc_alias_released : Rpc unit Arena Z :=
  match @release_respone unit Arena Z arena_alloc rpc_alias
                         (0%nat, 3%nat) with
  | Ok rpc => rpc
  | Err _ => rpc_alias
  end.

Definition connect_req : SmWorkItem.t :=
  SmWorkItem.mk 7
    (SessionMgmtPkt.mk kConnectReq 0 (Session.client session0)
                       (Session.server session0))
    (Some 4242).

End Demo.

(** * More of the engine *)

(** ** Datapath error codes *)

(** [Rpc::rpc_datapath_err_code_str].  The argument is the integer of an
    [RpcDatapathErrCode], [kInvalidSessionArg = 1] to
    [kNoSessionMsgSlots = 6]; for any other integer the [switch] falls
    through to [exit(-1)] and nothing is returned. *)
Definition rpc_datapath_err_code_str (datapath_err_code : Z) : option string :=
  match datapath_err_code with
  | 1 => Some "[Invalid session argument]"
  | 2 => Some "[Invalid MsgBuffer argument]"
  | 3 => Some "[Invalid message size argument]"
  | 4 => Some "[Invalid request type argument]"
  | 5 => Some "[Invalid request function argument]"
  | 6 => Some "[No session message slots]"
  | _ => None
  end%string.

Section EngineMore.
Context {consts : Constants}.
Context {T H R : Type}.
Context {transport_ops : Transport T} {huge_allocator : HugeAlloc H}
        {slow_rand_ops : SlowRand R}.

(** ** Counting sessions *)

(** [Rpc::num_active_sessions]; its assertion: the caller is the creator
    thread. *)
Definition num_active_sessions (rpc : Rpc T H R) : Z :=
  foldl (fun ret session =>
           match session with
           | Some _ => wrap64 (ret + 1)
           | None => ret
           end)
        0 (session_vec rpc).

(** ** Burying the TX buffer of a slot *)

Definition SSlot_set_tx_msgbuf (s : SSlot.t) (p : option Z) : SSlot.t :=
  SSlot.mk (SSlot.session s) (SSlot.index s) p (SSlot.rx_msgbuf s)
           (SSlot.pre_resp_msgbuf s).

(** [Rpc::bury_sslot_tx_msgbuf], on the slot it is given.  [msgbufs] is the
    memory that holds the [MsgBuffer] objects [tx_msgbuf] can point to. *)
Definition bury_sslot_tx_msgbuf (msgbufs : gmap Z MsgBuffer) (huge_alloc : H)
    (sslot : SSlot.t) : result (SSlot.t * H) :=
  huge_alloc ←
    match SSlot.tx_msgbuf sslot with
    | None => Ok huge_alloc
    | Some p =>
        match msgbufs !! p with
        | None => Err BadPointer
        | Some tx_msgbuf =>
            if is_dynamic tx_msgbuf
            then Ok (free_msg_buffer huge_alloc tx_msgbuf)
            else Ok huge_alloc
        end
    end;
  Ok (SSlot_set_tx_msgbuf sslot None, huge_alloc).

(** [Rpc::bury_sslot_tx_msgbuf_nofree] *)
Definition bury_sslot_tx_msgbuf_nofree (sslot : SSlot.t) : SSlot.t :=
  SSlot_set_tx_msgbuf sslot None.

(** ** Handling the session-management mailbox *)

Definition set_sm_rx_list (rpc : Rpc T H R) (l : list SmWorkItem.t)
  : Rpc T H R :=
  mkRpc (nexus_hostname rpc) (app_tid rpc) (phy_port rpc) (creator_os_tid rpc)
        (transport rpc) (huge_alloc rpc) (slow_rand rpc) (session_heap rpc)
        (session_brk rpc) (session_vec rpc) (mgmt_retry_queue rpc)
        (datapath_tx_work_queue rpc) l (sm_tx_list rpc) (ev_loop_calls rpc).

(** A call of one of the four packet handlers, with its argument. *)
Inductive SmHandlerCall :=
| CallConnectReq (wi : SmWorkItem.t)
| CallConnectResp (sm_pkt : SessionMgmtPkt.t)
| CallDisconnectReq (wi : SmWorkItem.t)
| CallDisconnectResp (sm_pkt : SessionMgmtPkt.t).

Section SmHandlers.
(** The handlers are in files that are not part of the excerpt: each is an
    arbitrary transformer of the engine state. *)
Context (handle_connect_req_st handle_disconnect_req_st
         : Rpc T H R -> SmWorkItem.t -> Rpc T H R).
Context (handle_connect_resp_st handle_disconnect_resp_st
         : Rpc T H R -> SessionMgmtPkt.t -> Rpc T H R).

(** The state the loop of [handle_session_mgmt_st] works on: the engine,
    [faults.drop_tx_local], and the handler calls made so far. *)
Definition SmLoop : Type := Rpc T H R * bool * list SmHandlerCall.

(** The body of the loop, for one work item.  The packet types are the
    five of the [switch]; its [default] throws on any other. *)
Definition handle_session_mgmt_one (st : SmLoop) (wi : SmWorkItem.t)
  : SmLoop :=
  let '(rpc, drop_tx_local, calls) := st in
  let sm_pkt := SmWorkItem.sm_pkt wi in
  match SessionMgmtPkt.pkt_type sm_pkt with
  | kConnectReq =>
      (handle_connect_req_st rpc wi, drop_tx_local,
       calls ++ [CallConnectReq wi])
  | kConnectResp =>
      (handle_connect_resp_st rpc sm_pkt, drop_tx_local,
       calls ++ [CallConnectResp sm_pkt])
  | kDisconnectReq =>
      (handle_disconnect_req_st rpc wi, drop_tx_local,
       calls ++ [CallDisconnectReq wi])
  | kDisconnectResp =>
      (handle_disconnect_resp_st rpc sm_pkt, drop_tx_local,
       calls ++ [CallDisconnectResp sm_pkt])
  | kFaultDropTxRemote => (rpc, true, calls)
  end.

(** What a handler call does to the engine: the handler named, applied to
    the argument recorded. *)
Definition sm_handler_run (rpc : Rpc T H R) (c : SmHandlerCall)
  : Rpc T H R :=
  match c with
  | CallConnectReq wi => handle_connect_req_st rpc wi
  | CallConnectResp sm_pkt => handle_connect_resp_st rpc sm_pkt
  | CallDisconnectReq wi => handle_disconnect_req_st rpc wi
  | CallDisconnectResp sm_pkt => handle_disconnect_resp_st rpc sm_pkt
  end.

(** [Rpc::handle_session_mgmt_st]: the loop runs over the work items the
    mailbox holds on entry, then the mailbox is cleared.  Its assertion: the
    mailbox is not empty. *)
Definition handle_session_mgmt_st (rpc : Rpc T H R) (drop_tx_local : bool)
  : SmLoop :=
  let '(rpc, drop_tx_local, calls) :=
    foldl handle_session_mgmt_one (rpc, drop_tx_local, []) (sm_rx_list rpc) in
  (set_sm_rx_list rpc [], drop_tx_local, calls).
End SmHandlers.

(** ** The event loop, for a time *)

Section EventLoopTimeout.
Context (handle_session_management mgmt_retry process_completions
         process_datapath_tx_work_queue : Rpc T H R -> Rpc T H R).
Context (dpath_stat_inc : Z -> Z).
(** [to_sec(cycles, nexus->freq_ghz) * 1000 > timeout_ms], on the cycles
    elapsed: [to_sec] and the frequency are of absent headers, and the
    comparison is one of [double]s. *)
Context (elapsed_ms_gt : Z -> Z -> bool).

(** One iteration of the loop of [run_event_loop_timeout]: a call of
    [run_event_loop_one], whose stage calls are added to the record. *)
Definition run_event_loop_iter (st : Rpc T H R * list EvLoopCall)
  : Rpc T H R * list EvLoopCall :=
  let out :=
    run_event_loop_one handle_session_management mgmt_retry
      process_completions process_datapath_tx_work_queue dpath_stat_inc
      st.1 in
  (out.1, st.2 ++ out.2).

(** The [while (true)] of [run_event_loop_timeout]; [rdtsc] holds the
    values the cycle counter is going to return, a 64-bit counter whose
    differences wrap.  With no reading left the run is not determined. *)
Fixpoint run_event_loop_timeout_loop (start_tsc timeout_ms : Z)
    (rdtsc : list Z) (st : Rpc T H R * list EvLoopCall)
  : option (Rpc T H R * list EvLoopCall) :=
  match rdtsc with
  | [] => None
  | now :: rdtsc =>
      let st := run_event_loop_iter st in
      if elapsed_ms_gt (wrap64 (now - start_tsc)) timeout_ms then Some st
      else run_event_loop_timeout_loop start_tsc timeout_ms rdtsc st
  end.

(** [Rpc::run_event_loop_timeout]: the state it leaves and the stage calls
    it made. *)
Definition run_event_loop_timeout (rpc : Rpc T H R) (timeout_ms : Z)
    (rdtsc : list Z) : option (Rpc T H R * list EvLoopCall) :=
  match rdtsc with
  | [] => None
  | start_tsc :: rdtsc =>
      run_event_loop_timeout_loop start_tsc timeout_ms rdtsc (rpc, [])
  end.
End EventLoopTimeout.

(** ** Vocabulary of the properties *)

(** The sessions listed in [session_vec] are objects of the store, each at
    the index that is its [local_session_num]. *)
Definition session_vec_wf (rpc : Rpc T H R) : Prop :=
  forall i p,
    session_vec rpc !! i = Some (Some p) ->
    exists s, session_heap rpc !! p = Some s /\
              Z.to_nat (Session.local_session_num s) = i /\
              0 <= Session.local_session_num s.

(** The handler call [handle_session_mgmt_st] owes a work item: none for a
    fault-injection packet. *)
Definition sm_handler_call (wi : SmWorkItem.t) : option SmHandlerCall :=
  let sm_pkt := SmWorkItem.sm_pkt wi in
  match SessionMgmtPkt.pkt_type sm_pkt with
  | kConnectReq => Some (CallConnectReq wi)
  | kConnectResp => Some (CallConnectResp sm_pkt)
  | kDisconnectReq => Some (CallDisconnectReq wi)
  | kDisconnectResp => Some (CallDisconnectResp sm_pkt)
  | kFaultDropTxRemote => None
  end.

(** Whether a work item carries a fault-injection packet. *)
Definition is_sm_fault (wi : SmWorkItem.t) : bool :=
  bool_decide
    (SessionMgmtPkt.pkt_type (SmWorkItem.sm_pkt wi) = kFaultDropTxRemote).

End EngineMore.

(** * More states of the concrete engine *)

Module DemoMore.

(** The engine of [Demo.rpc_connected] once [destroy_session] was called on
    its session. *)
Definition rpc_disconnecting : Rpc unit Demo.Arena Z :=
  match @destroy_session unit Demo.Arena Z Demo.rpc_connected 100
                         (Some 0%nat) with
  | Ok (_, rpc) => rpc
  | Err _ => Demo.rpc_connected
  end.

(** The engine of [Demo.rpc_resp] once the response in slot 3 was released,
    and once it was released a second time. *)
Definition rpc_released : Rpc unit Demo.Arena Z :=
  match @release_respone unit Demo.Arena Z Demo.arena_alloc Demo.rpc_resp
                         (0%nat, 3%nat) with
  | Ok rpc => rpc
  | Err _ => Demo.rpc_resp
  end.

Definition rpc_released_twice : Rpc unit Demo.Arena Z :=
  match @release_respone unit Demo.Arena Z Demo.arena_alloc rpc_released
                         (0%nat, 3%nat) with
  | Ok rpc => rpc
  | Err _ => rpc_released
  end.

(** A clock of one cycle per nanosecond: whether the cycles elapsed are
    more than the timeout, in milliseconds. *)
Definition elapsed_ms_gt (cycles timeout_ms : Z) : bool :=
  timeout_ms * 1000000 <? cycles.

End DemoMore.

(** * Properties *)

(** ** Packet counts and buffer allocation *)

Lemma wrap64_small (z : Z) : 0 <= z < 2 ^ 64 -> wrap64 z = z.
Proof. intros Hz. unfold wrap64. by apply Z.mod_small. Qed.

Lemma ceil_div_above (n d : Z) : 0 < d -> n <= ceil_div n d * d.
Proof.
  intros Hd. unfold ceil_div.
  pose proof (Z.div_mod n d ltac:(lia)) as Hdm.
  pose proof (Z.mod_pos_bound n d Hd) as Hr.
  case_decide; nia.
Qed.

Lemma ceil_div_below (n d : Z) : 0 < d -> (ceil_div n d - 1) * d < n.
Proof.
  intros Hd. unfold ceil_div.
  pose proof (Z.div_mod n d ltac:(lia)) as Hdm.
  pose proof (Z.mod_pos_bound n d Hd) as Hr.
  case_decide; nia.
Qed.

(** The rounding division of the code is the ceiling. *)
Lemma round_up_div (n d : Z) : 0 < d -> (n + (d - 1)) / d = ceil_div n d.
Proof.
  intros Hd. unfold ceil_div.
  pose proof (Z.div_mod n d ltac:(lia)) as Hdm.
  pose proof (Z.mod_pos_bound n d Hd) as Hr.
  symmetry. case_decide as Hm.
  - apply (Z.div_unique _ _ _ (d - 1)); lia.
  - apply (Z.div_unique _ _ _ (n mod d - 1)); lia.
Qed.

Section SizeFacts.
Context {consts : Constants} {consts_ok : ConstantsOK}.

Lemma kMaxMsgSize_bound : 0 <= kMaxMsgSize <= 2 ^ 24.
Proof.
  split.
  - unfold kMaxMsgSize, wrap64. apply Z.mod_pos_bound. lia.
  - pose proof static_assert_msg_size as Hs. unfold kMsgSizeBits in Hs. lia.
Qed.

Lemma num_pkts_for_packets_for (n : Z) :
  0 <= n <= kMaxMsgSize -> num_pkts_for n = packets_for n.
Proof.
  intros Hn. pose proof kMaxMsgSize_bound as Hb.
  pose proof kMaxDataPerPkt_range as Hd.
  unfold num_pkts_for, packets_for.
  destruct (Z.leb_spec n kMaxDataPerPkt) as [Hle|Hgt].
  - by rewrite decide_True.
  - rewrite decide_False by lia.
    rewrite wrap64_small by lia.
    apply round_up_div. lia.
Qed.

Lemma packets_for_bound (n : Z) :
  0 <= n <= kMaxMsgSize -> 1 <= packets_for n <= 2 ^ 24.
Proof.
  intros Hn. pose proof kMaxMsgSize_bound as Hb.
  pose proof kMaxDataPerPkt_range as Hd.
  unfold packets_for. case_decide as Hle; [lia|].
  assert (0 < kMaxDataPerPkt) as Hpos by lia.
  pose proof (ceil_div_below n kMaxDataPerPkt Hpos).
  pose proof (ceil_div_above n kMaxDataPerPkt Hpos).
  nia.
Qed.

Lemma alloc_request_size (n : Z) :
  0 <= n <= kMaxMsgSize ->
  wrap64 (n + wrap64 (num_pkts_for n * sizeof_pkthdr_t))
  = n + packets_for n * sizeof_pkthdr_t.
Proof.
  intros Hn. pose proof kMaxMsgSize_bound as Hb.
  pose proof (packets_for_bound n Hn) as Hp.
  rewrite num_pkts_for_packets_for by done.
  unfold sizeof_pkthdr_t.
  rewrite (wrap64_small (packets_for n * 16)) by lia.
  apply wrap64_small. lia.
Qed.
End SizeFacts.

Section MsgBufferFacts.
Context {consts : Constants} {consts_ok : ConstantsOK}.
Context {H : Type} {huge_allocator : HugeAlloc H}.

(** C4. For a size up to [kMaxMsgSize], [alloc_msg_buffer] computes the
    packet count [p] of the spec (one packet up to and including
    [kMaxDataPerPkt] bytes, the ceiling of the quotient above), asks the
    allocator for exactly [max_size + p * sizeof(pkthdr_t)] bytes,
    returns the invalid handle when the allocator ran out of memory, and
    otherwise a dynamic buffer of size [max_size] with [p] packets and
    the magic set. *)
Theorem alloc_msg_buffer_spec (huge_alloc : H) (max_size : Z) :
  0 <= max_size <= kMaxMsgSize ->
  let p := packets_for max_size in
  let request := max_size + p * sizeof_pkthdr_t in
  num_pkts_for max_size = p /\
  (max_size <= kMaxDataPerPkt -> p = 1) /\
  (kMaxDataPerPkt < max_size ->
   (p - 1) * kMaxDataPerPkt < max_size <= p * kMaxDataPerPkt) /\
  (forall e, alloc huge_alloc request = Err e ->
             alloc_msg_buffer huge_alloc max_size = Err e) /\
  (forall b h, alloc huge_alloc request = Ok (b, h) ->
     Buffer_buf b = None ->
     exists m, alloc_msg_buffer huge_alloc max_size = Ok (m, h) /\
               buf m = None) /\
  (forall b h, alloc huge_alloc request = Ok (b, h) ->
     Buffer_buf b <> None ->
     exists m, alloc_msg_buffer huge_alloc max_size = Ok (m, h) /\
               buf m <> None /\
               buffer m = b /\ is_dynamic m = true /\
               data_size m = max_size /\
               max_data_size m = max_size /\
               num_pkts m = p /\ max_num_pkts m = p /\
               check_magic m = true).
Proof.
  intros Hn p request.
  pose proof kMaxDataPerPkt_range as Hd.
  assert (0 < kMaxDataPerPkt) as Hpos by lia.
  pose proof (num_pkts_for_packets_for max_size Hn) as Hp.
  pose proof (alloc_request_size max_size Hn) as Hreq.
  fold p in Hp, Hreq. fold request in Hreq.
  split; [done|]. split.
  { intros Hle. unfold p, packets_for. by rewrite decide_True. }
  split.
  { intros Hgt. unfold p, packets_for. rewrite decide_False by lia.
    split; [by apply ceil_div_below | by apply ceil_div_above]. }
  unfold alloc_msg_buffer. fold (num_pkts_for max_size). rewrite Hreq, Hp.
  split; [|split].
  - intros e ->. done.
  - intros b h -> Hnull. simpl. rewrite Hnull. by eexists.
  - intros b h -> Hsome. simpl.
    destruct (Buffer_buf b) as [a|] eqn:Hb; [|done].
    eexists. split; [done|]. unfold MsgBuffer_new, is_dynamic, check_magic.
    simpl. rewrite Hb. simpl.
    rewrite !bool_decide_eq_true. done.
Qed.

(** C5. On a valid buffer and a size below the buffer's maximum,
    [resize_msg_buffer] is idempotent, writes only the size and the packet
    count (the spec's packet count of the new size), and leaves the maximum
    data size and every payload byte as they were. *)
Theorem resize_msg_buffer_idempotent (m : MsgBuffer) (new_data_size : Z) :
  buf m <> None -> check_magic m = true ->
  0 <= new_data_size < max_data_size m ->
  let m' := resize_msg_buffer m new_data_size in
  resize_msg_buffer m' new_data_size = m' /\
  m' = mkMsgBuffer (buffer m) (max_data_size m) (data_size m')
                   (max_num_pkts m) (num_pkts m') (buf m) (magic m) /\
  data_size m' = new_data_size /\
  num_pkts m' = num_pkts_for new_data_size /\
  (ConstantsOK -> new_data_size <= kMaxMsgSize ->
   num_pkts m' = packets_for new_data_size) /\
  max_data_size m' = max_data_size m /\
  (forall (mem : gmap Z Z) (i : Z),
     0 <= i < new_data_size -> payload_byte mem m' i = payload_byte mem m i).
Proof.
  intros _ _ Hsize m'. repeat split; try done.
  intros Hok Hmax. apply (num_pkts_for_packets_for (consts_ok := Hok)). lia.
Qed.
End MsgBufferFacts.

(** ** Session management *)

Section SessionFacts.
Context {consts : Constants}.
Context {T H R : Type}.
Context {transport_ops : Transport T} {huge_allocator : HugeAlloc H}
        {slow_rand_ops : SlowRand R}.
Implicit Types rpc : Rpc T H R.

Lemma deref_Some {A} (heap : gmap nat A) (p : nat) (x : A) :
  heap !! p = Some x -> deref heap p = Ok x.
Proof. intros Hx. unfold deref. by rewrite Hx. Qed.

Lemma deref_Ok {A} (heap : gmap nat A) (p : nat) (x : A) :
  deref heap p = Ok x -> heap !! p = Some x.
Proof. unfold deref. destruct (heap !! p); by intros [= ->]. Qed.

(** C1. [destroy_session] returns true exactly when the caller is the
    creator thread and the session is a non-null client session in state
    [kConnected]; it then moves the session to [kDisconnectInProgress], adds
    it to the management-retry queue and sends a disconnect request.  In
    every other case it returns false and changes nothing. *)
Theorem destroy_session_spec rpc (gettid : Z) (session : option nat) :
  (forall p, session = Some p -> is_Some (session_heap rpc !! p)) ->
  exists ret rpc',
    destroy_session rpc gettid session = Ok (ret, rpc') /\
    (ret = true <->
       gettid = creator_os_tid rpc /\
       exists p s, session = Some p /\ session_heap rpc !! p = Some s /\
                   Session.role s = kClient /\
                   Session.state s = kConnected) /\
    (ret = true ->
       exists p s, session = Some p /\ session_heap rpc !! p = Some s /\
                   rpc' = disconnecting rpc p s /\
                   Session.state <$> session_heap rpc' !! p
                     = Some kDisconnectInProgress /\
                   p ∈ mgmt_retry_queue rpc' /\
                   exists wi, sm_tx_list rpc' = sm_tx_list rpc ++ [wi] /\
                     SessionMgmtPkt.pkt_type (SmWorkItem.sm_pkt wi)
                       = kDisconnectReq) /\
    (ret = false -> rpc' = rpc).
Proof.
  intros Hlive. unfold destroy_session, in_creator.
  case_bool_decide as Hc; simpl.
  2:{ exists false, rpc. split; [done|]. split; [|done]. split; [done|].
      intros [? _]. done. }
  destruct session as [p|]; simpl.
  2:{ exists false, rpc. split; [done|]. split; [|done]. split; [done|].
      intros (_ & ? & ? & ? & _). done. }
  destruct (Hlive p eq_refl) as [s Hs].
  rewrite (deref_Some _ _ _ Hs). simpl.
  unfold Session.is_client. case_bool_decide as Hrole; simpl.
  2:{ exists false, rpc. split; [done|]. split; [|done]. split; [done|].
      intros (_ & ? & ? & [= <-] & ? & ? & _). congruence. }
  destruct (Session.state s) eqn:Hst.
  2:{ unfold send_disconnect_req_one, enqueue_sm_req, mgmt_retry_queue_add.
      simpl.
      rewrite (deref_Some _ _ (Session.set_state s kDisconnectInProgress))
        by apply lookup_insert_eq.
      simpl. eexists true, _. split; [done|]. split.
      { split; [|done]. intros _. split; [done|]. by exists p, s. }
      split; [|done]. intros _. exists p, s. split; [done|]. split; [done|].
      split; [done|]. simpl. rewrite lookup_insert_eq. split; [done|].
      split; [set_solver|]. by eexists. }
  all: exists false, rpc; (split; [done|]); (split; [|done]); (split; [done|]).
  all: intros (_ & ? & ? & [= <-] & ? & ? & ?); congruence.
Qed.
(** C8. The reply [enqueue_sm_resp] builds for a request packet is the
    request with its packet type replaced by the matching response type and
    its error type replaced by the given one; both endpoint descriptors,
    and with them the shared secret, are those of the request. *)
Theorem enqueue_sm_resp_echo rpc (req_wi : SmWorkItem.t) (err_type : Z) :
  SessionMgmtPkt.is_req (SmWorkItem.sm_pkt req_wi) = true ->
  let req := SmWorkItem.sm_pkt req_wi in
  exists resp_wi,
    let resp := SmWorkItem.sm_pkt resp_wi in
    enqueue_sm_resp rpc req_wi err_type
      = Ok (set_sm_tx_list rpc (sm_tx_list rpc ++ [resp_wi])) /\
    resp = SessionMgmtPkt.mk (SessionMgmtPkt.pkt_type resp) err_type
             (SessionMgmtPkt.client req) (SessionMgmtPkt.server req) /\
    (SessionMgmtPkt.pkt_type req = kConnectReq ->
     SessionMgmtPkt.pkt_type resp = kConnectResp) /\
    (SessionMgmtPkt.pkt_type req = kDisconnectReq ->
     SessionMgmtPkt.pkt_type resp = kDisconnectResp) /\
    SessionMgmtPkt.client resp = SessionMgmtPkt.client req /\
    SessionMgmtPkt.server resp = SessionMgmtPkt.server req /\
    SessionEndpoint.secret (SessionMgmtPkt.client resp)
      = SessionEndpoint.secret (SessionMgmtPkt.client req) /\
    SessionEndpoint.secret (SessionMgmtPkt.server resp)
      = SessionEndpoint.secret (SessionMgmtPkt.server req) /\
    SmWorkItem.epeer resp_wi = SmWorkItem.epeer req_wi.
Proof.
  intros Hreq req. unfold enqueue_sm_resp. fold req.
  unfold SessionMgmtPkt.is_req in Hreq. fold req in Hreq.
  destruct (SessionMgmtPkt.pkt_type req) eqn:Hty; try done; simpl.
  all: eexists; split; [done|]; simpl; by repeat split.
Qed.

Lemma length_pos_nonempty {A} (l : list A) :
  bool_decide (0 < length l)%nat = bool_decide (l <> []).
Proof. apply bool_decide_ext. destruct l; simpl; split; (done || lia). Qed.

(** C7. An iteration of the event loop calls, in this order and each at
    most once: the session-management handler when the mailbox is not empty,
    the retry sweep when the retry queue is not empty (after the handler
    ran), then [process_completions], then
    [process_datapath_tx_work_queue]; the last two are always called. *)
Theorem run_event_loop_one_order
    (handle_session_management mgmt_retry process_completions
     process_datapath_tx_work_queue : Rpc T H R -> Rpc T H R)
    (dpath_stat_inc : Z -> Z) rpc :
  let rpc0 := set_ev_loop_calls rpc (dpath_stat_inc (ev_loop_calls rpc)) in
  let sm := bool_decide (sm_rx_list rpc <> []) in
  let rpc1 := if sm then handle_session_management rpc0 else rpc0 in
  let retry := bool_decide (mgmt_retry_queue rpc1 <> []) in
  let rpc2 := if retry then mgmt_retry rpc1 else rpc1 in
  let out :=
    run_event_loop_one handle_session_management mgmt_retry
      process_completions process_datapath_tx_work_queue dpath_stat_inc rpc in
  out.1 = process_datapath_tx_work_queue (process_completions rpc2) /\
  out.2 = (if sm then [HandleSessionManagement] else [])
          ++ (if retry then [MgmtRetry] else [])
          ++ [ProcessCompletions; ProcessDatapathTxWorkQueue] /\
  out.2 `sublist_of` [HandleSessionManagement; MgmtRetry; ProcessCompletions;
                      ProcessDatapathTxWorkQueue] /\
  NoDup out.2 /\
  ProcessCompletions ∈ out.2 /\ ProcessDatapathTxWorkQueue ∈ out.2.
Proof.
  intros rpc0 sm rpc1 retry rpc2 out.
  assert (out = (process_datapath_tx_work_queue (process_completions rpc2),
                 (if sm then [HandleSessionManagement] else [])
                 ++ (if retry then [MgmtRetry] else [])
                 ++ [ProcessCompletions; ProcessDatapathTxWorkQueue])) as ->.
  { unfold out, run_event_loop_one. fold rpc0.
    cbn [fst snd]. rewrite (length_pos_nonempty (sm_rx_list rpc0)).
    change (sm_rx_list rpc0) with (sm_rx_list rpc). fold sm.
    unfold rpc2, retry, rpc1. destruct sm.
    all: rewrite length_pos_nonempty; unfold call; cbn [fst snd stage].
    all: case_bool_decide; reflexivity. }
  simpl. split; [done|]. split; [done|].
  destruct sm, retry; simpl.
  all: split;
    [repeat first [apply sublist_nil | apply sublist_skip
                  | apply sublist_cons]|].
  all: split; [apply (bool_decide_unpack _); vm_compute; exact I|].
  all: split; apply (bool_decide_unpack _); vm_compute; exact I.
Qed.

(** C10 (amended).  On a slot of a client session whose [tx_msgbuf] is
    null, [release_respone] pushes the slot's index onto the session's
    free-slot vector and invalidates the slot's [rx_msgbuf]; the allocator
    gets the buffer of [rx_msgbuf] back exactly when that buffer is dynamic,
    and gets nothing else back.  The descriptor of the slot's preallocated
    response buffer is left as it was, and its memory is not given back,
    unless [rx_msgbuf] is dynamic and holds the preallocated buffer's own
    [Buffer]: then that [Buffer] is what the allocator gets back. *)
Theorem release_respone_spec rpc (owner i : nat) (o : Session.t)
    (sslot : SSlot.t) :
  session_heap rpc !! owner = Some o ->
  Session.sslot_arr o !! i = Some sslot ->
  SSlot.session sslot = owner ->
  SSlot.index sslot = Z.of_nat i ->
  SSlot.tx_msgbuf sslot = None ->
  Session.is_client o = true ->
  exists rpc' o' sslot',
    release_respone rpc (owner, i) = Ok rpc' /\
    session_heap rpc' !! owner = Some o' /\
    Session.sslot_free_vec o' = Session.sslot_free_vec o ++ [Z.of_nat i] /\
    Session.sslot_arr o' = <[i := sslot']> (Session.sslot_arr o) /\
    Session.sslot_arr o' !! i = Some sslot' /\
    buf (SSlot.rx_msgbuf sslot') = None /\
    is_dynamic (SSlot.rx_msgbuf sslot') = false /\
    huge_alloc rpc' =
      (if is_dynamic (SSlot.rx_msgbuf sslot)
       then free_buf (huge_alloc rpc) (buffer (SSlot.rx_msgbuf sslot))
       else huge_alloc rpc) /\
    (is_dynamic (SSlot.rx_msgbuf sslot) = false \/
     buffer (SSlot.rx_msgbuf sslot) <> buffer (SSlot.pre_resp_msgbuf sslot) ->
     huge_alloc rpc' = huge_alloc rpc \/
     exists b, b <> buffer (SSlot.pre_resp_msgbuf sslot) /\
               huge_alloc rpc' = free_buf (huge_alloc rpc) b) /\
    (is_dynamic (SSlot.rx_msgbuf sslot) = true ->
     buffer (SSlot.rx_msgbuf sslot) = buffer (SSlot.pre_resp_msgbuf sslot) ->
     huge_alloc rpc'
     = free_msg_buffer (huge_alloc rpc) (SSlot.pre_resp_msgbuf sslot)) /\
    SSlot.pre_resp_msgbuf sslot' = SSlot.pre_resp_msgbuf sslot /\
    SSlot.pre_resp_msgbuf <$> Session.sslot_arr o'
      = SSlot.pre_resp_msgbuf <$> Session.sslot_arr o /\
    SSlot.tx_msgbuf sslot' = None /\
    (forall q, q <> owner -> session_heap rpc' !! q = session_heap rpc !! q).
Proof.
  intros Ho Hslot Hback Hidx Htx Hclient.
  unfold release_respone. rewrite (deref_Some _ _ _ Ho). simpl.
  rewrite Hslot.
  destruct (bury_sslot_rx_msgbuf (huge_alloc rpc) sslot) as [sslot' h'] eqn:Hb.
  assert (SSlot.session sslot' = owner /\ SSlot.index sslot' = Z.of_nat i /\
          SSlot.tx_msgbuf sslot' = None /\
          SSlot.pre_resp_msgbuf sslot' = SSlot.pre_resp_msgbuf sslot /\
          buf (SSlot.rx_msgbuf sslot') = None /\
          is_dynamic (SSlot.rx_msgbuf sslot') = false /\
          h' = (if is_dynamic (SSlot.rx_msgbuf sslot)
                then free_buf (huge_alloc rpc) (buffer (SSlot.rx_msgbuf sslot))
                else huge_alloc rpc))
    as (Hs' & Hi' & Htx' & Hpre' & Hbuf' & Hdyn' & Hh').
  { unfold bury_sslot_rx_msgbuf in Hb.
    destruct (is_dynamic (SSlot.rx_msgbuf sslot)) eqn:Hdyn;
      injection Hb as <- <-; simpl; by repeat split. }
  simpl. rewrite Hs'.
  rewrite (deref_Some _ _ _ (lookup_insert_eq _ _ _)). simpl.
  eexists _, _, sslot'. split; [done|]. simpl.
  rewrite lookup_insert_eq. split; [done|]. simpl.
  rewrite Hi'. split; [done|]. split; [done|].
  split.
  { apply list_lookup_insert_eq. by eapply lookup_lt_Some. }
  do 3 (split; [done|]).
  split.
  { intros [Hstatic|Hother].
    - left. by rewrite Hh', Hstatic.
    - destruct (is_dynamic (SSlot.rx_msgbuf sslot)); [|by left].
      right. by exists (buffer (SSlot.rx_msgbuf sslot)). }
  split.
  { intros Hdyn Hsame. rewrite Hh', Hdyn. unfold free_msg_buffer.
    by rewrite Hsame. }
  split; [done|].
  split.
  { rewrite list_fmap_insert, Hpre'. apply list_insert_id.
    by rewrite list_lookup_fmap, Hslot. }
  split; [done|].
  intros q Hq. by rewrite !lookup_insert_ne.
Qed.

(** *** The loops of [create_session] *)

Lemma session_exists_true (heap : gmap nat Session.t) vec h t :
  session_exists heap vec h t = Ok true ->
  exists i p s, vec !! i = Some (Some p) /\ heap !! p = Some s /\
                SessionEndpoint.hostname (Session.server s) = h /\
                SessionEndpoint.app_tid (Session.server s) = t.
Proof.
  induction vec as [|[p|] vec IH]; simpl; [done| |].
  - destruct (deref heap p) as [s|] eqn:Hs; simpl; [|done].
    apply deref_Ok in Hs.
    destruct (bool_decide _ && bool_decide _) eqn:Hm.
    + intros _. apply andb_prop in Hm as [Hh Ht].
      apply bool_decide_eq_true in Hh, Ht. by exists 0%nat, p, s.
    + intros (i & q & s' & ?)%IH. by exists (S i), q, s'.
  - intros (i & q & s' & ?)%IH. by exists (S i), q, s'.
Qed.

Lemma session_exists_false (heap : gmap nat Session.t) vec h t :
  session_exists heap vec h t = Ok false ->
  forall i p s, vec !! i = Some (Some p) -> heap !! p = Some s ->
    ~ (SessionEndpoint.hostname (Session.server s) = h /\
       SessionEndpoint.app_tid (Session.server s) = t).
Proof.
  induction vec as [|[p|] vec IH]; simpl; [done| |].
  - destruct (deref heap p) as [s|] eqn:Hs; simpl; [|done].
    apply deref_Ok in Hs.
    destruct (bool_decide _ && bool_decide _) eqn:Hm; [done|].
    intros Hrec [|i] q s'; simpl.
    + intros [= <-] Hq [Hh Ht]. simplify_eq.
      apply andb_false_iff in Hm as [Hm|Hm];
        apply bool_decide_eq_false in Hm; done.
    + by apply IH.
  - intros Hrec [|i] q s'; simpl; [done|]. by apply IH.
Qed.

Lemma session_exists_live (heap : gmap nat Session.t) vec h t :
  (forall i p, vec !! i = Some (Some p) -> is_Some (heap !! p)) ->
  exists b, session_exists heap vec h t = Ok b.
Proof.
  induction vec as [|[p|] vec IH]; simpl; intros Hlive.
  - by eexists.
  - destruct (Hlive 0%nat p eq_refl) as [s Hs].
    rewrite (deref_Some _ _ _ Hs). simpl.
    destruct (bool_decide _ && bool_decide _); [by eexists|].
    apply IH. intros i q. apply (Hlive (S i)).
  - apply IH. intros i q. apply (Hlive (S i)).
Qed.

(** The preallocation loop: it either fills every slot from a run of
    successful allocations, or stops at the first allocation that fails and
    gives back the buffers of the run so far. *)
Lemma fill_prealloc_inv (todo filled : list SSlot.t) (h : H) ok sl h' :
  fill_prealloc h filled todo = Ok (ok, sl, h') ->
  (ok = true /\
   exists ms, prealloc_run h ms h' /\ length ms = length todo /\
     sl = filled ++ zip_with SSlot.set_pre_resp_msgbuf todo ms) \/
  (ok = false /\
   exists ms h1 m h2,
     prealloc_run h ms h1 /\ (length ms < length todo)%nat /\
     alloc_msg_buffer h1 kMaxDataPerPkt = Ok (m, h2) /\ buf m = None /\
     h' = free_prealloc h2
            (filled ++ zip_with SSlot.set_pre_resp_msgbuf todo ms) /\
     length sl = (length filled + length todo)%nat).
Proof.
  revert filled h. induction todo as [|sslot todo IH]; intros filled h; simpl.
  - intros [= <- <- <-]. left. split; [done|]. exists []. simpl.
    split; [constructor|]. by rewrite app_nil_r.
  - destruct (alloc_msg_buffer h kMaxDataPerPkt) as [[m h1]|] eqn:Ha;
      simpl; [|done].
    destruct (buf m) as [a|] eqn:Hm.
    + intros Hrec. apply IH in Hrec as [(-> & ms & Hrun & Hlen & ->)|
        (-> & ms & h2 & m' & h3 & Hrun & Hlen & Ha' & Hm' & -> & Hsl)].
      * left. split; [done|]. exists (m :: ms). simpl.
        split; [|split; [by rewrite Hlen | by rewrite <- app_assoc]].
        econstructor; [done| |done]. by rewrite Hm.
      * right. split; [done|]. exists (m :: ms), h2, m', h3. simpl.
        split; [econstructor; [done| |done]; by rewrite Hm|].
        split; [lia|]. split; [done|]. split; [done|].
        split; [by rewrite <- app_assoc|].
        rewrite Hsl, length_app. simpl. lia.
    + intros [= <- <- <-]. right. split; [done|].
      exists [], h, m, h1. simpl. split; [constructor|]. split; [lia|].
      split; [done|]. split; [done|]. rewrite app_nil_r. split; [done|].
      rewrite length_app. simpl. lia.
Qed.

(** *** What [create_session] does, case by case *)

Lemma secret_mask : wrap64 (wrap64 (Z.shiftl 1 kSecretBits) - 1) = 2 ^ 48 - 1.
Proof. reflexivity. Qed.

Lemma create_session_inv rpc gettid rem_hostname rem_app_tid rem_phy_port
    ret rpc' :
  create_session rpc gettid rem_hostname rem_app_tid rem_phy_port
    = Ok (ret, rpc') ->
  (ret = None /\ rpc' = rpc /\
   create_session_rejects rpc gettid rem_hostname rem_app_tid rem_phy_port) \/
  (~ create_session_rejects rpc gettid rem_hostname rem_app_tid rem_phy_port /\
   exists h ok sl hh,
     rem_hostname = Some h /\
     fill_prealloc (huge_alloc rpc) []
       (Session.sslot_arr (Session_new (session_brk rpc) kClient
                                       kConnectInProgress))
       = Ok (ok, sl, hh) /\
     ((ok = false /\ ret = None /\ rpc' = session_abandoned rpc sl hh) \/
      (ok = true /\ ret = Some (session_brk rpc) /\
       rpc' = session_created rpc
                (new_client_session rpc h rem_app_tid rem_phy_port
                   (wrap16 (Z.of_nat (length (session_vec rpc)))) sl)
                hh))).
Proof.
  unfold create_session, in_creator, create_session_rejects.
  case_bool_decide as Hc; simpl.
  2:{ intros [= <- <-]. left. auto. }
  case_bool_decide as Hport.
  { intros [= <- <-]. left. auto. }
  destruct rem_hostname as [h|].
  2:{ intros [= <- <-]. left. auto 6. }
  case_bool_decide as Hlen.
  { intros [= <- <-]. left. do 2 (split; [done|]). do 3 right. left.
    exists h. auto. }
  destruct (bool_decide (h = nexus_hostname rpc)
            && bool_decide (rem_app_tid = app_tid rpc)) eqn:Hself.
  { intros [= <- <-]. left. do 2 (split; [done|]). do 3 right. left.
    exists h. apply andb_prop in Hself as [?%bool_decide_eq_true
                                             ?%bool_decide_eq_true]. auto. }
  destruct (session_exists _ _ _ _) as [dup|] eqn:Hdup; simpl; [|done].
  destruct dup.
  { intros [= <- <-]. left. do 2 (split; [done|]). do 3 right. left.
    exists h. split; [done|]. do 2 right.
    by apply session_exists_true in Hdup. }
  destruct (bool_decide (_ >= kMaxSessionsPerThread)) eqn:Hfull;
    [apply bool_decide_eq_true in Hfull | apply bool_decide_eq_false in Hfull].
  { intros [= <- <-]. left. do 2 (split; [done|]). by do 4 right. }
  intros Hrun. right. split.
  { intros [?|[?|[?|[(h' & [= <-] & [?|[[-> ->]|Hd]])|?]]]];
      try done.
    - rewrite !bool_decide_eq_true_2 in Hself by done. done.
    - destruct Hd as (i & p & s & Hi & Hp & Hm).
      by eapply session_exists_false in Hdup. }
  revert Hrun.
  destruct (fill_prealloc _ _ _) as [[[ok sl] hh]|] eqn:Hfill; simpl;
    [|done].
  intros Hrun. exists h, ok, sl, hh. split; [done|]. split; [done|].
  revert Hrun. destruct ok; simpl.
  - destruct (next_u64 (slow_rand rpc)) as [rnd r'] eqn:Hrnd.
    unfold send_connect_req_one, enqueue_sm_req, mgmt_retry_queue_add. simpl.
    rewrite (deref_Some _ _ _ (lookup_insert_eq _ _ _)). simpl.
    rewrite secret_mask, !insert_insert_eq.
    intros [= <- <-]. right. do 2 (split; [done|]).
    unfold session_created, new_client_session. by rewrite Hrnd.
  - rewrite insert_insert_eq. intros [= <- <-]. left. by do 2 (split; [done|]).
Qed.

Lemma create_session_rejected rpc gettid rem_hostname rem_app_tid rem_phy_port :
  session_vec_live rpc ->
  create_session_rejects rpc gettid rem_hostname rem_app_tid rem_phy_port ->
  create_session rpc gettid rem_hostname rem_app_tid rem_phy_port
    = Ok (None, rpc).
Proof.
  intros Hlive Hrej. unfold create_session, in_creator.
  case_bool_decide as Hc; simpl; [|done].
  case_bool_decide as Hport; [done|].
  destruct rem_hostname as [h|]; [|done].
  case_bool_decide as Hlen; [done|].
  destruct (bool_decide (h = nexus_hostname rpc)
            && bool_decide (rem_app_tid = app_tid rpc)) eqn:Hself; [done|].
  destruct (session_exists_live (session_heap rpc) (session_vec rpc) h
              rem_app_tid Hlive) as [dup Hdup].
  rewrite Hdup. simpl. destruct dup; [done|].
  destruct (bool_decide (_ >= kMaxSessionsPerThread)) eqn:Hfull; [done|].
  apply bool_decide_eq_false in Hfull. exfalso.
  destruct Hrej as [?|[?|[?|[(h' & [= <-] & [?|[[-> ->]|Hd]])|?]]]]; try done.
  - rewrite !bool_decide_eq_true_2 in Hself by done. done.
  - destruct Hd as (i & p & s & Hi & Hp & Hm).
    by eapply session_exists_false in Hdup.
Qed.

(** Past the validation, the outcome is that of the preallocation. *)
Lemma create_session_accepted rpc gettid rem_hostname rem_app_tid rem_phy_port
    ok sl hh :
  session_vec_live rpc ->
  ~ create_session_rejects rpc gettid rem_hostname rem_app_tid rem_phy_port ->
  fill_prealloc (huge_alloc rpc) []
    (Session.sslot_arr (Session_new (session_brk rpc) kClient
                                    kConnectInProgress))
    = Ok (ok, sl, hh) ->
  exists h,
    rem_hostname = Some h /\
    create_session rpc gettid rem_hostname rem_app_tid rem_phy_port
    = Ok (if ok
          then (Some (session_brk rpc),
                session_created rpc
                  (new_client_session rpc h rem_app_tid rem_phy_port
                     (wrap16 (Z.of_nat (length (session_vec rpc)))) sl)
                  hh)
          else (None, session_abandoned rpc sl hh)).
Proof.
  intros Hlive Hnrej Hfill.
  unfold create_session, in_creator.
  unfold create_session_rejects in Hnrej.
  case_bool_decide as Hc; simpl; [|tauto].
  case_bool_decide as Hport; [tauto|].
  destruct rem_hostname as [h|]; [|tauto].
  exists h. split; [done|].
  case_bool_decide as Hlen; [exfalso; apply Hnrej; eauto 10|].
  destruct (bool_decide (h = nexus_hostname rpc)
            && bool_decide (rem_app_tid = app_tid rpc)) eqn:Hself.
  { apply andb_prop in Hself as [?%bool_decide_eq_true
                                   ?%bool_decide_eq_true].
    exfalso; apply Hnrej; eauto 10. }
  destruct (session_exists_live (session_heap rpc) (session_vec rpc) h
              rem_app_tid Hlive) as [dup Hdup].
  rewrite Hdup. simpl. destruct dup.
  { apply session_exists_true in Hdup.
    exfalso; apply Hnrej. do 3 right. left. exists h. split; [done|].
    by do 2 right. }
  destruct (bool_decide (_ >= kMaxSessionsPerThread)) eqn:Hfull.
  { apply bool_decide_eq_true in Hfull. tauto. }
  simpl in Hfill |- *. rewrite Hfill. simpl. destruct ok; simpl.
  - destruct (next_u64 (slow_rand rpc)) as [rnd r'] eqn:Hrnd.
    unfold send_connect_req_one, enqueue_sm_req, mgmt_retry_queue_add. simpl.
    rewrite (deref_Some _ _ _ (lookup_insert_eq _ _ _)). simpl.
    rewrite secret_mask, !insert_insert_eq.
    unfold session_created, new_client_session. by rewrite Hrnd.
  - by rewrite insert_insert_eq.
Qed.

Lemma free_prealloc_zip (h : H) (todo : list SSlot.t) (ms : list MsgBuffer) :
  (length ms <= length todo)%nat ->
  free_prealloc h (zip_with SSlot.set_pre_resp_msgbuf todo ms)
  = foldl free_msg_buffer h ms.
Proof.
  unfold free_prealloc. revert h todo.
  induction ms as [|m ms IH]; intros h [|sslot todo] Hlen; simpl in *;
    try done; try lia.
  apply IH. lia.
Qed.

Lemma fill_prealloc_oom (todo filled : list SSlot.t) (h : H) ms h1 m h2 :
  prealloc_run h ms h1 -> (length ms < length todo)%nat ->
  alloc_msg_buffer h1 kMaxDataPerPkt = Ok (m, h2) -> buf m = None ->
  exists sl,
    fill_prealloc h filled todo
    = Ok (false, sl,
          free_prealloc h2
            (filled ++ zip_with SSlot.set_pre_resp_msgbuf todo ms)).
Proof.
  intros Hrun. revert todo filled.
  induction Hrun as [h|h m0 h0 ms h1 Ha Hm0 Hrun IH];
    intros [|sslot todo] filled Hlen Hfail Hnull; simpl in *; try lia.
  - rewrite Hfail. simpl. rewrite Hnull, app_nil_r. by eexists.
  - rewrite Ha. simpl. destruct (buf m0) eqn:Hb; [|done].
    destruct (IH todo (filled ++ [SSlot.set_pre_resp_msgbuf sslot m0])
                ltac:(lia) Hfail Hnull) as [sl Hsl].
    rewrite Hsl, <- app_assoc. by eexists.
Qed.

Lemma fill_prealloc_ok (todo filled : list SSlot.t) (h : H) ms h' :
  prealloc_run h ms h' -> length ms = length todo ->
  fill_prealloc h filled todo
  = Ok (true, filled ++ zip_with SSlot.set_pre_resp_msgbuf todo ms, h').
Proof.
  intros Hrun. revert todo filled.
  induction Hrun as [h|h m0 h0 ms h1 Ha Hm0 Hrun IH];
    intros [|sslot todo] filled Hlen; simpl in *; try done.
  - by rewrite app_nil_r.
  - rewrite Ha. simpl. destruct (buf m0) eqn:Hb; [|done].
    rewrite IH by lia. by rewrite <- app_assoc.
Qed.

Lemma Session_new_sslot_arr_length (p : nat) role st :
  length (Session.sslot_arr (Session_new p role st)) = kSessionReqWindow.
Proof. unfold Session_new. simpl. by rewrite length_fmap, length_seq. Qed.

(** C2. A [create_session] that fails returns NULL and leaves [session_vec]
    as it was.  It fails on every condition it validates (caller is not the
    creator, port out of range, null or over-long hostname, self-connection,
    duplicate session, session limit), changing nothing; and when
    allocation [i] of the response buffers runs out of memory it fails
    after giving buffers [0 .. i-1] back to the allocator. *)
Theorem create_session_failure rpc gettid rem_hostname rem_app_tid
    rem_phy_port :
  session_vec_live rpc ->
  let rejects :=
    create_session_rejects rpc gettid rem_hostname rem_app_tid rem_phy_port in
  let call :=
    create_session rpc gettid rem_hostname rem_app_tid rem_phy_port in
  (rejects -> call = Ok (None, rpc)) /\
  (~ rejects ->
   forall ms h1 m h2,
     prealloc_run (huge_alloc rpc) ms h1 ->
     (length ms < kSessionReqWindow)%nat ->
     alloc_msg_buffer h1 kMaxDataPerPkt = Ok (m, h2) -> buf m = None ->
     exists rpc', call = Ok (None, rpc') /\
                  session_vec rpc' = session_vec rpc /\
                  huge_alloc rpc' = foldl free_msg_buffer h2 ms) /\
  (forall rpc', call = Ok (None, rpc') ->
     session_vec rpc' = session_vec rpc /\
     ((rejects /\ rpc' = rpc) \/
      (~ rejects /\
       exists ms h1 m h2,
         prealloc_run (huge_alloc rpc) ms h1 /\
         (length ms < kSessionReqWindow)%nat /\
         alloc_msg_buffer h1 kMaxDataPerPkt = Ok (m, h2) /\ buf m = None /\
         huge_alloc rpc' = foldl free_msg_buffer h2 ms))).
Proof.
  intros Hlive rejects call. split; [|split].
  - by apply create_session_rejected.
  - intros Hnrej ms h1 m h2 Hrun Hlen Ha Hm.
    destruct (fill_prealloc_oom
                (Session.sslot_arr (Session_new (session_brk rpc) kClient
                                                kConnectInProgress))
                [] (huge_alloc rpc) ms h1 m h2 Hrun) as [sl Hsl];
      [by rewrite Session_new_sslot_arr_length|done|done|].
    rewrite app_nil_l, free_prealloc_zip in Hsl
      by (rewrite Session_new_sslot_arr_length; lia).
    destruct (create_session_accepted rpc gettid rem_hostname rem_app_tid
                rem_phy_port _ _ _ Hlive Hnrej Hsl) as (h & _ & Hcall).
    unfold call. rewrite Hcall. by eexists.
  - intros rpc' Hcall.
    apply create_session_inv in Hcall
      as [(_ & -> & Hrej)|(Hnrej & h & ok & sl & hh & -> & Hfill &
                           [(-> & _ & ->)|(_ & [=] & _)])].
    { split; [done|]. by left. }
    split; [done|]. right. split; [done|].
    apply fill_prealloc_inv in Hfill
      as [([=] & _)|(_ & ms & h1 & m & h2 & Hrun & Hlen & Ha & Hm & -> & _)].
    rewrite Session_new_sslot_arr_length in Hlen.
    exists ms, h1, m, h2. do 4 (split; [done|]).
    unfold session_abandoned. cbn [huge_alloc]. rewrite app_nil_l.
    apply free_prealloc_zip. rewrite Session_new_sslot_arr_length. lia.
Qed.

(** [create_session] does succeed: when nothing is rejected and the
    [kSessionReqWindow] allocations all succeed, it returns the new
    session. *)
Lemma create_session_succeeds rpc gettid rem_hostname rem_app_tid rem_phy_port
    ms hh :
  session_vec_live rpc ->
  ~ create_session_rejects rpc gettid rem_hostname rem_app_tid rem_phy_port ->
  prealloc_run (huge_alloc rpc) ms hh ->
  length ms = kSessionReqWindow ->
  exists rpc',
    create_session rpc gettid rem_hostname rem_app_tid rem_phy_port
    = Ok (Some (session_brk rpc), rpc').
Proof.
  intros Hlive Hnrej Hrun Hlen.
  pose proof (fill_prealloc_ok
                (Session.sslot_arr (Session_new (session_brk rpc) kClient
                                                kConnectInProgress))
                [] _ _ _ Hrun) as Hfill.
  rewrite Session_new_sslot_arr_length in Hfill.
  destruct (create_session_accepted rpc gettid rem_hostname rem_app_tid
              rem_phy_port _ _ _ Hlive Hnrej (Hfill Hlen)) as (h & _ & Hcall).
  rewrite Hcall. by eexists.
Qed.

Lemma secret_range (rnd : Z) : 0 <= Z.land rnd (2 ^ 48 - 1) < 2 ^ 48.
Proof.
  change (2 ^ 48 - 1) with (Z.ones 48).
  rewrite Z.land_ones by lia. apply Z.mod_pos_bound. lia.
Qed.

(** C3. A successful [create_session] returns a client session in state
    [kConnectInProgress] whose [local_session_num] and [client.session_num]
    are the size of [session_vec] before the call; the 48-bit secret drawn
    from the random source is in both endpoint descriptors and the local
    routing info is in the client's; the session is appended to
    [session_vec] and to the management-retry queue, and one connect request
    for it is sent. *)
Theorem create_session_success rpc gettid rem_hostname rem_app_tid
    rem_phy_port (p : nat) rpc' :
  kMaxSessionsPerThread <= 2 ^ 16 ->
  create_session rpc gettid rem_hostname rem_app_tid rem_phy_port
    = Ok (Some p, rpc') ->
  let size := length (session_vec rpc) in
  exists s,
    session_heap rpc' !! p = Some s /\
    Session.role s = kClient /\
    Session.state s = kConnectInProgress /\
    Session.local_session_num s = Z.of_nat size /\
    SessionEndpoint.session_num (Session.client s) = Z.of_nat size /\
    SessionEndpoint.secret (Session.client s)
      = Z.land (next_u64 (slow_rand rpc)).1 (2 ^ 48 - 1) /\
    0 <= SessionEndpoint.secret (Session.client s) < 2 ^ 48 /\
    SessionEndpoint.secret (Session.server s)
      = SessionEndpoint.secret (Session.client s) /\
    SessionEndpoint.routing_info (Session.client s)
      = fill_local_routing_info (transport rpc) /\
    session_vec rpc' = session_vec rpc ++ [Some p] /\
    session_vec rpc' !! size = Some (Some p) /\
    mgmt_retry_queue rpc' = mgmt_retry_queue rpc ++ [p] /\
    exists wi,
      sm_tx_list rpc' = sm_tx_list rpc ++ [wi] /\
      SessionMgmtPkt.pkt_type (SmWorkItem.sm_pkt wi) = kConnectReq /\
      SessionMgmtPkt.client (SmWorkItem.sm_pkt wi) = Session.client s /\
      SessionMgmtPkt.server (SmWorkItem.sm_pkt wi) = Session.server s.
Proof.
  intros Hmax Hcall size. subst size.
  apply create_session_inv in Hcall
    as [([=] & _)|(Hnrej & h & ok & sl & hh & -> & Hfill &
                   [(_ & [=] & _)|(-> & [= ->] & ->)])].
  assert (wrap16 (Z.of_nat (length (session_vec rpc)))
          = Z.of_nat (length (session_vec rpc))) as Hnum.
  { unfold wrap16. apply Z.mod_small.
    unfold create_session_rejects in Hnrej. lia. }
  rewrite Hnum. eexists. split.
  { unfold session_created. simpl. apply lookup_insert_eq. }
  simpl. do 5 (split; [done|]). split; [apply secret_range|].
  do 3 (split; [done|]). split.
  { by rewrite lookup_app_r, Nat.sub_diag. }
  split; [done|]. by eexists.
Qed.

(** ** Reachable states *)

(** *** What the other operations do *)

Lemma destroy_session_inv rpc gettid session ret rpc' :
  destroy_session rpc gettid session = Ok (ret, rpc') ->
  rpc' = rpc \/
  exists p s, session_heap rpc !! p = Some s /\ rpc' = disconnecting rpc p s.
Proof.
  unfold destroy_session.
  destruct (negb _); [intros [= <- <-]; by left|].
  destruct session as [p|]; [|intros [= <- <-]; by left].
  destruct (deref _ p) as [s|] eqn:Hs; simpl; [|done].
  apply deref_Ok in Hs.
  destruct (negb _); [intros [= <- <-]; by left|].
  destruct (Session.state s); try (intros [= <- <-]; by left).
  unfold send_disconnect_req_one, enqueue_sm_req, mgmt_retry_queue_add. simpl.
  rewrite (deref_Some _ _ _ (lookup_insert_eq _ _ _)). simpl.
  intros [= <- <-]. right. by exists p, s.
Qed.

Lemma bury_session_st_inv rpc session rpc' :
  bury_session_st rpc session = Ok rpc' ->
  exists s,
    session_heap rpc !! session = Some s /\
    (Z.to_nat (Session.local_session_num s) < length (session_vec rpc))%nat /\
    rpc' =
      set_session_heap
        (set_session_vec
           (set_huge_alloc rpc
              (foldl free_msg_buffer (huge_alloc rpc)
                     (SSlot.pre_resp_msgbuf <$> Session.sslot_arr s)))
           (<[Z.to_nat (Session.local_session_num s) := None]>
              (session_vec rpc)))
        (delete session (session_heap rpc)).
Proof.
  unfold bury_session_st.
  destruct (deref _ session) as [s|] eqn:Hs; simpl; [|done].
  apply deref_Ok in Hs. case_decide as Hn; [|done].
  intros [= <-]. exists s. do 2 (split; [done|]).
  by rewrite foldl_fmap.
Qed.

Lemma upsert_datapath_tx_work_queue_inv rpc session rpc' :
  upsert_datapath_tx_work_queue rpc session = Ok rpc' ->
  exists s,
    session_heap rpc !! session = Some s /\
    ((Session.in_datapath_tx_work_queue s = true /\ rpc' = rpc) \/
     (Session.in_datapath_tx_work_queue s = false /\
      rpc' =
        set_datapath_tx_work_queue
          (set_session_heap rpc
             (<[session := Session.set_in_datapath_tx_work_queue s true]>
                (session_heap rpc)))
          (datapath_tx_work_queue rpc ++ [session]))).
Proof.
  unfold upsert_datapath_tx_work_queue.
  destruct (deref _ session) as [s|] eqn:Hs; simpl; [|done].
  apply deref_Ok in Hs. intros Hup. exists s. split; [done|].
  destruct (Session.in_datapath_tx_work_queue s); simpl in Hup;
    injection Hup as <-; auto.
Qed.

Lemma release_respone_inv rpc resp_handle rpc' :
  release_respone rpc resp_handle = Ok rpc' ->
  session_vec rpc' = session_vec rpc /\
  datapath_tx_work_queue rpc' = datapath_tx_work_queue rpc /\
  session_brk rpc' = session_brk rpc /\
  Session.in_datapath_tx_work_queue <$> session_heap rpc'
  = Session.in_datapath_tx_work_queue <$> session_heap rpc.
Proof.
  unfold release_respone. destruct resp_handle as [owner i].
  destruct (deref _ owner) as [o|] eqn:Ho; simpl; [|done].
  apply deref_Ok in Ho.
  destruct (Session.sslot_arr o !! i) as [sslot|]; [|done].
  destruct (bury_sslot_rx_msgbuf _ sslot) as [sslot' h']. simpl.
  destruct (deref _ (SSlot.session sslot')) as [s|] eqn:Hs; simpl; [|done].
  apply deref_Ok in Hs. simpl in Hs. intros [= <-]. simpl.
  do 3 (split; [done|]).
  rewrite !fmap_insert. simpl.
  rewrite (insert_id _ owner) by (by rewrite lookup_fmap, Ho).
  apply insert_id. rewrite lookup_fmap.
  destruct (decide (owner = SSlot.session sslot')) as [Heq|Hne].
  - rewrite <- Heq in Hs |- *. rewrite lookup_insert_eq in Hs.
    injection Hs as <-. by rewrite Ho.
  - rewrite lookup_insert_ne in Hs by done. by rewrite Hs.
Qed.

(** *** The vector of sessions only grows, and only loses sessions *)

Lemma engine_step_session_vec rpc rpc' :
  engine_step rpc rpc' ->
  session_vec rpc' = session_vec rpc \/
  (exists p, session_vec rpc' = session_vec rpc ++ [Some p]) \/
  (exists n, session_vec rpc' = <[n := None]> (session_vec rpc)).
Proof.
  intros [gettid host tid port ret Hc|gettid session ret Hd|session Hb
         |session Hu|resp_handle Hr|req_wi err Hq|n m h Ha ->|m ->].
  - apply create_session_inv in Hc
      as [(_ & -> & _)|(_ & h & ok & sl & hh & _ & _ &
                        [(_ & _ & ->)|(_ & _ & ->)])]; simpl; eauto.
  - apply destroy_session_inv in Hd as [->|(p & s & _ & ->)]; by left.
  - apply bury_session_st_inv in Hb as (s & _ & _ & ->). simpl. eauto.
  - apply upsert_datapath_tx_work_queue_inv in Hu
      as (s & _ & [(_ & ->)|(_ & ->)]); by left.
  - apply release_respone_inv in Hr as (-> & _). by left.
  - unfold enqueue_sm_resp in Hq.
    destruct (session_mgmt_pkt_type_req_to_resp _); simpl in Hq; [|done].
    injection Hq as <-. by left.
  - by left.
  - by left.
Qed.

Lemma engine_step_null rpc rpc' (i : nat) :
  engine_step rpc rpc' ->
  session_vec rpc !! i = Some None -> session_vec rpc' !! i = Some None.
Proof.
  intros Hstep Hi.
  destruct (engine_step_session_vec _ _ Hstep) as [->|[[p ->]|[n ->]]].
  - done.
  - by apply lookup_app_l_Some.
  - destruct (decide (n = i)) as [->|Hne].
    + apply list_lookup_insert_eq. by eapply lookup_lt_Some.
    + by rewrite list_lookup_insert_ne.
Qed.

Lemma engine_steps_null rpc rpc' (i : nat) :
  rtc engine_step rpc rpc' ->
  session_vec rpc !! i = Some None -> session_vec rpc' !! i = Some None.
Proof.
  induction 1 as [|rpc rpc1 rpc2 Hstep _ IH]; [done|].
  intros Hi. apply IH. by eapply engine_step_null.
Qed.

(** C9. [bury_session_st] gives the preallocated response buffer of each
    of the [kSessionReqWindow] slots back to the allocator, sets the entry
    of [session_vec] at [local_session_num] to null and leaves every other
    entry as it was; and an entry that is null stays null in every state
    the engine reaches afterwards. *)
Theorem bury_session_st_spec rpc (session : nat) (s : Session.t) :
  session_heap rpc !! session = Some s ->
  length (Session.sslot_arr s) = kSessionReqWindow ->
  let n := Z.to_nat (Session.local_session_num s) in
  (n < length (session_vec rpc))%nat ->
  exists rpc',
    bury_session_st rpc session = Ok rpc' /\
    huge_alloc rpc' =
      foldl free_msg_buffer (huge_alloc rpc)
            (SSlot.pre_resp_msgbuf <$> Session.sslot_arr s) /\
    length (SSlot.pre_resp_msgbuf <$> Session.sslot_arr s)
      = kSessionReqWindow /\
    session_vec rpc' = <[n := None]> (session_vec rpc) /\
    session_vec rpc' !! n = Some None /\
    length (session_vec rpc') = length (session_vec rpc) /\
    (forall i, i <> n -> session_vec rpc' !! i = session_vec rpc !! i) /\
    (forall rpc'' i,
       rtc engine_step rpc' rpc'' ->
       session_vec rpc' !! i = Some None ->
       session_vec rpc'' !! i = Some None).
Proof.
  intros Hs Hslots n Hn.
  assert (exists rpc', bury_session_st rpc session = Ok rpc') as [rpc' Hb].
  { unfold bury_session_st. rewrite (deref_Some _ _ _ Hs). simpl.
    fold n. rewrite decide_True by done. by eexists. }
  exists rpc'. split; [done|].
  apply bury_session_st_inv in Hb as (s' & Hs' & _ & ->).
  rewrite Hs in Hs'. injection Hs' as <-. fold n. simpl.
  split; [done|]. split; [by rewrite length_fmap|]. split; [done|].
  split; [by apply list_lookup_insert_eq|].
  split; [by rewrite length_insert|].
  split; [intros i Hi; by rewrite list_lookup_insert_ne|].
  intros rpc'' i Hsteps Hi. by eapply engine_steps_null.
Qed.

(** *** The TX work queue *)

Lemma tx_queue_inv_frame rpc rpc' :
  datapath_tx_work_queue rpc' = datapath_tx_work_queue rpc ->
  session_brk rpc' = session_brk rpc ->
  Session.in_datapath_tx_work_queue <$> session_heap rpc'
  = Session.in_datapath_tx_work_queue <$> session_heap rpc ->
  tx_queue_inv rpc /\ store_inv rpc -> tx_queue_inv rpc' /\ store_inv rpc'.
Proof.
  intros Hq Hbrk Hflags [[Hnd Hiff] [Hheap Hqueue]].
  assert (forall p s', session_heap rpc' !! p = Some s' ->
            exists s, session_heap rpc !! p = Some s /\
                      Session.in_datapath_tx_work_queue s
                      = Session.in_datapath_tx_work_queue s') as Hback.
  { intros p s' Hp.
    assert ((Session.in_datapath_tx_work_queue <$> session_heap rpc) !! p
            = Some (Session.in_datapath_tx_work_queue s')) as Hf.
    { by rewrite <- Hflags, lookup_fmap, Hp. }
    rewrite lookup_fmap in Hf.
    destruct (session_heap rpc !! p) as [s|]; [|done].
    injection Hf as Hf. by exists s. }
  unfold tx_queue_inv, store_inv. rewrite Hq, Hbrk.
  split; [split; [done|]|split; [|done]].
  - intros p s' Hp. destruct (Hback _ _ Hp) as (s0 & Hs0 & <-).
    by apply Hiff.
  - intros p [s' Hp]. destruct (Hback _ _ Hp) as (s0 & Hs0 & _).
    apply Hheap. by eexists.
Qed.

(** A session object made by [new], not yet in the TX work queue. *)
Lemma tx_queue_inv_new rpc rpc' (s : Session.t) :
  datapath_tx_work_queue rpc' = datapath_tx_work_queue rpc ->
  session_brk rpc' = S (session_brk rpc) ->
  session_heap rpc' = <[session_brk rpc := s]> (session_heap rpc) ->
  Session.in_datapath_tx_work_queue s = false ->
  tx_queue_inv rpc /\ store_inv rpc -> tx_queue_inv rpc' /\ store_inv rpc'.
Proof.
  intros Hq Hbrk Hheap' Hflag [[Hnd Hiff] [Hheap Hqueue]].
  unfold tx_queue_inv, store_inv. rewrite Hq, Hbrk, Hheap'.
  split; [split; [done|]|split].
  - intros p s' Hp.
    destruct (decide (p = session_brk rpc)) as [->|Hne].
    + rewrite lookup_insert_eq in Hp. injection Hp as <-. rewrite Hflag.
      split; [|done]. intros Hin%Hqueue. lia.
    + rewrite lookup_insert_ne in Hp by done. by apply Hiff.
  - intros p Hp. destruct (decide (p = session_brk rpc)) as [->|Hne]; [lia|].
    rewrite lookup_insert_ne in Hp by done. apply Hheap in Hp. lia.
  - intros p Hp%Hqueue. lia.
Qed.

Lemma Session_new_flag (p : nat) role st sl :
  Session.in_datapath_tx_work_queue
    (Session.set_sslot_arr (Session_new p role st) sl) = false.
Proof. done. Qed.

Lemma upsert_datapath_tx_work_queue_tx_queue_inv rpc session rpc' :
  upsert_datapath_tx_work_queue rpc session = Ok rpc' ->
  tx_queue_inv rpc -> tx_queue_inv rpc'.
Proof.
  intros Hu [Hnd Hiff].
  apply upsert_datapath_tx_work_queue_inv in Hu
    as (s & Hs & [(_ & ->)|(Hflag & ->)]); [done|].
  unfold tx_queue_inv. simpl.
  assert (session ∉ datapath_tx_work_queue rpc) as Hnotin.
  { intros Hin. apply (Hiff _ _ Hs) in Hin. congruence. }
  split.
  - apply NoDup_app. split; [done|]. split; [|apply NoDup_singleton].
    intros p Hp ->%list_elem_of_singleton. done.
  - intros p s' Hp. rewrite elem_of_app, list_elem_of_singleton.
    destruct (decide (p = session)) as [->|Hne].
    + rewrite lookup_insert_eq in Hp. injection Hp as <-. simpl. tauto.
    + rewrite lookup_insert_ne in Hp by done.
      rewrite <- (Hiff _ _ Hp). tauto.
Qed.

Lemma upsert_datapath_tx_work_queue_store_inv rpc session rpc' :
  upsert_datapath_tx_work_queue rpc session = Ok rpc' ->
  store_inv rpc -> store_inv rpc'.
Proof.
  intros Hu [Hheap Hqueue].
  apply upsert_datapath_tx_work_queue_inv in Hu
    as (s & Hs & [(_ & ->)|(Hflag & ->)]); [done|].
  unfold store_inv. simpl. split.
  - intros p Hp. destruct (decide (p = session)) as [->|Hne].
    + apply Hheap. by eexists.
    + rewrite lookup_insert_ne in Hp by done. by apply Hheap.
  - intros p [Hp| ->%list_elem_of_singleton]%elem_of_app; [by apply Hqueue|].
    apply Hheap. by eexists.
Qed.

Lemma engine_step_tx_queue_inv rpc rpc' :
  engine_step rpc rpc' ->
  tx_queue_inv rpc /\ store_inv rpc -> tx_queue_inv rpc' /\ store_inv rpc'.
Proof.
  intros [gettid host tid port ret Hc|gettid session ret Hd|session Hb
         |session Hu|resp_handle Hr|req_wi err Hq|n m h Ha ->|m ->] Hinv.
  - apply create_session_inv in Hc
      as [(_ & -> & _)|(_ & h & ok & sl & hh & _ & _ &
                        [(_ & _ & ->)|(_ & _ & ->)])]; [done| |].
    + eapply tx_queue_inv_new; [..|exact Hinv]; try done.
    + eapply tx_queue_inv_new; [..|exact Hinv]; try done.
  - apply destroy_session_inv in Hd as [->|(p & s & Hs & ->)]; [done|].
    eapply tx_queue_inv_frame; [..|exact Hinv]; try done.
    simpl. rewrite fmap_insert. simpl. apply insert_id.
    by rewrite lookup_fmap, Hs.
  - apply bury_session_st_inv in Hb as (s & Hs & _ & ->).
    destruct Hinv as [[Hnd Hiff] [Hheap Hqueue]].
    unfold tx_queue_inv, store_inv. simpl.
    split; [split; [done|]|split; [|done]].
    + intros p s' [_ Hp]%lookup_delete_Some. by apply Hiff.
    + intros p [s' [_ Hp]%lookup_delete_Some]. apply Hheap. by eexists.
  - destruct Hinv as [Htx Hstore]. split.
    + by eapply upsert_datapath_tx_work_queue_tx_queue_inv.
    + by eapply upsert_datapath_tx_work_queue_store_inv.
  - apply release_respone_inv in Hr as (_ & Hq & Hbrk & Hflags).
    by eapply tx_queue_inv_frame.
  - unfold enqueue_sm_resp in Hq.
    destruct (session_mgmt_pkt_type_req_to_resp _); simpl in Hq; [|done].
    injection Hq as <-. by eapply tx_queue_inv_frame.
  - by eapply tx_queue_inv_frame.
  - by eapply tx_queue_inv_frame.
Qed.

Lemma reachable_tx_queue_inv rpc :
  reachable rpc -> tx_queue_inv rpc /\ store_inv rpc.
Proof.
  intros (hostname & tid & port & creator & tr & ha & rnd & Hsteps).
  remember (Rpc_new hostname tid port creator tr ha rnd) as rpc0 eqn:Hinit.
  assert (tx_queue_inv rpc0 /\ store_inv rpc0) as Hinv0.
  { subst rpc0. unfold tx_queue_inv, store_inv, Rpc_new. simpl.
    split; [split; [apply NoDup_nil_2|]|split].
    - intros p s Hp. by rewrite lookup_empty in Hp.
    - intros p [s Hp]. by rewrite lookup_empty in Hp.
    - intros p Hp. by apply elem_of_nil in Hp. }
  clear Hinit. induction Hsteps as [|rpc0 rpc1 rpc2 Hstep _ IH]; [done|].
  apply IH. by eapply engine_step_tx_queue_inv.
Qed.

(** *** The TX work queue when addresses are handed out again *)





(** The allocator always has an address to hand out: the condition on
    [new] blocks no operation. *)
Lemma new_unqueued_exists rpc : exists addr, new_unqueued rpc addr.
Proof.
  exists (fresh (dom (session_heap rpc)
                 ∪ list_to_set (datapath_tx_work_queue rpc) : gset nat)).
  pose proof (is_fresh (dom (session_heap rpc)
                        ∪ list_to_set (datapath_tx_work_queue rpc)
                        : gset nat)) as Hfresh.
  apply not_elem_of_union in Hfresh as [Hheap Hqueue]. split.
  - by apply not_elem_of_dom.
  - by rewrite elem_of_list_to_set in Hqueue.
Qed.



(** With addresses never handed out twice, as in [engine_step], no address
    that the queue holds is handed out again. *)
Lemma reachable_reachable_at rpc :
  reachable rpc -> reachable_at new_unqueued rpc.
Proof.
  intros (hostname & tid & port & creator & tr & ha & rnd & Hsteps).
  exists hostname, tid, port, creator, tr, ha, rnd.
  assert (reachable (Rpc_new hostname tid port creator tr ha rnd)) as Hinit.
  { exists hostname, tid, port, creator, tr, ha, rnd. apply rtc_refl. }
  revert Hinit.
  induction Hsteps as [rpc0|rpc0 rpc1 rpc2 Hstep Hsteps IH]; intros Hreach;
    [apply rtc_refl|].
  destruct (reachable_tx_queue_inv _ Hreach) as [_ [Hheap Hqueue]].
  eapply rtc_l.
  - apply (step_at_engine _ _ _ (session_brk rpc0)).
    + split.
      * destruct (session_heap rpc0 !! session_brk rpc0) eqn:Hp; [|done].
        specialize (Hheap (session_brk rpc0)). rewrite Hp in Hheap.
        assert (session_brk rpc0 < session_brk rpc0)%nat
          by (apply Hheap; by eexists).
        lia.
      * intros Hin%Hqueue. lia.
    + by destruct rpc0.
  - apply IH. destruct Hreach as (h0 & t0 & p0 & c0 & tr0 & ha0 & r0 & Hr).
    exists h0, t0, p0, c0, tr0, ha0, r0.
    eapply rtc_r; [exact Hr|exact Hstep].
Qed.

End SessionFacts.


(** * Further properties of the engine *)

(** ** Datapath error codes *)

(** X1. [rpc_datapath_err_code_str] has a description for exactly the six
    error codes 1 to 6 (for any other integer, the success code 0 among
    them, the process exits), and two different codes never share a
    description. *)
Theorem rpc_datapath_err_code_str_injective (c1 c2 : Z) :
  (is_Some (rpc_datapath_err_code_str c1) <-> 1 <= c1 <= 6) /\
  (is_Some (rpc_datapath_err_code_str c1) ->
   rpc_datapath_err_code_str c1 = rpc_datapath_err_code_str c2 ->
   c1 = c2).
Proof.
  assert (forall c, is_Some (rpc_datapath_err_code_str c) -> 1 <= c <= 6)
    as Hdom.
  { intros c [msg Hc]. unfold rpc_datapath_err_code_str in Hc.
    destruct c as [|c|c]; [done| |done].
    do 3 (destruct c as [c|c|]; simpl in Hc; try done); lia. }
  split; [split; [apply Hdom|]|].
  - intros Hc.
    assert (c1 = 1 \/ c1 = 2 \/ c1 = 3 \/ c1 = 4 \/ c1 = 5 \/ c1 = 6)
      as [->|[->|[->|[->|[->| ->]]]]] by lia; by eexists.
  - intros Hs1 Heq.
    assert (is_Some (rpc_datapath_err_code_str c2)) as Hs2
      by (by rewrite <- Heq).
    apply Hdom in Hs1, Hs2.
    assert (c1 = 1 \/ c1 = 2 \/ c1 = 3 \/ c1 = 4 \/ c1 = 5 \/ c1 = 6)
      as [->|[->|[->|[->|[->| ->]]]]] by lia;
    assert (c2 = 1 \/ c2 = 2 \/ c2 = 3 \/ c2 = 4 \/ c2 = 5 \/ c2 = 6)
      as [->|[->|[->|[->|[->| ->]]]]] by lia;
    first [reflexivity | discriminate Heq].
Qed.

Section EngineMoreFacts.
Context {consts : Constants}.
Context {T H R : Type}.
Context {transport_ops : Transport T} {huge_allocator : HugeAlloc H}
        {slow_rand_ops : SlowRand R}.
Implicit Types rpc : Rpc T H R.

(** ** Counting sessions *)

Lemma omap_id_cons_Some (p : nat) (vec : list (option nat)) :
  omap id (Some p :: vec) = p :: omap id vec.
Proof. done. Qed.

Lemma omap_id_cons_None (vec : list (option nat)) :
  omap id (None :: vec) = omap id vec.
Proof. done. Qed.

Lemma omap_id_length_le (vec : list (option nat)) :
  (length (omap id vec) <= length vec)%nat.
Proof.
  induction vec as [|[p|] vec IH];
    rewrite ?omap_id_cons_Some, ?omap_id_cons_None, ?length_cons; [done|lia..].
Qed.

Lemma num_active_sessions_loop (vec : list (option nat)) (acc : Z) :
  0 <= acc -> acc + Z.of_nat (length vec) < 2 ^ 64 ->
  foldl (fun ret session =>
           match session with
           | Some _ => wrap64 (ret + 1)
           | None => ret
           end) acc vec
  = acc + Z.of_nat (length (omap id vec)).
Proof.
  revert acc. induction vec as [|[p|] vec IH]; intros acc Hacc Hlen;
    rewrite ?omap_id_cons_Some, ?omap_id_cons_None, ?length_cons in *;
    cbn [foldl].
  - change (omap id []) with (@nil nat). cbn [length]. lia.
  - rewrite wrap64_small by lia. rewrite IH by lia. lia.
  - rewrite IH by lia. done.
Qed.

Lemma num_active_sessions_count rpc :
  Z.of_nat (length (session_vec rpc)) < 2 ^ 64 ->
  num_active_sessions rpc = Z.of_nat (length (omap id (session_vec rpc))).
Proof.
  intros Hlen. unfold num_active_sessions.
  rewrite num_active_sessions_loop by lia. lia.
Qed.

(** X2. [num_active_sessions] is the number of non-null entries of
    [session_vec]: it lies between zero and the size of the vector, it is
    the size exactly when no entry is null, and zero exactly when all
    are. *)
Theorem num_active_sessions_bounds rpc :
  Z.of_nat (length (session_vec rpc)) < 2 ^ 64 ->
  let n := num_active_sessions rpc in
  0 <= n <= Z.of_nat (length (session_vec rpc)) /\
  (n = Z.of_nat (length (session_vec rpc))
   <-> forall i, session_vec rpc !! i <> Some None) /\
  (n = 0 <-> forall i p, session_vec rpc !! i <> Some (Some p)).
Proof.
  intros Hlen n. unfold n. rewrite num_active_sessions_count by done.
  clear Hlen n. generalize (session_vec rpc) as vec. intros vec.
  pose proof (omap_id_length_le vec) as Hle.
  split; [lia|]. split.
  - split.
    + intros Heq. assert (length (omap id vec) = length vec) as Heq' by lia.
      clear Heq Hle. induction vec as [|[p|] vec IH]; intros [|i];
        rewrite ?omap_id_cons_Some, ?omap_id_cons_None, ?length_cons in Heq';
        cbn [lookup list_lookup]; try done.
      * apply IH. lia.
      * pose proof (omap_id_length_le vec). lia.
      * pose proof (omap_id_length_le vec). lia.
    + intros Hnn. f_equal. clear Hle.
      induction vec as [|[p|] vec IH];
        rewrite ?omap_id_cons_Some, ?omap_id_cons_None, ?length_cons;
        [done| |].
      * f_equal. apply IH. intros i. apply (Hnn (S i)).
      * by specialize (Hnn 0%nat).
  - split.
    + intros Hz. assert (omap id vec = []) as Hnil
        by (apply length_zero_iff_nil; lia).
      clear Hz Hle. induction vec as [|[p|] vec IH]; intros [|i] q;
        rewrite ?omap_id_cons_Some, ?omap_id_cons_None in Hnil;
        cbn [lookup list_lookup]; try done.
      by apply IH.
    + intros Hnone. change 0 with (Z.of_nat 0). f_equal. clear Hle.
      induction vec as [|[p|] vec IH];
        rewrite ?omap_id_cons_Some, ?omap_id_cons_None; [done| |].
      * by specialize (Hnone 0%nat p).
      * apply IH. intros i q. apply (Hnone (S i)).
Qed.

(** ** The vector of sessions along the engine's steps *)

Lemma engine_step_session_vec_stable rpc rpc' :
  engine_step rpc rpc' ->
  (length (session_vec rpc) <= length (session_vec rpc'))%nat /\
  forall i p, (i < length (session_vec rpc))%nat ->
              session_vec rpc' !! i = Some (Some p) ->
              session_vec rpc !! i = Some (Some p).
Proof.
  intros Hstep.
  destruct (engine_step_session_vec _ _ Hstep) as [->|[[q ->]|[n ->]]].
  - done.
  - rewrite length_app. split; [lia|]. intros i p Hi.
    by rewrite lookup_app_l.
  - rewrite length_insert. split; [done|]. intros i p Hi.
    destruct (decide (n = i)) as [->|Hne].
    + by rewrite list_lookup_insert_eq.
    + by rewrite list_lookup_insert_ne.
Qed.

(** X3. [session_vec] is append-only along the engine's operations: it
    never shrinks, and an index holds the same session for as long as it
    is not null - no operation puts a different session, or any session,
    at an index that exists already. *)
Theorem session_vec_append_only rpc rpc' :
  rtc engine_step rpc rpc' ->
  (length (session_vec rpc) <= length (session_vec rpc'))%nat /\
  forall i p, (i < length (session_vec rpc))%nat ->
              session_vec rpc' !! i = Some (Some p) ->
              session_vec rpc !! i = Some (Some p).
Proof.
  induction 1 as [|rpc rpc1 rpc2 Hstep _ [IHlen IH]]; [done|].
  destruct (engine_step_session_vec_stable _ _ Hstep) as [Hlen Hsame].
  split; [lia|]. intros i p Hi Hp.
  apply Hsame; [done|]. apply IH; [lia|done].
Qed.

Lemma engine_step_session_vec_bound rpc rpc' :
  engine_step rpc rpc' ->
  Z.of_nat (length (session_vec rpc)) <= Z.max 0 kMaxSessionsPerThread ->
  Z.of_nat (length (session_vec rpc')) <= Z.max 0 kMaxSessionsPerThread.
Proof.
  intros [gettid host tid port ret Hc|gettid session ret Hd|session Hb
         |session Hu|resp_handle Hr|req_wi err Hq|n m h Ha ->|m ->] Hlen.
  - apply create_session_inv in Hc
      as [(_ & -> & _)|(Hnrej & h & ok & sl & hh & _ & _ &
                        [(_ & _ & ->)|(_ & _ & ->)])]; [done..|].
    unfold create_session_rejects in Hnrej. simpl.
    rewrite length_app. simpl. lia.
  - apply destroy_session_inv in Hd as [->|(p & s & _ & ->)]; done.
  - apply bury_session_st_inv in Hb as (s & _ & _ & ->). simpl.
    by rewrite length_insert.
  - apply upsert_datapath_tx_work_queue_inv in Hu
      as (s & _ & [(_ & ->)|(_ & ->)]); done.
  - apply release_respone_inv in Hr as (-> & _). done.
  - unfold enqueue_sm_resp in Hq.
    destruct (session_mgmt_pkt_type_req_to_resp _); simpl in Hq; [|done].
    by injection Hq as <-.
  - done.
  - done.
Qed.

(** X4. The size of [session_vec] is bounded: in every state the engine
    reaches it is at most [kMaxSessionsPerThread], and so is the number of
    active sessions. *)
Theorem session_vec_bounded rpc :
  0 <= kMaxSessionsPerThread < 2 ^ 64 ->
  reachable rpc ->
  Z.of_nat (length (session_vec rpc)) <= kMaxSessionsPerThread /\
  num_active_sessions rpc <= kMaxSessionsPerThread.
Proof.
  intros Hmax (hostname & tid & port & creator & tr & ha & rnd & Hsteps).
  assert (Z.of_nat (length (session_vec rpc))
          <= Z.max 0 kMaxSessionsPerThread) as Hlen.
  { remember (Rpc_new hostname tid port creator tr ha rnd) as rpc0 eqn:Hinit.
    assert (Z.of_nat (length (session_vec rpc0))
            <= Z.max 0 kMaxSessionsPerThread) as Hlen0
      by (subst rpc0; simpl; lia).
    clear Hinit. induction Hsteps as [|rpc0 rpc1 rpc2 Hstep _ IH]; [done|].
    apply IH. by eapply engine_step_session_vec_bound. }
  split; [lia|].
  rewrite num_active_sessions_count by lia.
  pose proof (omap_id_length_le (session_vec rpc)). lia.
Qed.

(** ** The sessions of [session_vec] sit at their own index *)

Lemma release_respone_frame {A} (f : Session.t -> A) rpc resp_handle rpc' :
  (forall s arr, f (Session.set_sslot_arr s arr) = f s) ->
  (forall s v, f (Session.set_sslot_free_vec s v) = f s) ->
  release_respone rpc resp_handle = Ok rpc' ->
  f <$> session_heap rpc' = f <$> session_heap rpc.
Proof.
  intros Harr Hvec. unfold release_respone.
  destruct resp_handle as [owner i].
  destruct (deref _ owner) as [o|] eqn:Ho; simpl; [|done].
  apply deref_Ok in Ho.
  destruct (Session.sslot_arr o !! i) as [sslot|]; [|done].
  destruct (bury_sslot_rx_msgbuf _ sslot) as [sslot' h']. simpl.
  destruct (deref _ (SSlot.session sslot')) as [s|] eqn:Hs; simpl; [|done].
  apply deref_Ok in Hs. revert Hs. simpl. intros Hs [= <-]. simpl.
  rewrite !fmap_insert, Hvec, Harr.
  rewrite (insert_id _ owner) by (by rewrite lookup_fmap, Ho).
  apply insert_id. rewrite lookup_fmap.
  destruct (decide (owner = SSlot.session sslot')) as [Heq|Hne].
  - rewrite <- Heq in Hs |- *. rewrite lookup_insert_eq in Hs.
    injection Hs as <-. by rewrite Ho, Harr.
  - rewrite lookup_insert_ne in Hs by done. by rewrite Hs.
Qed.

Lemma session_vec_wf_frame rpc rpc' :
  session_vec rpc' = session_vec rpc ->
  Session.local_session_num <$> session_heap rpc'
  = Session.local_session_num <$> session_heap rpc ->
  session_vec_wf rpc -> session_vec_wf rpc'.
Proof.
  intros Hvec Hnum Hwf i p Hp. rewrite Hvec in Hp.
  destruct (Hwf i p Hp) as (s & Hs & Hi & Hpos).
  assert ((Session.local_session_num <$> session_heap rpc') !! p
          = Some (Session.local_session_num s)) as Hf
    by (by rewrite Hnum, lookup_fmap, Hs).
  rewrite lookup_fmap in Hf.
  destruct (session_heap rpc' !! p) as [s'|]; [|done].
  injection Hf as Hf. exists s'. by rewrite Hf.
Qed.

Lemma session_vec_wf_new rpc rpc' (s : Session.t) :
  session_vec rpc' = session_vec rpc ->
  session_heap rpc' = <[session_brk rpc := s]> (session_heap rpc) ->
  store_inv rpc -> session_vec_wf rpc -> session_vec_wf rpc'.
Proof.
  intros Hvec Hheap [Hlt _] Hwf i p Hp. rewrite Hvec in Hp.
  destruct (Hwf i p Hp) as (s0 & Hs0 & Hi).
  exists s0. split; [|done]. rewrite Hheap, lookup_insert_ne; [done|].
  intros <-. specialize (Hlt (session_brk rpc) ltac:(by eexists)). lia.
Qed.

Lemma engine_step_session_vec_wf rpc rpc' :
  kMaxSessionsPerThread <= 2 ^ 16 ->
  engine_step rpc rpc' ->
  store_inv rpc -> session_vec_wf rpc -> session_vec_wf rpc'.
Proof.
  intros Hmax
    [gettid host tid port ret Hc|gettid session ret Hd|session Hb
    |session Hu|resp_handle Hr|req_wi err Hq|n m h Ha ->|m ->] Hstore Hwf.
  - apply create_session_inv in Hc
      as [(_ & -> & _)|(Hnrej & h & ok & sl & hh & _ & _ &
                        [(_ & _ & ->)|(_ & _ & ->)])]; [done| |].
    + by eapply (session_vec_wf_new rpc); [| |exact Hstore|exact Hwf].
    + intros i p Hp. simpl in Hp.
      apply lookup_app_Some in Hp as [Hp|[Hlen Hp]].
      * destruct (Hwf i p Hp) as (s0 & Hs0 & Hi).
        exists s0. split; [|done]. simpl. rewrite lookup_insert_ne; [done|].
        intros <-. destruct Hstore as [Hlt _].
        specialize (Hlt (session_brk rpc) ltac:(by eexists)). lia.
      * apply list_lookup_singleton_Some in Hp as [Hi [= <-]].
        eexists. split; [apply lookup_insert_eq|].
        unfold create_session_rejects in Hnrej. simpl.
        unfold wrap16. rewrite Z.mod_small by lia.
        split; lia.
  - apply destroy_session_inv in Hd as [->|(p & s & Hs & ->)]; [done|].
    eapply session_vec_wf_frame; [..|exact Hwf]; [done|].
    simpl. rewrite fmap_insert. simpl. apply insert_id.
    by rewrite lookup_fmap, Hs.
  - apply bury_session_st_inv in Hb as (s & Hs & Hn & ->).
    intros i p Hp. simpl in Hp.
    destruct (decide (Z.to_nat (Session.local_session_num s) = i))
      as [Heq|Hne].
    + rewrite <- Heq, list_lookup_insert_eq in Hp by done. done.
    + rewrite list_lookup_insert_ne in Hp by done.
      destruct (Hwf i p Hp) as (s0 & Hs0 & Hi & Hpos).
      exists s0. split; [|done]. simpl. rewrite lookup_delete_ne; [done|].
      intros <-. rewrite Hs in Hs0. injection Hs0 as <-. done.
  - apply upsert_datapath_tx_work_queue_inv in Hu
      as (s & Hs & [(_ & ->)|(_ & ->)]); [done|].
    eapply session_vec_wf_frame; [..|exact Hwf]; [done|].
    simpl. rewrite fmap_insert. simpl. apply insert_id.
    by rewrite lookup_fmap, Hs.
  - eapply session_vec_wf_frame; [..|exact Hwf].
    + by apply release_respone_inv in Hr as (-> & _).
    + by eapply release_respone_frame.
  - unfold enqueue_sm_resp in Hq.
    destruct (session_mgmt_pkt_type_req_to_resp _); simpl in Hq; [|done].
    by injection Hq as <-.
  - done.
  - done.
Qed.

Lemma reachable_session_vec_wf rpc :
  kMaxSessionsPerThread <= 2 ^ 16 ->
  reachable rpc -> session_vec_wf rpc.
Proof.
  intros Hmax (hostname & tid & port & creator & tr & ha & rnd & Hsteps).
  remember (Rpc_new hostname tid port creator tr ha rnd) as rpc0 eqn:Hinit.
  assert ((tx_queue_inv rpc0 /\ store_inv rpc0) /\ session_vec_wf rpc0)
    as Hinv0.
  { split.
    - apply reachable_tx_queue_inv.
      exists hostname, tid, port, creator, tr, ha, rnd. subst rpc0.
      apply rtc_refl.
    - subst rpc0. intros i p Hp. simpl in Hp. by destruct i. }
  clear Hinit.
  induction Hsteps as [|rpc0 rpc1 rpc2 Hstep _ IH]; [apply Hinv0|].
  destruct Hinv0 as [Hinv Hwf]. apply IH. split.
  - by eapply engine_step_tx_queue_inv.
  - eapply engine_step_session_vec_wf; [done..|apply Hinv|done].
Qed.

(** X5. With at most [2^16] sessions per thread, in every state the engine
    reaches each session listed in [session_vec] is a live object and sits
    at the index that is its [local_session_num]; so no session is listed
    at two indices. *)
Theorem session_vec_indexed_by_session_num rpc :
  kMaxSessionsPerThread <= 2 ^ 16 ->
  reachable rpc ->
  (forall i p, session_vec rpc !! i = Some (Some p) ->
     exists s, session_heap rpc !! p = Some s /\
               Session.local_session_num s = Z.of_nat i) /\
  session_vec_live rpc /\
  (forall i j p, session_vec rpc !! i = Some (Some p) ->
                 session_vec rpc !! j = Some (Some p) -> i = j).
Proof.
  intros Hmax Hreach.
  pose proof (reachable_session_vec_wf rpc Hmax Hreach) as Hwf.
  split; [|split].
  - intros i p Hp. destruct (Hwf i p Hp) as (s & Hs & Hi & Hpos).
    exists s. split; [done|]. lia.
  - intros i p Hp. destruct (Hwf i p Hp) as (s & Hs & _). by eexists.
  - intros i j p Hi Hj.
    destruct (Hwf i p Hi) as (s & Hs & <- & _).
    destruct (Hwf j p Hj) as (s' & Hs' & <- & _).
    rewrite Hs in Hs'. by injection Hs' as <-.
Qed.

(** ** Sessions that come and go *)

(** X6. A successful [create_session] raises [num_active_sessions] by
    exactly one; a [create_session] that returns NULL leaves it as it
    was. *)
Theorem create_session_num_active_sessions rpc gettid rem_hostname
    rem_app_tid rem_phy_port ret rpc' :
  kMaxSessionsPerThread < 2 ^ 64 ->
  create_session rpc gettid rem_hostname rem_app_tid rem_phy_port
    = Ok (ret, rpc') ->
  num_active_sessions rpc' =
    num_active_sessions rpc + match ret with Some _ => 1 | None => 0 end.
Proof.
  intros Hmax Hcall.
  apply create_session_inv in Hcall
    as [(-> & -> & _)|(Hnrej & h & ok & sl & hh & _ & _ &
                       [(_ & -> & ->)|(_ & -> & ->)])];
    [lia|unfold num_active_sessions; simpl; lia|].
  unfold create_session_rejects in Hnrej.
  rewrite !num_active_sessions_count; simpl;
    rewrite ?length_app; simpl; [|lia..].
  rewrite omap_app, length_app. simpl. lia.
Qed.

Lemma omap_id_insert_None (vec : list (option nat)) (n p : nat) :
  vec !! n = Some (Some p) ->
  length (omap id vec) = S (length (omap id (<[n := None]> vec))).
Proof.
  revert n. induction vec as [|[q|] vec IH]; intros [|n] Hn;
    cbn [lookup list_lookup] in Hn; try done;
    cbn [insert list_insert];
    rewrite ?omap_id_cons_Some, ?omap_id_cons_None; cbn [length].
  - f_equal. by apply IH.
  - by apply IH.
Qed.

(** X7. Burying a session that [session_vec] lists at its own index takes
    exactly that session out: it is no longer listed and no longer a live
    object, every other listed session stays where it is, and
    [num_active_sessions] drops by one. *)
Theorem bury_session_st_num_active_sessions rpc (session : nat)
    (s : Session.t) :
  Z.of_nat (length (session_vec rpc)) < 2 ^ 64 ->
  session_vec_wf rpc ->
  session_heap rpc !! session = Some s ->
  session_vec rpc !! Z.to_nat (Session.local_session_num s)
    = Some (Some session) ->
  exists rpc',
    bury_session_st rpc session = Ok rpc' /\
    num_active_sessions rpc' = num_active_sessions rpc - 1 /\
    (forall i, session_vec rpc' !! i <> Some (Some session)) /\
    session_heap rpc' !! session = None /\
    (forall i q, q <> session ->
       session_vec rpc' !! i = Some (Some q)
       <-> session_vec rpc !! i = Some (Some q)) /\
    session_vec_wf rpc'.
Proof.
  intros Hlen Hwf Hs Hn.
  assert (Z.to_nat (Session.local_session_num s)
          < length (session_vec rpc))%nat as Hlt
    by (by eapply lookup_lt_Some).
  assert (exists rpc', bury_session_st rpc session = Ok rpc') as [rpc' Hb].
  { unfold bury_session_st. rewrite (deref_Some _ _ _ Hs). simpl.
    rewrite decide_True by done. by eexists. }
  exists rpc'. split; [done|].
  apply bury_session_st_inv in Hb as (s' & Hs' & _ & ->).
  rewrite Hs in Hs'. injection Hs' as <-.
  split; [|split; [|split; [|split]]].
  - rewrite !num_active_sessions_count; simpl;
      rewrite ?length_insert; [|lia..].
    rewrite (omap_id_insert_None _ _ _ Hn). lia.
  - intros i Hi. simpl in Hi.
    destruct (decide (Z.to_nat (Session.local_session_num s) = i))
      as [<-|Hne].
    + by rewrite list_lookup_insert_eq in Hi.
    + rewrite list_lookup_insert_ne in Hi by done.
      destruct (Hwf _ _ Hi) as (s' & Hs' & Hi' & _).
      rewrite Hs in Hs'. by injection Hs' as <-.
  - simpl. apply lookup_delete_eq.
  - intros i q Hq. simpl.
    destruct (decide (Z.to_nat (Session.local_session_num s) = i))
      as [<-|Hne].
    + rewrite list_lookup_insert_eq, Hn by done. split; [done|].
      intros [= ->]. done.
    + by rewrite list_lookup_insert_ne.
  - intros i p Hp. simpl in Hp.
    destruct (decide (Z.to_nat (Session.local_session_num s) = i))
      as [<-|Hne].
    + by rewrite list_lookup_insert_eq in Hp.
    + rewrite list_lookup_insert_ne in Hp by done.
      destruct (Hwf i p Hp) as (s0 & Hs0 & Hi & Hpos).
      exists s0. split; [|done]. simpl. rewrite lookup_delete_ne; [done|].
      intros <-. rewrite Hs in Hs0. injection Hs0 as <-. done.
Qed.

Lemma create_session_live rpc gettid rem_hostname rem_app_tid rem_phy_port
    ret rpc' :
  create_session rpc gettid rem_hostname rem_app_tid rem_phy_port
    = Ok (ret, rpc') ->
  session_vec_live rpc -> session_vec_live rpc'.
Proof.
  intros Hcall Hlive.
  apply create_session_inv in Hcall
    as [(_ & -> & _)|(_ & h & ok & sl & hh & _ & _ &
                      [(_ & _ & ->)|(_ & _ & ->)])]; [done| |].
  - intros i p Hp. simpl in *. apply Hlive in Hp as [s Hs].
    destruct (decide (session_brk rpc = p)) as [->|Hne].
    + rewrite lookup_insert_eq. by eexists.
    + rewrite lookup_insert_ne by done. by eexists.
  - intros i p Hp. simpl in *.
    apply lookup_app_Some in Hp as [Hp|[_ Hp]].
    + apply Hlive in Hp as [s Hs].
      destruct (decide (session_brk rpc = p)) as [->|Hne].
      * rewrite lookup_insert_eq. by eexists.
      * rewrite lookup_insert_ne by done. by eexists.
    + apply list_lookup_singleton_Some in Hp as [_ [= <-]].
      rewrite lookup_insert_eq. by eexists.
Qed.

(** X8. Two sessions to the same remote Rpc are not allowed: once a
    session to [(rem_hostname, rem_app_tid)] has been created, every
    further [create_session] to that remote Rpc returns NULL and changes
    nothing, whatever the port and the calling thread. *)
Theorem create_session_twice rpc gettid rem_hostname rem_app_tid
    rem_phy_port (p : nat) rpc' gettid' rem_phy_port' :
  session_vec_live rpc ->
  create_session rpc gettid (Some rem_hostname) rem_app_tid rem_phy_port
    = Ok (Some p, rpc') ->
  create_session rpc' gettid' (Some rem_hostname) rem_app_tid rem_phy_port'
    = Ok (None, rpc').
Proof.
  intros Hlive Hcall.
  pose proof (create_session_live _ _ _ _ _ _ _ Hcall Hlive) as Hlive'.
  apply create_session_rejected; [done|].
  apply create_session_inv in Hcall
    as [([=] & _)|(_ & h & ok & sl & hh & [= <-] & _ &
                   [(_ & [=] & _)|(_ & _ & ->)])].
  do 3 right. left. exists rem_hostname. split; [done|]. do 2 right.
  exists (length (session_vec rpc)), (session_brk rpc). eexists.
  simpl. split; [by rewrite lookup_app_r, Nat.sub_diag|].
  split; [apply lookup_insert_eq|]. done.
Qed.

(** X9. A session cannot be destroyed while it is being connected:
    [destroy_session] on the session a [create_session] has just returned
    gives false and changes nothing. *)
Theorem destroy_session_after_create rpc gettid rem_hostname rem_app_tid
    rem_phy_port (p : nat) rpc' gettid' :
  create_session rpc gettid rem_hostname rem_app_tid rem_phy_port
    = Ok (Some p, rpc') ->
  destroy_session rpc' gettid' (Some p) = Ok (false, rpc').
Proof.
  intros Hcall.
  apply create_session_inv in Hcall
    as [([=] & _)|(_ & h & ok & sl & hh & _ & _ &
                   [(_ & [=] & _)|(_ & [= ->] & ->)])].
  unfold destroy_session. destruct (negb _); [done|].
  unfold session_created. simpl.
  rewrite (deref_Some _ _ _ (lookup_insert_eq _ _ _)). done.
Qed.

Lemma destroy_session_true_inv rpc gettid session rpc' :
  destroy_session rpc gettid session = Ok (true, rpc') ->
  exists p s, session = Some p /\ session_heap rpc !! p = Some s /\
              rpc' = disconnecting rpc p s.
Proof.
  unfold destroy_session.
  destruct (negb _); [done|].
  destruct session as [p|]; [|done].
  destruct (deref _ p) as [s|] eqn:Hs; simpl; [|done].
  apply deref_Ok in Hs.
  destruct (negb _); [done|].
  destruct (Session.state s); try done.
  unfold send_disconnect_req_one, enqueue_sm_req, mgmt_retry_queue_add. simpl.
  rewrite (deref_Some _ _ _ (lookup_insert_eq _ _ _)). simpl.
  intros [= <-]. by exists p, s.
Qed.

(** X10. A session is disconnected at most once: after a
    [destroy_session] that returned true, a second [destroy_session] of the
    same session returns false and changes nothing - no second disconnect
    request is sent and the session is not queued for retry twice. *)
Theorem destroy_session_twice rpc gettid session rpc' gettid' :
  destroy_session rpc gettid session = Ok (true, rpc') ->
  destroy_session rpc' gettid' session = Ok (false, rpc').
Proof.
  intros (p & s & -> & Hs & ->)%destroy_session_true_inv.
  unfold destroy_session. destruct (negb _); [done|].
  unfold disconnecting. simpl.
  rewrite (deref_Some _ _ (Session.set_state s kDisconnectInProgress))
    by apply lookup_insert_eq.
  simpl. by destruct (negb _).
Qed.

(** ** The preallocated response buffers *)

Lemma alloc_single_pkt (h : H) (m : MsgBuffer) (h' : H) :
  alloc_msg_buffer h kMaxDataPerPkt = Ok (m, h') -> buf m <> None ->
  is_dynamic m = true /\ check_magic m = true /\
  data_size m = kMaxDataPerPkt /\ max_data_size m = kMaxDataPerPkt /\
  num_pkts m = 1 /\ max_num_pkts m = 1.
Proof.
  unfold alloc_msg_buffer. rewrite Z.leb_refl.
  destruct (alloc h _) as [[b h1]|]; simpl; [|done].
  destruct (Buffer_buf b) as [a|] eqn:Hb; intros [= <- <-]; [|done].
  intros _. unfold is_dynamic, check_magic, MsgBuffer_new. simpl.
  rewrite Hb, !bool_decide_eq_true. done.
Qed.

Lemma prealloc_run_single_pkt (h : H) ms h' :
  prealloc_run h ms h' ->
  forall i m, ms !! i = Some m ->
    buf m <> None /\ is_dynamic m = true /\ check_magic m = true /\
    data_size m = kMaxDataPerPkt /\ max_data_size m = kMaxDataPerPkt /\
    num_pkts m = 1 /\ max_num_pkts m = 1.
Proof.
  induction 1 as [h|h m0 h1 ms h2 Ha Hm0 _ IH]; intros i m Hi; [done|].
  destruct i as [|i]; simpl in Hi.
  - injection Hi as <-. split; [done|]. by eapply alloc_single_pkt.
  - by eapply IH.
Qed.

Lemma create_session_prealloc rpc gettid rem_hostname rem_app_tid
    rem_phy_port (p : nat) rpc' :
  create_session rpc gettid rem_hostname rem_app_tid rem_phy_port
    = Ok (Some p, rpc') ->
  exists h ms hh,
    p = session_brk rpc /\
    prealloc_run (huge_alloc rpc) ms hh /\
    length ms = kSessionReqWindow /\
    rpc' = session_created rpc
             (new_client_session rpc h rem_app_tid rem_phy_port
                (wrap16 (Z.of_nat (length (session_vec rpc))))
                (zip_with SSlot.set_pre_resp_msgbuf
                   (Session.sslot_arr
                      (Session_new (session_brk rpc) kClient
                                   kConnectInProgress))
                   ms))
             hh /\
    Z.of_nat (length (session_vec rpc)) < kMaxSessionsPerThread.
Proof.
  intros Hcall.
  apply create_session_inv in Hcall
    as [([=] & _)|(Hnrej & h & ok & sl & hh & _ & Hfill &
                   [(_ & [=] & _)|(-> & [= ->] & ->)])].
  apply fill_prealloc_inv in Hfill
    as [(_ & ms & Hrun & Hlen & ->)|([=] & _)].
  rewrite Session_new_sslot_arr_length in Hlen.
  exists h, ms, hh. rewrite app_nil_l. do 4 (split; [done|]).
  unfold create_session_rejects in Hnrej. lia.
Qed.

(** X11. After a successful [create_session] the session has its
    [kSessionReqWindow] slots, all of them free; every slot points back to
    the session, has no TX buffer and no RX buffer, and owns a preallocated
    response buffer that is a valid dynamic buffer of [kMaxDataPerPkt]
    bytes in one packet. *)
Theorem create_session_slots rpc gettid rem_hostname rem_app_tid
    rem_phy_port (p : nat) rpc' :
  create_session rpc gettid rem_hostname rem_app_tid rem_phy_port
    = Ok (Some p, rpc') ->
  exists s,
    session_heap rpc' !! p = Some s /\
    length (Session.sslot_arr s) = kSessionReqWindow /\
    Session.sslot_free_vec s = Z.of_nat <$> seq 0 kSessionReqWindow /\
    forall (i : nat) sslot,
      Session.sslot_arr s !! i = Some sslot ->
      SSlot.session sslot = p /\ SSlot.index sslot = Z.of_nat i /\
      SSlot.tx_msgbuf sslot = None /\
      buf (SSlot.rx_msgbuf sslot) = None /\
      is_dynamic (SSlot.rx_msgbuf sslot) = false /\
      let m := SSlot.pre_resp_msgbuf sslot in
      buf m <> None /\ is_dynamic m = true /\ check_magic m = true /\
      data_size m = kMaxDataPerPkt /\ max_data_size m = kMaxDataPerPkt /\
      num_pkts m = 1.
Proof.
  intros (h & ms & hh & -> & Hrun & Hlen & -> & _)%create_session_prealloc.
  eexists. split; [apply lookup_insert_eq|]. simpl.
  split.
  { rewrite length_zip_with, length_fmap, length_seq. lia. }
  split; [done|]. intros i sslot Hi.
  apply lookup_zip_with_Some in Hi as (x & m & -> & Hx & Hm).
  apply list_lookup_fmap_Some in Hx as (j & -> & Hj).
  apply lookup_seq in Hj as [-> _]. simpl.
  do 5 (split; [done|]).
  destruct (prealloc_run_single_pkt _ _ _ Hrun i m Hm)
    as (? & ? & ? & ? & ? & ? & _).
  done.
Qed.

Lemma zip_with_set_pre_resp_msgbuf (slots : list SSlot.t)
    (ms : list MsgBuffer) :
  length ms = length slots ->
  SSlot.pre_resp_msgbuf <$> zip_with SSlot.set_pre_resp_msgbuf slots ms = ms.
Proof.
  revert ms. induction slots as [|x slots IH]; intros [|m ms] Hlen;
    simpl in *; try done.
  f_equal. apply IH. lia.
Qed.

(** X12. Burying a session gives back what creating it took: when the
    session a [create_session] returned is buried, every response buffer
    that [create_session] allocated is handed to [free_buf], in slot order;
    the session's index stays in [session_vec] as a null entry, and the
    session is no longer a live object. *)
Theorem bury_session_st_after_create rpc gettid rem_hostname rem_app_tid
    rem_phy_port (p : nat) rpc1 :
  kMaxSessionsPerThread <= 2 ^ 16 ->
  create_session rpc gettid rem_hostname rem_app_tid rem_phy_port
    = Ok (Some p, rpc1) ->
  exists ms rpc2,
    prealloc_run (huge_alloc rpc) ms (huge_alloc rpc1) /\
    length ms = kSessionReqWindow /\
    bury_session_st rpc1 p = Ok rpc2 /\
    huge_alloc rpc2 = foldl free_msg_buffer (huge_alloc rpc1) ms /\
    session_vec rpc2 = session_vec rpc ++ [None] /\
    session_heap rpc2 !! p = None.
Proof.
  intros Hmax Hcall.
  apply create_session_prealloc in Hcall
    as (h & ms & hh & -> & Hrun & Hlen & -> & Hlt).
  assert (wrap16 (Z.of_nat (length (session_vec rpc)))
          = Z.of_nat (length (session_vec rpc))) as Hnum.
  { unfold wrap16. apply Z.mod_small. lia. }
  rewrite Hnum.
  exists ms. eexists. split; [done|]. split; [done|].
  unfold bury_session_st, session_created. simpl.
  rewrite (deref_Some _ _ _ (lookup_insert_eq _ _ _)). simpl.
  rewrite Nat2Z.id, length_app. simpl.
  rewrite decide_True by lia. split; [done|]. simpl.
  split; [|split].
  - rewrite <- foldl_fmap, zip_with_set_pre_resp_msgbuf; [done|].
    by rewrite length_fmap, length_seq.
  - rewrite insert_app_r_alt, Nat.sub_diag by lia. done.
  - apply lookup_delete_eq.
Qed.

(** ** Burying the buffers of a slot *)

Lemma bury_sslot_rx_msgbuf_buried (h : H) (sslot : SSlot.t) :
  is_dynamic (SSlot.rx_msgbuf (bury_sslot_rx_msgbuf h sslot).1) = false /\
  buf (SSlot.rx_msgbuf (bury_sslot_rx_msgbuf h sslot).1) = None.
Proof.
  destruct sslot as [p i tx [[b] mx sz mp np bf mg] pre].
  unfold bury_sslot_rx_msgbuf, is_dynamic. by destruct b as [a|].
Qed.

Lemma bury_sslot_rx_msgbuf_idem (h h' : H) (sslot : SSlot.t) :
  bury_sslot_rx_msgbuf h' (bury_sslot_rx_msgbuf h sslot).1
  = ((bury_sslot_rx_msgbuf h sslot).1, h').
Proof.
  destruct sslot as [p i tx [[b] mx sz mp np bf mg] pre].
  unfold bury_sslot_rx_msgbuf, is_dynamic. by destruct b as [a|].
Qed.

Lemma release_respone_slot rpc (owner i : nat) rpc' :
  release_respone rpc (owner, i) = Ok rpc' ->
  exists o sslot o',
    session_heap rpc !! owner = Some o /\
    Session.sslot_arr o !! i = Some sslot /\
    session_heap rpc' !! owner = Some o' /\
    Session.sslot_arr o' !! i
    = Some (bury_sslot_rx_msgbuf (huge_alloc rpc) sslot).1 /\
    huge_alloc rpc' = (bury_sslot_rx_msgbuf (huge_alloc rpc) sslot).2.
Proof.
  unfold release_respone.
  destruct (deref _ owner) as [o|] eqn:Ho; simpl; [|done].
  apply deref_Ok in Ho.
  destruct (Session.sslot_arr o !! i) as [sslot|] eqn:Hi; [|done].
  destruct (bury_sslot_rx_msgbuf _ sslot) as [sslot' h'] eqn:Hb. simpl.
  destruct (deref _ (SSlot.session sslot')) as [s|] eqn:Hs; simpl; [|done].
  apply deref_Ok in Hs. revert Hs. simpl. intros Hs [= <-]. simpl.
  assert (<[i := sslot']> (Session.sslot_arr o) !! i = Some sslot') as Hi'.
  { apply list_lookup_insert_eq. by eapply lookup_lt_Some. }
  exists o, sslot. rewrite Hb. simpl.
  destruct (decide (owner = SSlot.session sslot')) as [Heq|Hne].
  - rewrite <- Heq in Hs |- *. rewrite lookup_insert_eq in Hs.
    injection Hs as <-. eexists. split; [done|]. split; [done|].
    split; [apply lookup_insert_eq|]. split; [exact Hi'|done].
  - eexists. split; [done|]. split; [done|].
    split; [by rewrite lookup_insert_ne, lookup_insert_eq|].
    split; [exact Hi'|done].
Qed.

(** X13. The RX buffer of a slot is freed at most once.  Burying the RX
    buffer of a slot leaves it non-dynamic with a null [buf], so burying it
    again changes neither the slot nor the allocator; and when
    [release_respone] is called a second time on the same handle, the second
    call frees nothing: the allocator is as the first call left it, and so
    is the slot. *)
Theorem release_respone_frees_once rpc (owner i : nat) rpc1 rpc2 :
  release_respone rpc (owner, i) = Ok rpc1 ->
  release_respone rpc1 (owner, i) = Ok rpc2 ->
  huge_alloc rpc2 = huge_alloc rpc1 /\
  exists o1 o2 sslot,
    session_heap rpc1 !! owner = Some o1 /\
    session_heap rpc2 !! owner = Some o2 /\
    Session.sslot_arr o1 !! i = Some sslot /\
    Session.sslot_arr o2 !! i = Some sslot /\
    is_dynamic (SSlot.rx_msgbuf sslot) = false /\
    buf (SSlot.rx_msgbuf sslot) = None /\
    forall h, bury_sslot_rx_msgbuf h sslot = (sslot, h).
Proof.
  intros (o & sslot & o1 & Ho & Hi & Ho1 & Hi1 & Hh1)%release_respone_slot.
  intros Hsecond. apply release_respone_slot in Hsecond
    as (o1' & sslot1 & o2 & Ho1' & Hi1' & Ho2 & Hi2 & Hh2).
  rewrite Ho1 in Ho1'. injection Ho1' as <-.
  rewrite Hi1 in Hi1'. injection Hi1' as <-.
  rewrite bury_sslot_rx_msgbuf_idem in Hi2, Hh2. simpl in Hi2, Hh2.
  split; [done|].
  exists o1, o2, (bury_sslot_rx_msgbuf (huge_alloc rpc) sslot).1.
  do 4 (split; [done|]).
  destruct (bury_sslot_rx_msgbuf_buried (huge_alloc rpc) sslot) as [? ?].
  do 2 (split; [done|]).
  intros h. apply bury_sslot_rx_msgbuf_idem.
Qed.

(** X14. [bury_sslot_tx_msgbuf] succeeds exactly when the slot's
    [tx_msgbuf] is null or points to a buffer; it then nulls [tx_msgbuf],
    changes nothing else in the slot, and frees the buffer pointed to when,
    and only when, that buffer is dynamic.  After it, or after
    [bury_sslot_tx_msgbuf_nofree], burying the TX buffer again frees nothing
    and dereferences nothing. *)
Theorem bury_sslot_tx_msgbuf_spec (msgbufs : gmap Z MsgBuffer) (h : H)
    (sslot : SSlot.t) :
  (is_Some (match bury_sslot_tx_msgbuf msgbufs h sslot with
            | Ok r => Some r | Err _ => None end) <->
   forall p, SSlot.tx_msgbuf sslot = Some p -> is_Some (msgbufs !! p)) /\
  (forall sslot' h',
     bury_sslot_tx_msgbuf msgbufs h sslot = Ok (sslot', h') ->
     sslot' = bury_sslot_tx_msgbuf_nofree sslot /\
     SSlot.tx_msgbuf sslot' = None /\
     SSlot.rx_msgbuf sslot' = SSlot.rx_msgbuf sslot /\
     SSlot.pre_resp_msgbuf sslot' = SSlot.pre_resp_msgbuf sslot /\
     h' = match SSlot.tx_msgbuf sslot ≫= (msgbufs !!.) with
          | Some m => if is_dynamic m then free_buf h (buffer m) else h
          | None => h
          end /\
     forall msgbufs' h'',
       bury_sslot_tx_msgbuf msgbufs' h'' sslot' = Ok (sslot', h'')) /\
  (forall msgbufs' h',
     bury_sslot_tx_msgbuf msgbufs' h' (bury_sslot_tx_msgbuf_nofree sslot)
     = Ok (bury_sslot_tx_msgbuf_nofree sslot, h')).
Proof.
  unfold bury_sslot_tx_msgbuf, bury_sslot_tx_msgbuf_nofree.
  destruct sslot as [sp si tx rx pre]. simpl.
  split; [|split].
  - destruct tx as [p|]; simpl.
    + destruct (msgbufs !! p) as [m|] eqn:Hm; simpl.
      * split; [|by destruct (is_dynamic m); eexists].
        intros _ ? [= <-]. by rewrite Hm.
      * split; [by intros [? [=]]|].
        intros Hp. destruct (Hp p eq_refl) as [? Hp']. by rewrite Hm in Hp'.
    + split; [done|]. by eexists.
  - intros sslot' h'. destruct tx as [p|]; simpl.
    + destruct (msgbufs !! p) as [m|]; simpl; [|done].
      destruct (is_dynamic m); simpl; by intros [= <- <-].
    + by intros [= <- <-].
  - done.
Qed.

(** ** The session-management mailbox *)

Section SmHandlerFacts.
Context (handle_connect_req_st handle_disconnect_req_st
         : Rpc T H R -> SmWorkItem.t -> Rpc T H R).
Context (handle_connect_resp_st handle_disconnect_resp_st
         : Rpc T H R -> SessionMgmtPkt.t -> Rpc T H R).

Lemma handle_session_mgmt_loop (P : Rpc T H R -> Prop)
    (l : list SmWorkItem.t) rpc (drop_tx_local : bool) calls :
  (forall r wi, P r -> P (handle_connect_req_st r wi)) ->
  (forall r wi, P r -> P (handle_disconnect_req_st r wi)) ->
  (forall r sm_pkt, P r -> P (handle_connect_resp_st r sm_pkt)) ->
  (forall r sm_pkt, P r -> P (handle_disconnect_resp_st r sm_pkt)) ->
  P rpc ->
  let st :=
    foldl (handle_session_mgmt_one handle_connect_req_st
             handle_disconnect_req_st handle_connect_resp_st
             handle_disconnect_resp_st)
          (rpc, drop_tx_local, calls) l in
  P st.1.1 /\
  st.1.2 = drop_tx_local || existsb is_sm_fault l /\
  st.2 = calls ++ omap sm_handler_call l.
Proof.
  intros Hcq Hdq Hcp Hdp. revert rpc drop_tx_local calls.
  induction l as [|wi l IH]; intros rpc drop_tx_local calls HP.
  { simpl. by rewrite orb_false_r, app_nil_r. }
  cbv zeta. cbn [foldl existsb].
  destruct (handle_session_mgmt_one _ _ _ _ (rpc, drop_tx_local, calls) wi)
    as [[r1 d1] c1] eqn:Hone.
  unfold handle_session_mgmt_one in Hone.
  unfold omap. cbn [list_omap]. fold (omap sm_handler_call l).
  unfold is_sm_fault at 1, sm_handler_call at 1.
  destruct (SessionMgmtPkt.pkt_type (SmWorkItem.sm_pkt wi)) eqn:Hty;
    injection Hone as <- <- <-.
  5:{ rewrite bool_decide_eq_true_2 by done.
      destruct (IH rpc true calls HP) as (HP' & Hd & Hc).
      split; [exact HP'|]. split; [|exact Hc].
      rewrite Hd. by rewrite orb_true_r. }
  all: rewrite bool_decide_eq_false_2 by done.
  all: match goal with
       | |- context [foldl _ (?r, ?d, ?c) _] =>
           destruct (IH r d c) as (HP' & Hd & Hc); [eauto|]
       end.
  all: split; [exact HP'|]; split; [exact Hd|].
  all: by rewrite Hc, <- app_assoc.
Qed.

Lemma handle_session_mgmt_loop_state (l : list SmWorkItem.t) rpc
    (drop_tx_local : bool) calls :
  (foldl (handle_session_mgmt_one handle_connect_req_st
            handle_disconnect_req_st handle_connect_resp_st
            handle_disconnect_resp_st)
         (rpc, drop_tx_local, calls) l).1.1
  = foldl (sm_handler_run handle_connect_req_st handle_disconnect_req_st
             handle_connect_resp_st handle_disconnect_resp_st)
          rpc (omap sm_handler_call l).
Proof.
  revert rpc drop_tx_local calls.
  induction l as [|wi l IH]; intros rpc drop_tx_local calls; [done|].
  cbn [foldl]. unfold omap. cbn [list_omap]. fold (omap sm_handler_call l).
  destruct (handle_session_mgmt_one _ _ _ _ (rpc, drop_tx_local, calls) wi)
    as [[r1 d1] c1] eqn:Hone.
  unfold handle_session_mgmt_one in Hone. unfold sm_handler_call at 1.
  destruct (SessionMgmtPkt.pkt_type (SmWorkItem.sm_pkt wi));
    injection Hone as <- <- <-; by rewrite IH.
Qed.

(** X15. [handle_session_mgmt_st] empties the mailbox; it calls one handler
    for every packet that is not a fault-injection packet, in the order of
    the mailbox, each with the handler of its type, and none for a
    fault-injection packet; the engine it leaves is the engine these
    handlers leave, each run on the state the one before left, with the
    mailbox cleared; [faults.drop_tx_local] is set once a fault-injection
    packet is there and is never cleared; and whatever the four handlers
    preserve, and clearing the mailbox does, the whole call preserves. *)
Theorem handle_session_mgmt_st_spec rpc (drop_tx_local : bool) :
  let st :=
    handle_session_mgmt_st handle_connect_req_st handle_disconnect_req_st
      handle_connect_resp_st handle_disconnect_resp_st rpc drop_tx_local in
  sm_rx_list st.1.1 = [] /\
  st.1.1
  = set_sm_rx_list
      (foldl (sm_handler_run handle_connect_req_st handle_disconnect_req_st
                handle_connect_resp_st handle_disconnect_resp_st)
             rpc (omap sm_handler_call (sm_rx_list rpc)))
      [] /\
  st.1.2 = drop_tx_local || existsb is_sm_fault (sm_rx_list rpc) /\
  st.2 = omap sm_handler_call (sm_rx_list rpc) /\
  (length st.2
   + length (filter (fun wi => SessionMgmtPkt.pkt_type (SmWorkItem.sm_pkt wi)
                                = kFaultDropTxRemote)
                     (sm_rx_list rpc))
   = length (sm_rx_list rpc))%nat /\
  forall P : Rpc T H R -> Prop,
    (forall r wi, P r -> P (handle_connect_req_st r wi)) ->
    (forall r wi, P r -> P (handle_disconnect_req_st r wi)) ->
    (forall r sm_pkt, P r -> P (handle_connect_resp_st r sm_pkt)) ->
    (forall r sm_pkt, P r -> P (handle_disconnect_resp_st r sm_pkt)) ->
    (forall r, P r -> P (set_sm_rx_list r [])) ->
    P rpc -> P st.1.1.
Proof.
  unfold handle_session_mgmt_st.
  destruct (handle_session_mgmt_loop (fun _ => True) (sm_rx_list rpc) rpc
              drop_tx_local []) as (_ & Hdrop & Hcalls); try done.
  pose proof (handle_session_mgmt_loop_state (sm_rx_list rpc) rpc
                drop_tx_local []) as Hstate.
  destruct (foldl _ _ (sm_rx_list rpc)) as [[rpc' drop'] calls] eqn:Hloop.
  simpl in Hdrop, Hcalls, Hstate |- *.
  split; [done|]. split; [by rewrite Hstate|].
  split; [done|]. split; [done|]. split.
  - rewrite Hcalls. clear. induction (sm_rx_list rpc) as [|wi l IH]; [done|].
    rewrite filter_cons. unfold omap in *. cbn [list_omap].
    unfold sm_handler_call at 1.
    destruct (decide (SessionMgmtPkt.pkt_type (SmWorkItem.sm_pkt wi)
                      = kFaultDropTxRemote)) as [He|Hne].
    + rewrite He. cbn [length]. lia.
    + destruct (SessionMgmtPkt.pkt_type (SmWorkItem.sm_pkt wi));
        try done; cbn [length]; lia.
  - intros P Hcq Hdq Hcp Hdp Hclear HP. apply Hclear.
    destruct (handle_session_mgmt_loop P (sm_rx_list rpc) rpc
                drop_tx_local []) as (HP' & _); try done.
    by rewrite Hloop in HP'.
Qed.
End SmHandlerFacts.

(** X16. A session-management request and its response carry the session's
    endpoints: when [enqueue_sm_req] queues a connect or disconnect request
    for a session, and an engine answers the work item it receives with
    [enqueue_sm_resp], the response is queued last, has the response type of
    the request, the error code given, the receiver's [app_tid], the peer of
    the work item received, and the client and server endpoints of the
    session. *)
Theorem sm_req_resp_round_trip rpc (session : nat) (s : Session.t)
    (pkt_type : SessionMgmtPktType) (peer : Rpc T H R) (epeer : option Z)
    (err_type : Z) :
  session_heap rpc !! session = Some s ->
  pkt_type = kConnectReq \/ pkt_type = kDisconnectReq ->
  exists req_wi resp_wi,
    enqueue_sm_req rpc session pkt_type
    = Ok (set_sm_tx_list rpc (sm_tx_list rpc ++ [req_wi])) /\
    SessionMgmtPkt.is_req (SmWorkItem.sm_pkt req_wi) = true /\
    enqueue_sm_resp peer
      (SmWorkItem.mk (SmWorkItem.rpc_id req_wi) (SmWorkItem.sm_pkt req_wi)
                     epeer)
      err_type
    = Ok (set_sm_tx_list peer (sm_tx_list peer ++ [resp_wi])) /\
    SmWorkItem.rpc_id resp_wi = app_tid peer /\
    SmWorkItem.epeer resp_wi = epeer /\
    session_mgmt_pkt_type_req_to_resp pkt_type
    = Ok (SessionMgmtPkt.pkt_type (SmWorkItem.sm_pkt resp_wi)) /\
    SessionMgmtPkt.is_req (SmWorkItem.sm_pkt resp_wi) = false /\
    SessionMgmtPkt.err_type (SmWorkItem.sm_pkt resp_wi) = err_type /\
    SessionMgmtPkt.client (SmWorkItem.sm_pkt resp_wi) = Session.client s /\
    SessionMgmtPkt.server (SmWorkItem.sm_pkt resp_wi) = Session.server s.
Proof.
  intros Hs Hty. unfold enqueue_sm_req, enqueue_sm_resp.
  rewrite (deref_Some _ _ _ Hs). simpl.
  eexists. exists
    (SmWorkItem.mk (app_tid peer)
       (SessionMgmtPkt.mk
          (match pkt_type with
           | kConnectReq => kConnectResp | _ => kDisconnectResp end)
          err_type (Session.client s) (Session.server s))
       epeer).
  split; [done|]. simpl.
  destruct Hty as [-> | ->]; simpl; done.
Qed.
(** ** The event loop, for a time *)

Section EventLoopTimeoutFacts.
Context (handle_session_management mgmt_retry process_completions
         process_datapath_tx_work_queue : Rpc T H R -> Rpc T H R).
Context (dpath_stat_inc : Z -> Z).
Context (elapsed_ms_gt : Z -> Z -> bool).

Lemma run_event_loop_one_calls rpc :
  exists sm retry : list EvLoopCall,
    (run_event_loop_one handle_session_management mgmt_retry
       process_completions process_datapath_tx_work_queue dpath_stat_inc
       rpc).2
    = sm ++ retry ++ [ProcessCompletions; ProcessDatapathTxWorkQueue] /\
    (sm = [] \/ sm = [HandleSessionManagement]) /\
    (retry = [] \/ retry = [MgmtRetry]).
Proof.
  unfold run_event_loop_one, call. cbn [fst snd].
  destruct (bool_decide (0 < length (sm_rx_list _))%nat); cbn [fst snd].
  - destruct (bool_decide (0 < length (mgmt_retry_queue _))%nat);
      cbn [fst snd].
    + exists [HandleSessionManagement], [MgmtRetry]. auto.
    + exists [HandleSessionManagement], []. auto.
  - destruct (bool_decide (0 < length (mgmt_retry_queue _))%nat);
      cbn [fst snd].
    + exists [], [MgmtRetry]. auto.
    + exists [], []. auto.
Qed.

Lemma run_event_loop_iter_count (c : EvLoopCall) (n : nat)
    (st : Rpc T H R * list EvLoopCall) :
  c = ProcessCompletions \/ c = ProcessDatapathTxWorkQueue ->
  length (filter (c =.)
            (Nat.iter n
               (run_event_loop_iter handle_session_management mgmt_retry
                  process_completions process_datapath_tx_work_queue
                  dpath_stat_inc)
               st).2)
  = (length (filter (c =.) st.2) + n)%nat.
Proof.
  intros Hc. induction n as [|n IH]; [simpl; lia|].
  rewrite Nat.iter_succ. unfold run_event_loop_iter at 1. cbn [snd].
  rewrite filter_app, length_app, IH.
  destruct (run_event_loop_one_calls
              (Nat.iter n
                 (run_event_loop_iter handle_session_management mgmt_retry
                    process_completions process_datapath_tx_work_queue
                    dpath_stat_inc)
                 st).1) as (sm & retry & -> & Hsm & Hretry).
  rewrite !filter_app, !length_app.
  destruct Hc as [-> | ->], Hsm as [-> | ->], Hretry as [-> | ->];
    vm_compute length; lia.
Qed.

(** X17. [run_event_loop_timeout] runs the event loop until the first
    iteration after which the time elapsed since its start exceeds the
    timeout: when that is iteration [k], counted from zero, it returns after
    exactly [k + 1] iterations, each a [run_event_loop_one] on the state the
    one before left; so it runs at least one iteration whatever the timeout,
    and calls [process_completions] and [process_datapath_tx_work_queue]
    [k + 1] times each. *)
Theorem run_event_loop_timeout_spec rpc (timeout_ms start_tsc : Z)
    (rdtsc : list Z) (k : nat) (now : Z) :
  rdtsc !! k = Some now ->
  elapsed_ms_gt (wrap64 (now - start_tsc)) timeout_ms = true ->
  (forall j t, (j < k)%nat -> rdtsc !! j = Some t ->
               elapsed_ms_gt (wrap64 (t - start_tsc)) timeout_ms = false) ->
  exists st,
    run_event_loop_timeout handle_session_management mgmt_retry
      process_completions process_datapath_tx_work_queue dpath_stat_inc
      elapsed_ms_gt rpc timeout_ms (start_tsc :: rdtsc) = Some st /\
    st = Nat.iter (S k)
           (run_event_loop_iter handle_session_management mgmt_retry
              process_completions process_datapath_tx_work_queue
              dpath_stat_inc)
           (rpc, []) /\
    length (filter (ProcessCompletions =.) st.2) = S k /\
    length (filter (ProcessDatapathTxWorkQueue =.) st.2) = S k.
Proof.
  intros Hk Hexp Hbefore.
  assert (forall st,
    run_event_loop_timeout_loop handle_session_management mgmt_retry
      process_completions process_datapath_tx_work_queue dpath_stat_inc
      elapsed_ms_gt start_tsc timeout_ms rdtsc st
    = Some (Nat.iter (S k)
              (run_event_loop_iter handle_session_management mgmt_retry
                 process_completions process_datapath_tx_work_queue
                 dpath_stat_inc)
              st)) as Hloop.
  { clear rpc. revert rdtsc Hk Hbefore.
    induction k as [|k IH]; intros [|t rdtsc] Hk Hbefore st; try done.
    - injection Hk as ->. cbn [run_event_loop_timeout_loop].
      by rewrite Hexp.
    - cbn [run_event_loop_timeout_loop].
      rewrite (Hbefore 0%nat t) by (done || lia).
      rewrite IH; [by rewrite <- Nat.iter_succ_r|done|].
      intros j t' Hj Ht'. apply (Hbefore (S j)); [lia|done]. }
  eexists. split; [apply Hloop|]. split; [done|].
  rewrite !run_event_loop_iter_count by auto. done.
Qed.
End EventLoopTimeoutFacts.

End EngineMoreFacts.

(** ** Message sizes and the allocator's largest class *)

Section MsgBufferMoreFacts.
Context {consts : Constants} {consts_ok : ConstantsOK}.
Context {H : Type} {huge_allocator : HugeAlloc H}.

Lemma kMaxMsgSize_exact :
  sizeof_pkthdr_t <= kMaxDataPerPkt ->
  kMaxMsgSize
  = kMaxClassSize - (kMaxClassSize / kMaxDataPerPkt) * sizeof_pkthdr_t.
Proof.
  intros Hhdr. pose proof kMaxDataPerPkt_range as Hd.
  pose proof kMaxClassSize_range as Hc.
  assert (0 < kMaxDataPerPkt) as Hpos by lia.
  assert (0 <= kMaxClassSize) as Hc0 by lia.
  pose proof (Z.div_pos kMaxClassSize kMaxDataPerPkt Hc0 Hpos) as Hq.
  pose proof (Z.mul_div_le kMaxClassSize kMaxDataPerPkt Hpos) as Hmul.
  unfold sizeof_pkthdr_t in *. unfold kMaxMsgSize, sizeof_pkthdr_t.
  rewrite (wrap64_small (_ * 16)) by nia.
  apply wrap64_small. nia.
Qed.

Lemma packets_for_mono (n n' : Z) :
  n <= n' -> packets_for n <= packets_for n'.
Proof.
  intros Hle. pose proof kMaxDataPerPkt_range as Hd.
  assert (0 < kMaxDataPerPkt) as Hpos by lia.
  unfold packets_for. repeat case_decide; try lia.
  - pose proof (ceil_div_above n' kMaxDataPerPkt Hpos). nia.
  - pose proof (ceil_div_below n kMaxDataPerPkt Hpos).
    pose proof (ceil_div_above n' kMaxDataPerPkt Hpos). nia.
Qed.

(** X18. When a packet holds at least a header's worth of data and fits
    the allocator's largest class, and the remainder of [kMaxClassSize] by
    [kMaxDataPerPkt] is at most a header per whole packet, [kMaxMsgSize] is
    [kMaxClassSize] less one header per whole packet, and the size
    [alloc_msg_buffer] asks the allocator for, for any message size up to
    [kMaxMsgSize], is at most [kMaxClassSize]: data and headers fit the
    largest class, and [alloc_msg_buffer] throws nothing when the allocator
    throws on no size up to its largest class. *)
Theorem alloc_msg_buffer_request_fits (max_size : Z) :
  sizeof_pkthdr_t <= kMaxDataPerPkt <= kMaxClassSize ->
  kMaxClassSize mod kMaxDataPerPkt
    <= sizeof_pkthdr_t * (kMaxClassSize / kMaxDataPerPkt) ->
  0 <= max_size <= kMaxMsgSize ->
  kMaxMsgSize
  = kMaxClassSize - (kMaxClassSize / kMaxDataPerPkt) * sizeof_pkthdr_t /\
  num_pkts_for max_size <= kMaxClassSize / kMaxDataPerPkt /\
  0 < wrap64 (max_size + wrap64 (num_pkts_for max_size * sizeof_pkthdr_t))
    <= kMaxClassSize /\
  forall huge_alloc : H,
    (forall size, 0 < size <= kMaxClassSize ->
                  exists r, alloc huge_alloc size = Ok r) ->
    exists r, alloc_msg_buffer huge_alloc max_size = Ok r.
Proof.
  intros [Hhdr Hfit] Hrem Hn.
  pose proof kMaxDataPerPkt_range as Hd.
  pose proof kMaxClassSize_range as Hc.
  assert (0 < kMaxDataPerPkt) as Hpos by lia.
  pose proof (kMaxMsgSize_exact Hhdr) as Hmax.
  split; [done|].
  assert (num_pkts_for max_size <= kMaxClassSize / kMaxDataPerPkt /\
          0 < wrap64 (max_size
                      + wrap64 (num_pkts_for max_size * sizeof_pkthdr_t))
            <= kMaxClassSize) as [Hpkts Hreq].
  { rewrite (alloc_request_size max_size Hn).
    rewrite (num_pkts_for_packets_for max_size Hn).
    rewrite Hmax in Hn.
    assert (kMaxDataPerPkt <> 0) as Hnz by lia.
    pose proof (Z.div_mod kMaxClassSize kMaxDataPerPkt Hnz) as Hdm.
    assert (1 <= kMaxClassSize / kMaxDataPerPkt) as Hq.
    { apply Z.div_le_lower_bound; lia. }
    unfold sizeof_pkthdr_t in *. unfold packets_for.
    case_decide as Hsmall; [lia|].
    pose proof (ceil_div_below max_size kMaxDataPerPkt Hpos) as Hbelow.
    pose proof (ceil_div_above max_size kMaxDataPerPkt Hpos) as Habove.
    assert (ceil_div max_size kMaxDataPerPkt
            <= kMaxClassSize / kMaxDataPerPkt) as Hp by nia.
    split; [done|]. nia. }
  split; [done|]. split; [done|].
  intros huge_alloc Halloc. unfold alloc_msg_buffer.
  fold (num_pkts_for max_size).
  destruct (Halloc _ Hreq) as [[b h] ->]. simpl.
  destruct (Buffer_buf b); by eexists.
Qed.

(** X19. A buffer that [alloc_msg_buffer] returned stays well-formed when
    [resize_msg_buffer] shrinks it: the data size is the new size, the
    packet count is the count of the new size, at least one and at most the
    count the buffer was allocated with, and the packets hold the data; the
    buffer is still dynamic, its magic is still right, its memory is the
    same, and [free_msg_buffer] gives back the same [Buffer] as before the
    resize. *)
Theorem resize_msg_buffer_after_alloc (huge_alloc : H) (max_size : Z)
    (m : MsgBuffer) (huge_alloc' : H) (new_data_size : Z) :
  0 <= max_size <= kMaxMsgSize ->
  alloc_msg_buffer huge_alloc max_size = Ok (m, huge_alloc') ->
  buf m <> None ->
  0 <= new_data_size < max_size ->
  let m' := resize_msg_buffer m new_data_size in
  data_size m' = new_data_size /\
  data_size m' < max_data_size m' /\
  num_pkts m' = packets_for new_data_size /\
  max_num_pkts m' = packets_for max_size /\
  1 <= num_pkts m' <= max_num_pkts m' /\
  data_size m' <= num_pkts m' * kMaxDataPerPkt /\
  buf m' = buf m /\ is_dynamic m' = true /\ check_magic m' = true /\
  forall h, free_msg_buffer h m' = free_msg_buffer h m.
Proof.
  intros Hmax Halloc Hbuf Hnew m'. subst m'.
  pose proof kMaxDataPerPkt_range as Hd.
  assert (0 < kMaxDataPerPkt) as Hpos by lia.
  assert (0 <= new_data_size <= kMaxMsgSize) as Hnew' by lia.
  revert Halloc. unfold alloc_msg_buffer.
  destruct (alloc huge_alloc _) as [[b h1]|]; simpl; [|done].
  destruct (Buffer_buf b) as [a|] eqn:Hb; intros [= <- <-]; [|done].
  unfold resize_msg_buffer.
  fold (num_pkts_for new_data_size). fold (num_pkts_for max_size).
  rewrite (num_pkts_for_packets_for _ Hnew').
  rewrite (num_pkts_for_packets_for _ Hmax).
  unfold is_dynamic, check_magic, free_msg_buffer, MsgBuffer_resize,
    MsgBuffer_new. simpl.
  pose proof (packets_for_bound _ Hnew') as Hp.
  assert (new_data_size <= max_size) as Hle by lia.
  pose proof (packets_for_mono new_data_size max_size Hle) as Hmono.
  split; [done|]. split; [lia|]. split; [done|]. split; [done|].
  split; [lia|]. split.
  { unfold packets_for. case_decide; [lia|].
    by apply ceil_div_above. }
  split; [done|]. rewrite Hb, !bool_decide_eq_true. done.
Qed.
End MsgBufferMoreFacts.
(** * The properties at work on a concrete engine *)

#[local] Existing Instances Demo.consts Demo.arena_alloc Demo.unit_transport
  Demo.counter_rand.

Lemma demo_consts_ok : @ConstantsOK Demo.consts.
Proof. split; vm_compute; (split || idtac); congruence. Defined.

Lemma alloc_msg_buffer_spec_witness :
  0 <= 2048 <= @kMaxMsgSize Demo.consts /\
  @num_pkts_for Demo.consts 2048 = 2 /\
  @num_pkts_for Demo.consts 1024 = 1.
Proof.
  assert (0 <= 2048 <= @kMaxMsgSize Demo.consts) as H2048
    by (vm_compute; split; congruence).
  assert (0 <= 1024 <= @kMaxMsgSize Demo.consts) as H1024
    by (vm_compute; split; congruence).
  split; [exact H2048|]. split.
  - exact (proj1 (alloc_msg_buffer_spec (consts := Demo.consts)
                    (consts_ok := demo_consts_ok)
                    (huge_allocator := Demo.arena_alloc)
                    (Demo.mkArena 0 100000 []) 2048 H2048)).
  - exact (proj1 (alloc_msg_buffer_spec (consts := Demo.consts)
                    (consts_ok := demo_consts_ok)
                    (huge_allocator := Demo.arena_alloc)
                    (Demo.mkArena 0 100000 []) 1024 H1024)).
Defined.

Lemma resize_msg_buffer_idempotent_witness :
  let m := @resize_msg_buffer Demo.consts Demo.large_resp 100 in
  buf Demo.large_resp <> None /\
  @resize_msg_buffer Demo.consts m 100 = m /\
  data_size m = 100 /\ num_pkts m = 1 /\ max_data_size m = 2048.
Proof.
  assert (buf Demo.large_resp <> None) as Hbuf by (vm_compute; congruence).
  assert (@check_magic Demo.consts Demo.large_resp = true) as Hmagic
    by (vm_compute; reflexivity).
  assert (0 <= 100 < max_data_size Demo.large_resp) as Hsize
    by (vm_compute; split; congruence).
  destruct (resize_msg_buffer_idempotent (consts := Demo.consts)
              Demo.large_resp 100 Hbuf Hmagic Hsize)
    as (Hidem & _ & Hsz & Hpk & _ & Hmax & _).
  split; [exact Hbuf|]. split; [exact Hidem|]. split; [exact Hsz|].
  split; [exact Hpk|exact Hmax].
Defined.

Lemma destroy_session_spec_witness :
  exists rpc',
    destroy_session Demo.rpc_connected 100 (Some 0%nat) = Ok (true, rpc') /\
    mgmt_retry_queue rpc' = [0%nat] /\
    length (sm_tx_list rpc') = 2%nat.
Proof.
  assert (forall p, Some 0%nat = Some p ->
                    is_Some (session_heap Demo.rpc_connected !! p)) as Hlive.
  { intros p [= <-]. vm_compute. eexists. reflexivity. }
  destruct (destroy_session_spec Demo.rpc_connected 100 (Some 0%nat) Hlive)
    as (ret & rpc' & Hcall & Hret & Htrue & _).
  assert (ret = true) as ->.
  { apply Hret. split; [vm_compute; reflexivity|].
    exists 0%nat, (Session.set_state Demo.session0 kConnected).
    split; [reflexivity|]. split; [vm_compute; reflexivity|].
    split; vm_compute; reflexivity. }
  exists rpc'. split; [exact Hcall|].
  destruct (Htrue eq_refl) as (p & s & Hp & _ & -> & _).
  injection Hp as <-. split; vm_compute; reflexivity.
Defined.


Lemma create_session_failure_witness :
  create_session (Demo.rpc0 3000) 100 (Some "host-b") 7 0
    = Ok (None, Demo.rpc_oom) /\
  session_vec Demo.rpc_oom = [] /\
  Demo.freed (huge_alloc Demo.rpc_oom)
    = [mkBuffer (Some 4096); mkBuffer (Some 5136)] /\
  create_session (Demo.rpc0 3000) 99 (Some "host-b") 7 0
    = Ok (None, Demo.rpc0 3000).
Proof.
  assert (session_vec_live (Demo.rpc0 3000)) as Hlive.
  { intros i p. vm_compute. intros [=]. }
  assert (create_session (Demo.rpc0 3000) 100 (Some "host-b") 7 0
          = Ok (None, Demo.rpc_oom)) as Hcall
    by (vm_compute; reflexivity).
  destruct (create_session_failure (consts := Demo.consts)
              (transport_ops := Demo.unit_transport)
              (huge_allocator := Demo.arena_alloc)
              (slow_rand_ops := Demo.counter_rand)
              (Demo.rpc0 3000) 99 (Some "host-b") 7 0 Hlive)
    as (Hrej & _ & _).
  destruct (create_session_failure (consts := Demo.consts)
              (transport_ops := Demo.unit_transport)
              (huge_allocator := Demo.arena_alloc)
              (slow_rand_ops := Demo.counter_rand)
              (Demo.rpc0 3000) 100 (Some "host-b") 7 0 Hlive)
    as (_ & _ & Hfail).
  destruct (Hfail Demo.rpc_oom Hcall) as [Hvec _].
  split; [exact Hcall|]. split; [|split].
  - rewrite Hvec. vm_compute. reflexivity.
  - vm_compute. reflexivity.
  - apply Hrej. left. vm_compute. intros [=].
Defined.

Lemma create_session_success_witness :
  exists s,
    session_heap Demo.rpc1 !! 0%nat = Some s /\
    Session.state s = kConnectInProgress /\
    Session.local_session_num s = 0 /\
    session_vec Demo.rpc1 = [Some 0%nat].
Proof.
  assert (@kMaxSessionsPerThread Demo.consts <= 2 ^ 16) as Hmax
    by (vm_compute; intros [=]).
  assert (create_session (Demo.rpc0 100000) 100 (Some "host-b") 7 0
          = Ok (Some 0%nat, Demo.rpc1)) as Hcall
    by (vm_compute; reflexivity).
  destruct (create_session_success (consts := Demo.consts)
              (transport_ops := Demo.unit_transport)
              (huge_allocator := Demo.arena_alloc)
              (slow_rand_ops := Demo.counter_rand)
              (Demo.rpc0 100000) 100 (Some "host-b") 7 0 0%nat Demo.rpc1
              Hmax Hcall)
    as (s & Hs & _ & Hst & Hnum & _ & _ & _ & _ & _ & Hvec & _).
  exists s. split; [exact Hs|]. split; [exact Hst|]. split.
  - rewrite Hnum. vm_compute. reflexivity.
  - rewrite Hvec. vm_compute. reflexivity.
Defined.

Lemma enqueue_sm_resp_echo_witness :
  exists resp_wi,
    enqueue_sm_resp Demo.rpc_connected Demo.connect_req 0
      = Ok (set_sm_tx_list Demo.rpc_connected
              (sm_tx_list Demo.rpc_connected ++ [resp_wi])) /\
    SessionMgmtPkt.pkt_type (SmWorkItem.sm_pkt resp_wi) = kConnectResp /\
    SessionEndpoint.secret (SessionMgmtPkt.client (SmWorkItem.sm_pkt resp_wi))
      = 70787341155632.
Proof.
  assert (SessionMgmtPkt.is_req (SmWorkItem.sm_pkt Demo.connect_req) = true)
    as Hreq by (vm_compute; reflexivity).
  destruct (enqueue_sm_resp_echo Demo.rpc_connected Demo.connect_req 0 Hreq)
    as (resp_wi & Hcall & _ & Hty & _ & _ & _ & Hsecret & _).
  exists resp_wi. split; [exact Hcall|]. split.
  - apply Hty. vm_compute. reflexivity.
  - rewrite Hsecret. vm_compute. reflexivity.
Defined.

Lemma bury_session_st_spec_witness :
  exists rpc',
    @bury_session_st unit Demo.Arena Z Demo.arena_alloc Demo.rpc1 0
      = Ok rpc' /\
    session_vec rpc' = [None] /\
    length (Demo.freed (huge_alloc rpc')) = 8%nat.
Proof.
  assert (session_heap Demo.rpc1 !! 0%nat = Some Demo.session0) as Hs
    by (vm_compute; reflexivity).
  assert (length (Session.sslot_arr Demo.session0)
          = @kSessionReqWindow Demo.consts) as Hslots
    by (vm_compute; reflexivity).
  assert (Z.to_nat (Session.local_session_num Demo.session0)
          < length (session_vec Demo.rpc1))%nat as Hn
    by (vm_compute; constructor).
  destruct (bury_session_st_spec (consts := Demo.consts)
              (transport_ops := Demo.unit_transport)
              (huge_allocator := Demo.arena_alloc)
              (slow_rand_ops := Demo.counter_rand)
              Demo.rpc1 0 Demo.session0 Hs Hslots Hn)
    as (rpc' & Hcall & Hfree & _ & Hvec & _).
  exists rpc'. split; [exact Hcall|]. split.
  - rewrite Hvec. vm_compute. reflexivity.
  - rewrite Hfree. vm_compute. reflexivity.
Defined.

Lemma release_respone_spec_witness :
  exists rpc' o',
    @release_respone unit Demo.Arena Z Demo.arena_alloc Demo.rpc_resp
                     (0%nat, 3%nat) = Ok rpc' /\
    session_heap rpc' !! 0%nat = Some o' /\
    Session.sslot_free_vec o' = [0; 1; 2; 3; 4; 5; 6; 7; 3] /\
    Demo.freed (huge_alloc rpc') = [mkBuffer (Some 200000)] /\
    mkBuffer (Some 200000) <> buffer (SSlot.pre_resp_msgbuf Demo.sslot_resp).
Proof.
  assert (session_heap Demo.rpc_resp !! 0%nat = Some Demo.session_resp) as Ho
    by (vm_compute; reflexivity).
  assert (Session.sslot_arr Demo.session_resp !! 3%nat = Some Demo.sslot_resp)
    as Hslot by (vm_compute; reflexivity).
  destruct (release_respone_spec (huge_allocator := Demo.arena_alloc)
              Demo.rpc_resp 0 3 Demo.session_resp Demo.sslot_resp Ho Hslot
              ltac:(vm_compute; reflexivity) ltac:(vm_compute; reflexivity)
              ltac:(vm_compute; reflexivity) ltac:(vm_compute; reflexivity))
    as (rpc' & o' & sslot' & Hcall & Ho' & Hfree_vec & _ & _ & _ & _ & Hh & _).
  exists rpc', o'. split; [exact Hcall|]. split; [exact Ho'|]. split.
  - rewrite Hfree_vec. vm_compute. reflexivity.
  - split; [rewrite Hh; vm_compute; reflexivity|].
    vm_compute. intros [=].
Defined.

(** A slot of a client session, with a null [tx_msgbuf], whose [rx_msgbuf]
    is a copy of the slot's preallocated response buffer: the [Buffer] that
    [release_respone] gives back to the allocator is the preallocated one,
    whose descriptor in the slot still says it is dynamic. *)
Lemma release_respone_spec_counterexample :
  session_heap Demo.rpc_alias !! 0%nat = Some Demo.session_alias /\
  Session.is_client Demo.session_alias = true /\
  Session.sslot_arr Demo.session_alias !! 3%nat = Some Demo.sslot_alias /\
  SSlot.session Demo.sslot_alias = 0%nat /\
  SSlot.index Demo.sslot_alias = 3 /\
  SSlot.tx_msgbuf Demo.sslot_alias = None /\
  SSlot.pre_resp_msgbuf Demo.sslot_alias = Demo.prealloc3 /\
  SSlot.rx_msgbuf Demo.sslot_alias = Demo.prealloc3 /\
  is_dynamic Demo.prealloc3 = true /\
  num_pkts Demo.prealloc3 = 1 /\
  Demo.freed (huge_alloc Demo.rpc_alias) = [] /\
  @release_respone unit Demo.Arena Z Demo.arena_alloc Demo.rpc_alias
                   (0%nat, 3%nat) = Ok Demo.rpc_alias_released /\
  Demo.freed (huge_alloc Demo.rpc_alias_released)
  = [buffer Demo.prealloc3] /\
  (SSlot.pre_resp_msgbuf
     <$> (session_heap Demo.rpc_alias_released !! 0%nat
            ≫= fun o => Session.sslot_arr o !! 3%nat))
  = Some Demo.prealloc3.
Proof. repeat (split; [vm_compute; reflexivity|]). vm_compute. reflexivity. Qed.



(** An iteration on the engine of [Demo.rpc1], whose mailbox is empty and
    whose retry queue holds the new session: the handler is skipped. *)
Example run_event_loop_one_demo :
  (run_event_loop_one id id id id Z.succ Demo.rpc1).2
  = [MgmtRetry; ProcessCompletions; ProcessDatapathTxWorkQueue].
Proof. vm_compute. reflexivity. Qed.

(** A buffer of exactly [kMaxDataPerPkt] bytes has one packet, and one byte
    more makes two. *)
Example alloc_msg_buffer_demo :
  (fun r => match r with
            | Ok (m, _) => Some (num_pkts m, data_size m)
            | Err _ => None
            end)
    <$> [alloc_msg_buffer (Demo.mkArena 0 100000 []) 1024;
         alloc_msg_buffer (Demo.mkArena 0 100000 []) 1025;
         alloc_msg_buffer (Demo.mkArena 0 100000 []) 0]
  = [Some (1, 1024); Some (2, 1025); Some (1, 0)].
Proof. vm_compute. reflexivity. Qed.

(** * The further properties at work on the concrete engine *)

Lemma demo_rpc1_reachable :
  reachable (consts := Demo.consts) (transport_ops := Demo.unit_transport)
    (huge_allocator := Demo.arena_alloc)
    (slow_rand_ops := Demo.counter_rand) Demo.rpc1.
Proof.
  exists "host-a", 1, 0, 100, tt, (Demo.mkArena 4096 100000 []), 5.
  eapply rtc_l; [|apply rtc_refl].
  eapply (step_create_session _ _ 100 (Some "host-b") 7 0 (Some 0%nat)).
  vm_compute. reflexivity.
Defined.

Lemma num_active_sessions_bounds_witness :
  0 <= num_active_sessions Demo.rpc1
    <= Z.of_nat (length (session_vec Demo.rpc1)).
Proof.
  assert (Z.of_nat (length (session_vec Demo.rpc1)) < 2 ^ 64) as Hlen
    by (vm_compute; reflexivity).
  exact (proj1 (num_active_sessions_bounds Demo.rpc1 Hlen)).
Defined.

Lemma session_vec_append_only_witness :
  (length (session_vec (Demo.rpc0 100000))
   <= length (session_vec Demo.rpc1))%nat.
Proof.
  assert (rtc (engine_step (consts := Demo.consts)
                 (transport_ops := Demo.unit_transport)
                 (huge_allocator := Demo.arena_alloc)
                 (slow_rand_ops := Demo.counter_rand))
              (Demo.rpc0 100000) Demo.rpc1) as Hsteps.
  { eapply rtc_l; [|apply rtc_refl].
    eapply (step_create_session _ _ 100 (Some "host-b") 7 0 (Some 0%nat)).
    vm_compute. reflexivity. }
  exact (proj1 (session_vec_append_only _ _ Hsteps)).
Defined.

Lemma session_vec_bounded_witness :
  num_active_sessions Demo.rpc1 <= @kMaxSessionsPerThread Demo.consts.
Proof.
  assert (0 <= @kMaxSessionsPerThread Demo.consts < 2 ^ 64) as Hmax
    by (vm_compute; split; congruence).
  exact (proj2 (session_vec_bounded (consts := Demo.consts)
                  (transport_ops := Demo.unit_transport)
                  (huge_allocator := Demo.arena_alloc)
                  (slow_rand_ops := Demo.counter_rand)
                  Demo.rpc1 Hmax demo_rpc1_reachable)).
Defined.

Lemma session_vec_indexed_by_session_num_witness :
  exists s,
    session_heap Demo.rpc1 !! 0%nat = Some s /\
    Session.local_session_num s = 0.
Proof.
  assert (@kMaxSessionsPerThread Demo.consts <= 2 ^ 16) as Hmax
    by (vm_compute; intros [=]).
  destruct (session_vec_indexed_by_session_num (consts := Demo.consts)
              (transport_ops := Demo.unit_transport)
              (huge_allocator := Demo.arena_alloc)
              (slow_rand_ops := Demo.counter_rand)
              Demo.rpc1 Hmax demo_rpc1_reachable) as (Hidx & _ & _).
  destruct (Hidx 0%nat 0%nat ltac:(vm_compute; reflexivity))
    as (s & Hs & Hnum).
  exists s. split; [exact Hs|exact Hnum].
Defined.

Lemma create_session_num_active_sessions_witness :
  num_active_sessions Demo.rpc1 = 1.
Proof.
  assert (@kMaxSessionsPerThread Demo.consts < 2 ^ 64) as Hmax
    by (vm_compute; reflexivity).
  assert (create_session (Demo.rpc0 100000) 100 (Some "host-b") 7 0
          = Ok (Some 0%nat, Demo.rpc1)) as Hcall
    by (vm_compute; reflexivity).
  rewrite (create_session_num_active_sessions (consts := Demo.consts)
             (transport_ops := Demo.unit_transport)
             (huge_allocator := Demo.arena_alloc)
             (slow_rand_ops := Demo.counter_rand)
             (Demo.rpc0 100000) 100 (Some "host-b") 7 0 (Some 0%nat)
             Demo.rpc1 Hmax Hcall).
  vm_compute. reflexivity.
Defined.

Lemma bury_session_st_num_active_sessions_witness :
  exists rpc',
    @bury_session_st unit Demo.Arena Z Demo.arena_alloc Demo.rpc1 0
      = Ok rpc' /\
    num_active_sessions rpc' = 0.
Proof.
  assert (@kMaxSessionsPerThread Demo.consts <= 2 ^ 16) as Hmax
    by (vm_compute; intros [=]).
  assert (Z.of_nat (length (session_vec Demo.rpc1)) < 2 ^ 64) as Hlen
    by (vm_compute; reflexivity).
  pose proof (reachable_session_vec_wf (consts := Demo.consts)
                (transport_ops := Demo.unit_transport)
                (huge_allocator := Demo.arena_alloc)
                (slow_rand_ops := Demo.counter_rand)
                Demo.rpc1 Hmax demo_rpc1_reachable) as Hwf.
  destruct (bury_session_st_num_active_sessions
              (huge_allocator := Demo.arena_alloc)
              Demo.rpc1 0 Demo.session0 Hlen Hwf
              ltac:(vm_compute; reflexivity) ltac:(vm_compute; reflexivity))
    as (rpc' & Hcall & Hnum & _).
  exists rpc'. split; [exact Hcall|].
  rewrite Hnum. vm_compute. reflexivity.
Defined.

Lemma create_session_twice_witness :
  create_session Demo.rpc1 100 (Some "host-b") 7 1 = Ok (None, Demo.rpc1).
Proof.
  assert (session_vec_live (Demo.rpc0 100000)) as Hlive.
  { intros i p. vm_compute. intros [=]. }
  assert (create_session (Demo.rpc0 100000) 100 (Some "host-b") 7 0
          = Ok (Some 0%nat, Demo.rpc1)) as Hcall
    by (vm_compute; reflexivity).
  exact (create_session_twice (consts := Demo.consts)
           (transport_ops := Demo.unit_transport)
           (huge_allocator := Demo.arena_alloc)
           (slow_rand_ops := Demo.counter_rand)
           (Demo.rpc0 100000) 100 "host-b" 7 0 0%nat Demo.rpc1 100 1
           Hlive Hcall).
Defined.

Lemma destroy_session_after_create_witness :
  destroy_session Demo.rpc1 100 (Some 0%nat) = Ok (false, Demo.rpc1).
Proof.
  assert (create_session (Demo.rpc0 100000) 100 (Some "host-b") 7 0
          = Ok (Some 0%nat, Demo.rpc1)) as Hcall
    by (vm_compute; reflexivity).
  exact (destroy_session_after_create (consts := Demo.consts)
           (transport_ops := Demo.unit_transport)
           (huge_allocator := Demo.arena_alloc)
           (slow_rand_ops := Demo.counter_rand)
           (Demo.rpc0 100000) 100 (Some "host-b") 7 0 0%nat Demo.rpc1 100
           Hcall).
Defined.

Lemma destroy_session_twice_witness :
  destroy_session DemoMore.rpc_disconnecting 100 (Some 0%nat)
  = Ok (false, DemoMore.rpc_disconnecting).
Proof.
  assert (destroy_session Demo.rpc_connected 100 (Some 0%nat)
          = Ok (true, DemoMore.rpc_disconnecting)) as Hcall
    by (vm_compute; reflexivity).
  exact (destroy_session_twice Demo.rpc_connected 100 (Some 0%nat)
           DemoMore.rpc_disconnecting 100 Hcall).
Defined.

Lemma create_session_slots_witness :
  exists s,
    session_heap Demo.rpc1 !! 0%nat = Some s /\
    length (Session.sslot_arr s) = 8%nat.
Proof.
  assert (create_session (Demo.rpc0 100000) 100 (Some "host-b") 7 0
          = Ok (Some 0%nat, Demo.rpc1)) as Hcall
    by (vm_compute; reflexivity).
  destruct (create_session_slots (consts := Demo.consts)
              (transport_ops := Demo.unit_transport)
              (huge_allocator := Demo.arena_alloc)
              (slow_rand_ops := Demo.counter_rand)
              (Demo.rpc0 100000) 100 (Some "host-b") 7 0 0%nat Demo.rpc1
              Hcall) as (s & Hs & Hlen & _).
  exists s. split; [exact Hs|exact Hlen].
Defined.

Lemma bury_session_st_after_create_witness :
  exists rpc2,
    @bury_session_st unit Demo.Arena Z Demo.arena_alloc Demo.rpc1 0
      = Ok rpc2 /\
    session_vec rpc2 = [None].
Proof.
  assert (@kMaxSessionsPerThread Demo.consts <= 2 ^ 16) as Hmax
    by (vm_compute; intros [=]).
  assert (create_session (Demo.rpc0 100000) 100 (Some "host-b") 7 0
          = Ok (Some 0%nat, Demo.rpc1)) as Hcall
    by (vm_compute; reflexivity).
  destruct (bury_session_st_after_create (consts := Demo.consts)
              (transport_ops := Demo.unit_transport)
              (huge_allocator := Demo.arena_alloc)
              (slow_rand_ops := Demo.counter_rand)
              (Demo.rpc0 100000) 100 (Some "host-b") 7 0 0%nat Demo.rpc1
              Hmax Hcall) as (ms & rpc2 & _ & _ & Hbury & _ & Hvec & _).
  exists rpc2. split; [exact Hbury|].
  rewrite Hvec. vm_compute. reflexivity.
Defined.

Lemma release_respone_frees_once_witness :
  huge_alloc DemoMore.rpc_released_twice = huge_alloc DemoMore.rpc_released.
Proof.
  assert (@release_respone unit Demo.Arena Z Demo.arena_alloc Demo.rpc_resp
                           (0%nat, 3%nat) = Ok DemoMore.rpc_released)
    as Hfirst by (vm_compute; reflexivity).
  assert (@release_respone unit Demo.Arena Z Demo.arena_alloc
                           DemoMore.rpc_released (0%nat, 3%nat)
          = Ok DemoMore.rpc_released_twice)
    as Hsecond by (vm_compute; reflexivity).
  exact (proj1 (release_respone_frees_once (huge_allocator := Demo.arena_alloc)
                  Demo.rpc_resp 0 3 DemoMore.rpc_released
                  DemoMore.rpc_released_twice Hfirst Hsecond)).
Defined.

Lemma sm_req_resp_round_trip_witness :
  exists req_wi resp_wi,
    enqueue_sm_req Demo.rpc1 0 kConnectReq
    = Ok (set_sm_tx_list Demo.rpc1 (sm_tx_list Demo.rpc1 ++ [req_wi])) /\
    SessionMgmtPkt.client (SmWorkItem.sm_pkt resp_wi)
    = Session.client Demo.session0.
Proof.
  assert (session_heap Demo.rpc1 !! 0%nat = Some Demo.session0) as Hs
    by (vm_compute; reflexivity).
  destruct (sm_req_resp_round_trip Demo.rpc1 0 Demo.session0 kConnectReq
              Demo.rpc_connected (Some 4242) 0 Hs (or_introl eq_refl))
    as (req_wi & resp_wi & Hreq & _ & _ & _ & _ & _ & _ & _ & Hclient & _).
  exists req_wi, resp_wi. split; [exact Hreq|exact Hclient].
Defined.

Lemma run_event_loop_timeout_spec_witness :
  exists st,
    run_event_loop_timeout id id id id Z.succ DemoMore.elapsed_ms_gt
      Demo.rpc1 2 (1000 :: [1000500; 2500000; 3500000; 9999999]) = Some st /\
    length (filter (ProcessCompletions =.) st.2) = 2%nat.
Proof.
  assert (forall (j : nat) (t : Z), (j < 1)%nat ->
            [1000500; 2500000; 3500000; 9999999] !! j = Some t ->
            DemoMore.elapsed_ms_gt (wrap64 (t - 1000)) 2 = false) as Hbefore.
  { intros [|j] t Hj; [|lia]. intros [= <-]. vm_compute. reflexivity. }
  destruct (run_event_loop_timeout_spec id id id id Z.succ
              DemoMore.elapsed_ms_gt Demo.rpc1 2 1000
              [1000500; 2500000; 3500000; 9999999] 1 2500000
              eq_refl ltac:(vm_compute; reflexivity) Hbefore)
    as (st & Hrun & _ & Hcount & _).
  exists st. split; [exact Hrun|exact Hcount].
Defined.

Lemma alloc_msg_buffer_request_fits_witness :
  @num_pkts_for Demo.consts 2048 <= 8192 /\
  exists r, alloc_msg_buffer (Demo.mkArena 0 100000 []) 2048 = Ok r.
Proof.
  assert (sizeof_pkthdr_t <= @kMaxDataPerPkt Demo.consts
          <= @kMaxClassSize Demo.consts) as Hpkt
    by (vm_compute; split; congruence).
  assert (@kMaxClassSize Demo.consts mod @kMaxDataPerPkt Demo.consts
          <= sizeof_pkthdr_t
             * (@kMaxClassSize Demo.consts / @kMaxDataPerPkt Demo.consts))
    as Hrem by (vm_compute; congruence).
  assert (0 <= 2048 <= @kMaxMsgSize Demo.consts) as Hsize
    by (vm_compute; split; congruence).
  destruct (alloc_msg_buffer_request_fits (consts := Demo.consts)
              (consts_ok := demo_consts_ok)
              (huge_allocator := Demo.arena_alloc)
              2048 Hpkt Hrem Hsize) as (_ & Hpkts & _ & Halloc).
  split.
  - revert Hpkts. vm_compute. exact (fun Hle => Hle).
  - apply Halloc. intros size _. unfold alloc. simpl.
    destruct (size <=? 100000); eexists; reflexivity.
Defined.

Lemma resize_msg_buffer_after_alloc_witness :
  let m := @MsgBuffer_new Demo.consts (mkBuffer (Some 0)) 2048 2 in
  num_pkts (@resize_msg_buffer Demo.consts m 100) = 1 /\
  max_num_pkts (@resize_msg_buffer Demo.consts m 100) = 2.
Proof.
  intros m.
  assert (0 <= 2048 <= @kMaxMsgSize Demo.consts) as Hsize
    by (vm_compute; split; congruence).
  assert (alloc_msg_buffer (Demo.mkArena 0 100000 []) 2048
          = Ok (m, Demo.mkArena 2080 97920 [])) as Hcall
    by (vm_compute; reflexivity).
  assert (buf m <> None) as Hbuf by (vm_compute; congruence).
  assert (0 <= 100 < 2048) as Hnew by (vm_compute; split; congruence).
  destruct (resize_msg_buffer_after_alloc (consts := Demo.consts)
              (consts_ok := demo_consts_ok)
              (huge_allocator := Demo.arena_alloc)
              (Demo.mkArena 0 100000 []) 2048 m
              (Demo.mkArena 2080 97920 []) 100 Hsize Hcall Hbuf Hnew)
    as (_ & _ & Hpk & Hmaxpk & _).
  split.
  - rewrite Hpk. vm_compute. reflexivity.
  - rewrite Hmaxpk. vm_compute. reflexivity.
Defined.

(** The mailbox handled with handlers that count in [ev_loop_calls]: a
    connect request, a fault-injection packet and a disconnect response
    make two handler calls, in this order, and set [drop_tx_local]. *)
Example handle_session_mgmt_st_demo :
  let count (n : Z) (rpc : Rpc unit Demo.Arena Z) :=
    set_ev_loop_calls rpc (10 * ev_loop_calls rpc + n) in
  let pkt ty :=
    SmWorkItem.mk 7
      (SessionMgmtPkt.mk ty 0 (Session.client Demo.session0)
                         (Session.server Demo.session0))
      None in
  let st :=
    handle_session_mgmt_st
      (fun rpc _ => count 1 rpc) (fun rpc _ => count 2 rpc)
      (fun rpc _ => count 3 rpc) (fun rpc _ => count 4 rpc)
      (set_sm_rx_list Demo.rpc1
         [pkt kConnectReq; pkt kFaultDropTxRemote; pkt kDisconnectResp])
      false in
  ev_loop_calls st.1.1 = 14 /\ sm_rx_list st.1.1 = [] /\
  st.1.2 = true /\ length st.2 = 2%nat.
Proof. vm_compute. repeat split; reflexivity. Qed.
